(** * gpx: binary acquisition and caching pipeline

    A shallow embedding of the TypeScript sources of gpx
    ([platform.ts], [downloader.ts], [cache.ts], [registry.ts]) together
    with the properties of the acquisition pipeline that hold of them.

    Conventions of the embedding:
    - JavaScript strings are [string]; [toLowerCase] acts on the ASCII
      letters (asset names, repository names and paths are ASCII in practice);
    - [path] is Node's POSIX flavour ([/] is the only separator);
    - asynchronous code is sequential here: every [await] is a monadic bind
      over an explicit world (file system, fault oracle, event trace). *)

From Stdlib Require Import ZArith Ascii String DecimalString List Sorted Bool Lia.
From stdpp Require Import base gmap strings list.

Open Scope string_scope.
Open Scope Z_scope.
Open Scope list_scope.

(** ** JavaScript string primitives *)

Module Str.

Definition lower_ascii (c : ascii) : ascii :=
  let n := nat_of_ascii c in
  if ((65 <=? n)%nat && (n <=? 90)%nat)%bool then ascii_of_nat (n + 32) else c.

(** [s.toLowerCase()] *)
Fixpoint toLowerCase (s : string) : string :=
  match s with
  | EmptyString => EmptyString
  | String c t => String (lower_ascii c) (toLowerCase t)
  end.

(** [s.startsWith(p)] *)
Fixpoint startsWith (p s : string) : bool :=
  match p, s with
  | EmptyString, _ => true
  | String a p', String b s' => if Ascii.eqb a b then startsWith p' s' else false
  | String _ _, EmptyString => false
  end.

(** [s.includes(sub)] *)
Fixpoint includes (sub s : string) : bool :=
  if startsWith sub s then true
  else match s with
       | EmptyString => false
       | String _ t => includes sub t
       end.

(** [s.endsWith(suf)] *)
Fixpoint endsWith (suf s : string) : bool :=
  if String.eqb s suf then true
  else match s with
       | EmptyString => false
       | String _ t => endsWith suf t
       end.

(** [s.split(c)] for a one-character separator: never the empty array. *)
Fixpoint split_on (sep : ascii -> bool) (s : string) : list string :=
  match s with
  | EmptyString => [EmptyString]
  | String c t =>
      if sep c then EmptyString :: split_on sep t
      else match split_on sep t with
           | h :: r => String c h :: r
           | [] => [String c EmptyString]
           end
  end.

Definition is_slash (c : ascii) : bool := Ascii.eqb c "/".

(** [s.split('/')] *)
Definition split_slash (s : string) : list string := split_on is_slash s.

(** the character class of the regular expression [/[-_]/] *)
Definition is_dash_or_underscore (c : ascii) : bool :=
  (Ascii.eqb c "-" || Ascii.eqb c "_")%bool.

(** [l.join(sep)] *)
Fixpoint join (sep : string) (l : list string) : string :=
  match l with
  | [] => EmptyString
  | [x] => x
  | x :: r => x +:+ sep +:+ join sep r
  end.

(** the first [n] characters of [s] *)
Fixpoint take (n : nat) (s : string) : string :=
  match n, s with
  | S k, String c t => String c (take k t)
  | _, _ => EmptyString
  end.

(** [s] without its last [n] characters *)
Definition drop_end (n : nat) (s : string) : string :=
  take (String.length s - n) s.

Definition nonempty (s : string) : bool :=
  match s with EmptyString => false | _ => true end.

(** the order of [Array.prototype.sort()] called without a comparator:
    strings compare by their code units *)
Definition default_compare (a b : string) : Z :=
  match String.compare a b with Lt => -1 | Eq => 0 | Gt => 1 end.

(** [s] between double quotes *)
Definition quoted (s : string) : string :=
  String (ascii_of_nat 34) (s +:+ String (ascii_of_nat 34) EmptyString).

End Str.

(** ** types.ts *)

Record GitHubAsset := {
  name : string;
  browser_download_url : string;
  size : Z;
  content_type : string
}.

Record Platform := { os : string; arch : string }.

(** ** platform.ts: PlatformMatcher *)

Module PlatformMatcher.

Definition getOSPatterns (os : string) : list string :=
  if String.eqb os "darwin" then ["darwin"; "apple-darwin"; "macos"; "osx"]
  else if String.eqb os "linux" then
    ["linux"; "linux-gnu"; "linux-musl"; "unknown-linux-gnu"; "unknown-linux-musl"]
  else if String.eqb os "windows" then
    ["windows"; "win"; "pc-windows-msvc"; "pc-windows-gnu"]
  else [os].

Definition getArchPatterns (arch : string) : list string :=
  if String.eqb arch "x86_64" then ["x86_64"; "amd64"; "x64"]
  else if String.eqb arch "aarch64" then ["aarch64"; "arm64"]
  else if String.eqb arch "i686" then ["i686"; "386"; "i386"; "x86"]
  else if String.eqb arch "armv7" then ["armv7"; "arm"]
  else [arch].

(** [patterns.some(pattern => filename.includes(pattern.toLowerCase()))] *)
Definition some_includes (patterns : list string) (filename : string) : bool :=
  existsb (fun pattern => Str.includes (Str.toLowerCase pattern) filename) patterns.

Definition scoreAsset (asset : GitHubAsset) (osPatterns archPatterns : list string) : Z :=
  let filename := Str.toLowerCase (name asset) in
  if (Str.includes "source" filename || String.eqb filename "source.tar.gz"
      || String.eqb filename "source.zip")%bool then 0
  else
    let score := 0 in
    let osMatch := some_includes osPatterns filename in
    if negb osMatch then 0
    else
      let score := score + 10 in
      let archMatch := some_includes archPatterns filename in
      let score := if archMatch then score + 10 else score in
      let score :=
        if (Str.endsWith ".tar.gz" filename || Str.endsWith ".zip" filename)%bool
        then score + 5 else score in
      let score := if Str.endsWith ".tar.gz" filename then score + 2 else score in
      if (Str.includes "sha256" filename || Str.includes "sig" filename
          || Str.includes "asc" filename)%bool then 0
      else
        let score :=
          if (Str.includes "debug" filename || Str.includes "dev" filename)%bool
          then score - 5 else score in
        score.

(** [Array.prototype.sort(compare)]: ECMAScript requires the sort to be
    stable, so for a comparator that is a total preorder the result is the
    one list an insertion sort produces: an element stays in front of the
    later elements it does not compare greater than. *)
Section Sort.
Context {A : Type} (compare : A -> A -> Z).

Fixpoint sort_insert (x : A) (l : list A) : list A :=
  match l with
  | [] => [x]
  | y :: r => if compare x y <=? 0 then x :: y :: r else y :: sort_insert x r
  end.

Definition sort (l : list A) : list A := List.fold_right sort_insert [] l.
End Sort.

Definition scored (osPatterns archPatterns : list string) (assets : list GitHubAsset)
  : list (GitHubAsset * Z) :=
  List.map (fun asset => (asset, scoreAsset asset osPatterns archPatterns)) assets.

Definition findMatchingAsset (assets : list GitHubAsset) (platform : Platform)
  : option GitHubAsset :=
  let osPatterns := getOSPatterns (os platform) in
  let archPatterns := getArchPatterns (arch platform) in
  let scoredAssets :=
    sort (fun a b => snd b - snd a)
      (List.filter (fun p => 0 <? snd p) (scored osPatterns archPatterns assets)) in
  match scoredAssets with
  | [] => None
  | best :: _ => Some (fst best)
  end.

(** the score [findMatchingAsset] gives an asset on a platform *)
Definition score_on (platform : Platform) (asset : GitHubAsset) : Z :=
  scoreAsset asset (getOSPatterns (os platform)) (getArchPatterns (arch platform)).

Definition isPlatformSupported (assets : list GitHubAsset) (platform : Platform) : bool :=
  match findMatchingAsset assets platform with Some _ => true | None => false end.

Definition normalizeOS (platform : string) : string :=
  if String.eqb platform "darwin" then "darwin"
  else if String.eqb platform "linux" then "linux"
  else if String.eqb platform "win32" then "windows"
  else platform.

Definition normalizeArch (arch : string) : string :=
  if String.eqb arch "x64" then "x86_64"
  else if String.eqb arch "arm64" then "aarch64"
  else if String.eqb arch "ia32" then "i686"
  else if String.eqb arch "arm" then "armv7"
  else arch.

(** [getCurrentPlatform()], given what [os.platform()] and [os.arch()]
    return *)
Definition getCurrentPlatform (os_platform os_arch : string) : Platform :=
  {| os := normalizeOS os_platform; arch := normalizeArch os_arch |}.

Definition isOSPattern (part : string) : bool :=
  let osPatterns := ["darwin"; "linux"; "windows"; "win"; "macos"; "osx"; "apple"] in
  existsb (fun os => Str.includes os part) osPatterns.

Definition isArchPattern (part : string) : bool :=
  let archPatterns :=
    ["x86_64"; "amd64"; "x64"; "aarch64"; "arm64"; "i686"; "386"; "armv7"; "arm"] in
  existsb (fun arch => Str.includes arch part) archPatterns.

(** [platforms.add(x)] on a [Set], whose elements are kept in the order of
    their first insertion *)
Definition set_add (x : string) (platforms : list string) : list string :=
  if existsb (String.eqb x) platforms then platforms else platforms ++ [x].

(** the [for (let i = 0; i < parts.length - 1; i++)] loop of
    [getAvailablePlatforms]: the OS-arch pairs of adjacent parts, added in
    the order of [i] *)
Fixpoint add_platforms (parts : list string) (platforms : list string) : list string :=
  match parts with
  | current :: (next :: _) as rest =>
      add_platforms rest
        (if (isOSPattern current && isArchPattern next)%bool
         then set_add (current +:+ "-" +:+ next) platforms
         else platforms)
  | _ => platforms
  end.

Definition getAvailablePlatforms (assets : list GitHubAsset) : list string :=
  let platforms :=
    List.fold_left
      (fun platforms asset =>
         let filename := Str.toLowerCase (name asset) in
         if (Str.includes "source" filename || Str.includes "sha256" filename
             || Str.includes "sig" filename || Str.includes "asc" filename)%bool
         then platforms
         else add_platforms (Str.split_on Str.is_dash_or_underscore filename) platforms)
      assets [] in
  sort Str.default_compare platforms.

End PlatformMatcher.

(** ** Node's [path] module (POSIX) *)

Module Path.

(** the last non-empty component of a path: trailing separators are skipped *)
Definition last_component (p : string) : option string :=
  List.last (List.map Some (List.filter Str.nonempty (Str.split_slash p))) None.

(** the suffix of [s] that starts at its last dot *)
Fixpoint last_dot_suffix (s : string) : option string :=
  match s with
  | EmptyString => None
  | String c t =>
      match last_dot_suffix t with
      | Some e => Some e
      | None => if Ascii.eqb c "." then Some s else None
      end
  end.

(** [path.extname(p)]: from the last dot of the last component to its end;
    empty when there is no dot, when the only dot is the first character of
    the component, or when the component is [..]. *)
Definition extname (p : string) : string :=
  match last_component p with
  | None => ""
  | Some c =>
      match last_dot_suffix c with
      | None => ""
      | Some e => if (String.eqb e c || String.eqb c "..")%bool then "" else e
      end
  end.

(** One step of [normalizeString]: the components kept so far and the next
    component. *)
Definition normalize_step (allowAboveRoot : bool) (kept : list string) (seg : string)
  : list string :=
  if (String.eqb seg "" || String.eqb seg ".")%bool then kept
  else if String.eqb seg ".." then
    match List.last (List.map Some kept) None with
    | Some top =>
        if String.eqb top ".." then
          (if allowAboveRoot then kept ++ [".."] else kept)
        else List.removelast kept
    | None => if allowAboveRoot then [".."] else kept
    end
  else kept ++ [seg].

Definition normalize_segments (allowAboveRoot : bool) (segs : list string) : list string :=
  List.fold_left (normalize_step allowAboveRoot) segs [].

(** [path.normalize(p)] *)
Definition normalize (p : string) : string :=
  if String.eqb p "" then "."
  else
    let isAbsolute := Str.startsWith "/" p in
    let trailingSeparator := Str.endsWith "/" p in
    let body := Str.join "/" (normalize_segments (negb isAbsolute) (Str.split_slash p)) in
    if String.eqb body "" then
      (if isAbsolute then "/" else if trailingSeparator then "./" else ".")
    else
      (if isAbsolute then "/" else "") +:+ body +:+ (if trailingSeparator then "/" else "").

(** [path.join(...parts)]: zero-length arguments are ignored, the rest is
    joined with [/] and normalized. *)
Definition join (parts : list string) : string :=
  let joined := Str.join "/" (List.filter Str.nonempty parts) in
  if String.eqb joined "" then "." else normalize joined.

(** [path.dirname(p)] for a path without trailing separator: what stands
    before the last [/]; [.] where there is none, the root where nothing
    stands before it, [//] for a path [//x] *)
Definition dirname (p : string) : string :=
  match List.removelast (Str.split_slash p) with
  | [] => "."
  | [""] => "/"
  | [""; ""] => "//"
  | dirs => Str.join "/" dirs
  end.

(** [path.basename(p)]: the last component, trailing separators skipped *)
Definition basename (p : string) : string :=
  match last_component p with Some c => c | None => "" end.

(** the separators at the end of [p] *)
Fixpoint trailing_separators (p : string) : string :=
  match p with
  | EmptyString => EmptyString
  | String c t =>
      let s := trailing_separators t in
      if (Str.is_slash c && String.eqb t s)%bool then String c t else s
  end.

(** [path.basename(p, suffix)]: a suffix that is neither empty nor longer
    than [p] is matched backwards against the last component and removed
    from it unless it is the whole component. Node returns the empty name
    when the suffix is the whole path, and keeps the trailing separators
    when the component is used up before the suffix is. *)
Definition basename_suffix (p suffix : string) : string :=
  let c := basename p in
  if (Str.nonempty suffix && (String.length suffix <=? String.length p)%nat)%bool then
    if String.eqb suffix p then ""
    else if Str.endsWith suffix c then
      (if String.eqb c suffix then c else Str.drop_end (String.length suffix) c)
    else if Str.endsWith c suffix then c +:+ trailing_separators p
    else c
  else c.

End Path.

(** ** downloader.ts: which extractor an archive path is handed to *)

Inductive Extractor := TarGz | Zip | Unsupported (ext : string).

Definition archiveFormat (archivePath : string) : Extractor :=
  let ext := Str.toLowerCase (Path.extname archivePath) in
  if (String.eqb ext ".gz" || Str.endsWith ".tar.gz" archivePath)%bool then TarGz
  else if String.eqb ext ".zip" then Zip
  else Unsupported ext.

(** ** cache.ts: pure parts of CacheManager *)

Module CachePure.

(** [filename.replace(/\.(tar\.gz|zip|exe)$/, '')]: the pattern is anchored
    at the end of the input, so at most one suffix is removed. *)
Definition strip_archive_ext (filename : string) : string :=
  if Str.endsWith ".tar.gz" filename then Str.drop_end 7 filename
  else if Str.endsWith ".zip" filename then Str.drop_end 4 filename
  else if Str.endsWith ".exe" filename then Str.drop_end 4 filename
  else filename.

(** the [for (const part of parts)] loop of [guessBinaryName], which returns
    from the function at the first part equal to the repository name *)
Fixpoint match_part (parts : list string) (repoName : string) : option string :=
  match parts with
  | [] => None
  | part :: rest =>
      if String.eqb (Str.toLowerCase part) (Str.toLowerCase repoName)
      then Some repoName
      else match_part rest repoName
  end.

Definition guessBinaryName (filename repoName : string) : string :=
  let name := strip_archive_ext filename in
  if Str.includes (Str.toLowerCase repoName) (Str.toLowerCase name) then repoName
  else
    let parts := Str.split_on Str.is_dash_or_underscore name in
    match match_part parts repoName with
    | Some r => r
    | None => repoName
    end.

(** [`${platform.os}-${platform.arch}`] *)
Definition platformKey (platform : Platform) : string :=
  os platform +:+ "-" +:+ arch platform.

(** the path of a cache slot, as a function of the four components *)
Definition cachePath (cacheDir owner repoName version key : string) : string :=
  Path.join [cacheDir; owner; repoName; version; key].

(** [getCachePath(repo, version, platform)]: [repo.split('/')] is
    destructured into owner and repository name; without a second component
    [path.join] receives [undefined] and throws a [TypeError] ([None]). *)
Definition getCachePath (cacheDir repo version : string) (platform : Platform)
  : option string :=
  match Str.split_slash repo with
  | owner :: repoName :: _ =>
      Some (cachePath cacheDir owner repoName version (platformKey platform))
  | _ => None
  end.

End CachePure.

(** ** Well-formed path components *)

Fixpoint no_slash (s : string) : bool :=
  match s with
  | EmptyString => true
  | String c t => (negb (Str.is_slash c) && no_slash t)%bool
  end.

(** A component that names a directory entry: non-empty, free of [/], and
    neither [.] nor [..]. *)
Definition valid_segment (s : string) : bool :=
  (Str.nonempty s && no_slash s && negb (String.eqb s ".") && negb (String.eqb s ".."))%bool.

(** What [path.join] makes of the cache directory alone: the leading
    separator it keeps, and the components it keeps. *)
Definition root (cacheDir : string) : string :=
  if (Str.nonempty cacheDir && Str.startsWith "/" cacheDir)%bool then "/" else "".

Definition stem (cacheDir : string) : list string :=
  if Str.nonempty cacheDir
  then Path.normalize_segments (negb (Str.startsWith "/" cacheDir))
         (Str.split_slash cacheDir)
  else [].

(** ** JavaScript values *)

Module JS.

Set Warnings "-register-all".

(** A JSON document. Arrays do not occur in the documents gpx reads or
    writes ([registry.json], [metadata.json], [cache-entry.json]) and are
    left out of the document universe. *)
Inductive json :=
| JNull
| JBool (b : bool)
| JNum (n : Z)
| JStr (s : string)
| JObj (fields : list (string * json)).

(** A run-time value. An object carries its identity [id]: [===] on objects
    compares identities, [JSON.parse] gives every object it builds a fresh
    one. [VBuiltin k] is what a plain object inherits from
    [Object.prototype] under the name [k]. Own properties are kept in
    insertion order. *)
Inductive value :=
| VUndef
| VNull
| VBool (b : bool)
| VNum (n : Z)
| VStr (s : string)
| VBuiltin (k : string)
| VObj (id : nat) (props : list (string * value)).

Definition props := list (string * value).

Fixpoint own (k : string) (ps : props) : option value :=
  match ps with
  | [] => None
  | (k', v) :: r => if String.eqb k' k then Some v else own k r
  end.

(** [o[k] = v] on the own properties: an existing key keeps its place *)
Fixpoint assign (k : string) (v : value) (ps : props) : props :=
  match ps with
  | [] => [(k, v)]
  | (k', v') :: r => if String.eqb k' k then (k, v) :: r else (k', v') :: assign k v r
  end.

(** [delete o[k]] on the own properties, whose names are distinct *)
Fixpoint remove (k : string) (ps : props) : props :=
  match ps with
  | [] => []
  | (k', v') :: r => if String.eqb k' k then remove k r else (k', v') :: remove k r
  end.

(** the property names every plain object inherits from [Object.prototype] *)
Definition object_prototype_members : list string :=
  ["constructor"; "hasOwnProperty"; "isPrototypeOf"; "propertyIsEnumerable";
   "toLocaleString"; "toString"; "valueOf"; "__proto__";
   "__defineGetter__"; "__defineSetter__"; "__lookupGetter__"; "__lookupSetter__"].

Definition inherited (k : string) : bool :=
  existsb (String.eqb k) object_prototype_members.

(** truthiness, as tested by [if (v)], [!v] and [&&] *)
Definition truthy (v : value) : bool :=
  match v with
  | VUndef | VNull => false
  | VBool b => b
  | VNum n => negb (n =? 0)
  | VStr s => Str.nonempty s
  | VBuiltin _ | VObj _ _ => true
  end.

(** [typeof v] *)
Definition typeof (v : value) : string :=
  match v with
  | VUndef => "undefined"
  | VNull => "object"
  | VBool _ => "boolean"
  | VNum _ => "number"
  | VStr _ => "string"
  | VBuiltin k => if String.eqb k "__proto__" then "object" else "function"
  | VObj _ _ => "object"
  end.

(** [a === b] *)
Definition strict_eq (a b : value) : bool :=
  match a, b with
  | VUndef, VUndef | VNull, VNull => true
  | VBool x, VBool y => Bool.eqb x y
  | VNum x, VNum y => x =? y
  | VStr x, VStr y => String.eqb x y
  | VBuiltin x, VBuiltin y => String.eqb x y
  | VObj x _, VObj y _ => Nat.eqb x y
  | _, _ => false
  end.

(** [v[k]]: [inl] is the message of the [TypeError] raised on [null] and
    [undefined]. A plain object answers with its own property, else with
    what it inherits, else [undefined]. Primitives have no property of a
    name the program reads. *)
Definition get (v : value) (k : string) : string + value :=
  match v with
  | VUndef => inl ("TypeError: Cannot read properties of undefined (reading '" +:+ k +:+ "')")
  | VNull => inl ("TypeError: Cannot read properties of null (reading '" +:+ k +:+ "')")
  | VObj _ ps =>
      match own k ps with
      | Some x => inr x
      | None => inr (if inherited k then VBuiltin k else VUndef)
      end
  | _ => inr VUndef
  end.

(** [JSON.parse]: the value of a document, every object with a fresh
    identity taken from the counter [n]. *)
Fixpoint revive (j : json) (n : nat) : value * nat :=
  match j with
  | JNull => (VNull, n)
  | JBool b => (VBool b, n)
  | JNum z => (VNum z, n)
  | JStr s => (VStr s, n)
  | JObj fields =>
      let fix revive_fields (fs : list (string * json)) (n : nat) : props * nat :=
        match fs with
        | [] => ([], n)
        | (k, x) :: r =>
            let '(v, n1) := revive x n in
            let '(vs, n2) := revive_fields r n1 in
            ((k, v) :: vs, n2)
        end in
      let '(ps, n') := revive_fields fields (S n) in
      (VObj n ps, n')
  end.

(** the fields of an object document, revived one after the other *)
Fixpoint revive_fields (fs : list (string * json)) (n : nat) : props * nat :=
  match fs with
  | [] => ([], n)
  | (k, x) :: r =>
      let '(v, n1) := revive x n in
      let '(vs, n2) := revive_fields r n1 in
      ((k, v) :: vs, n2)
  end.

(** the member [k] of an object document *)
Fixpoint member (k : string) (fs : list (string * json)) : option json :=
  match fs with
  | [] => None
  | (k', x) :: r => if String.eqb k' k then Some x else member k r
  end.

Definition json_field (j : json) (k : string) : option json :=
  match j with
  | JObj fs => member k fs
  | _ => None
  end.

(** [JSON.stringify]: properties whose value is [undefined] or a function
    are left out; [None] is the [undefined] it returns for such a value at
    the top. *)
Fixpoint stringify (v : value) : option json :=
  match v with
  | VUndef | VBuiltin _ => None
  | VNull => Some JNull
  | VBool b => Some (JBool b)
  | VNum z => Some (JNum z)
  | VStr s => Some (JStr s)
  | VObj _ ps =>
      let fix stringify_props (ps : props) : list (string * json) :=
        match ps with
        | [] => []
        | (k, x) :: r =>
            match stringify x with
            | Some j => (k, j) :: stringify_props r
            | None => stringify_props r
            end
        end in
      Some (JObj (stringify_props ps))
  end.

(** the properties of an object, stringified one after the other *)
Fixpoint stringify_props (ps : props) : list (string * json) :=
  match ps with
  | [] => []
  | (k, x) :: r =>
      match stringify x with
      | Some j => (k, j) :: stringify_props r
      | None => stringify_props r
      end
  end.

(** The keys that are array indices: the canonical numerals of the numbers
    below 2^32 - 1. *)
Definition array_index (k : string) : option N :=
  match NilEmpty.uint_of_string k with
  | Some u =>
      let n := N.of_uint u in
      if (String.eqb (NilEmpty.string_of_uint (N.to_uint n)) k && (n <? 4294967295)%N)%bool
      then Some n else None
  | None => None
  end.

(** the properties whose key is an array index, in ascending order of the
    index *)
Fixpoint insert_index (n : N) (p : string * value) (l : list (N * (string * value)))
  : list (N * (string * value)) :=
  match l with
  | [] => [(n, p)]
  | (n', p') :: r =>
      if (n <=? n')%N then (n, p) :: (n', p') :: r else (n', p') :: insert_index n p r
  end.

Fixpoint indexed (ps : props) : list (N * (string * value)) :=
  match ps with
  | [] => []
  | (k, x) :: r =>
      match array_index k with
      | Some n => insert_index n (k, x) (indexed r)
      | None => indexed r
      end
  end.

Definition named (ps : props) : props :=
  List.filter (fun p => match array_index (fst p) with Some _ => false | None => true end) ps.

(** The order in which [Object.keys], [Object.values] and [Object.entries]
    visit the own properties: array indices in ascending order, then the
    other keys in the order of their creation. *)
Definition ordered (ps : props) : props := List.map snd (indexed ps) ++ named ps.

(** Mutation of the object of identity [id], whose properties become
    [ps']: every reference to the object inside [v] shows the change. *)
Fixpoint replace (id : nat) (ps' : props) (v : value) : value :=
  match v with
  | VObj i ps =>
      if Nat.eqb i id then VObj id ps'
      else
        let fix replace_props (ps : props) : props :=
          match ps with
          | [] => []
          | (k, x) :: r => (k, replace id ps' x) :: replace_props r
          end in
        VObj i (replace_props ps)
  | _ => v
  end.

(** the same on a list of properties *)
Fixpoint replace_props (id : nat) (ps' : props) (ps : props) : props :=
  match ps with
  | [] => []
  | (k, x) :: r => (k, replace id ps' x) :: replace_props id ps' r
  end.

(** how a value reads in the message of an error *)
Definition display (v : value) : string :=
  match v with
  | VUndef => "undefined"
  | VNull => "null"
  | VBool true => "true"
  | VBool false => "false"
  | VNum n => NilEmpty.string_of_int (Z.to_int n)
  | VStr s => s
  | VBuiltin _ => "function"
  | VObj _ _ => "#<Object>"
  end.

End JS.

(** ** The machine: file system, faults, trace *)

(** What a file holds: a text that [JSON.parse] reads as the document [j],
    or bytes that [JSON.parse] rejects. *)
Inductive content :=
| Text (j : JS.json)
| Opaque (bytes : string).

Inductive node :=
| File (c : content) (mode : Z)
| Dir
| Symlink (target : string).

(** What the environment does to the next file-system call: let it run,
    make it fail with an I/O error, or kill the process during it. *)
Inductive fault := Pass | Fail | Crash.

Inductive fsop :=
| OpReadFile (p : string)
| OpWriteFile (p : string)
| OpAccess (p : string)
| OpCopyFile (src dst : string)
| OpRename (src dst : string)
| OpUnlink (p : string)
| OpMkdir (p : string)
| OpMkdtemp (p : string)
| OpRmdir (p : string)
| OpStat (p : string)
| OpChmod (p : string)
| OpSymlink (target p : string).

Inductive event :=
| EvFs (op : fsop) (succeeded : bool)
| EvSleep (ms : Z)
| EvDownload (url file : string) (succeeded : bool).

(** What the server and the network do to one download: the whole body
    arrives; the request fails before any stream is opened (connection
    error, non-2xx status); or the response stream or the write stream
    breaks after part of the body went to the file. *)
Inductive response :=
| Served (body : string)
| Refused (message : string)
| Broken (partial : string) (message : string).

Record machine := {
  fs : gmap string node;
  faults : list fault;           (* consumed one per file-system call *)
  trace : list event;            (* most recent event first *)
  nextId : nat;                  (* source of object identities *)
  clock : nat;
  network : list response;       (* consumed one per HTTP request *)
  this_registry : JS.value;      (* RegistryManager's [this.registry] *)
}.

Definition with_fs (f : gmap string node) (m : machine) : machine :=
  {| fs := f; faults := faults m; trace := trace m; nextId := nextId m;
     clock := clock m; network := network m; this_registry := this_registry m |}.
Definition with_faults (l : list fault) (m : machine) : machine :=
  {| fs := fs m; faults := l; trace := trace m; nextId := nextId m;
     clock := clock m; network := network m; this_registry := this_registry m |}.
Definition log (e : event) (m : machine) : machine :=
  {| fs := fs m; faults := faults m; trace := e :: trace m; nextId := nextId m;
     clock := clock m; network := network m; this_registry := this_registry m |}.
Definition with_nextId (n : nat) (m : machine) : machine :=
  {| fs := fs m; faults := faults m; trace := trace m; nextId := n;
     clock := clock m; network := network m; this_registry := this_registry m |}.
Definition with_clock (n : nat) (m : machine) : machine :=
  {| fs := fs m; faults := faults m; trace := trace m; nextId := nextId m;
     clock := n; network := network m; this_registry := this_registry m |}.
Definition with_registry (r : JS.value) (m : machine) : machine :=
  {| fs := fs m; faults := faults m; trace := trace m; nextId := nextId m;
     clock := clock m; network := network m; this_registry := r |}.
Definition with_network (l : list response) (m : machine) : machine :=
  {| fs := fs m; faults := faults m; trace := trace m; nextId := nextId m;
     clock := clock m; network := l; this_registry := this_registry m |}.

(** Why a run stops without an exception a [catch] could see: the process
    was killed, or the program left the modelled fragment of JavaScript. *)
Inductive abort := Killed | Unmodelled (what : string).

Inductive outcome (A : Type) :=
| Ok (a : A)
| Throw (message : string)
| Abort (why : abort).
Arguments Ok {A} a.
Arguments Throw {A} message.
Arguments Abort {A} why.

(** A computation: an [async] function body run to completion. *)
Definition M (A : Type) : Type := machine -> outcome A * machine.

Definition ret {A} (a : A) : M A := fun m => (Ok a, m).

Definition bind {A B} (c : M A) (k : A -> M B) : M B :=
  fun m =>
    match c m with
    | (Ok a, m') => k a m'
    | (Throw e, m') => (Throw e, m')
    | (Abort w, m') => (Abort w, m')
    end.

Definition throw {A} (message : string) : M A := fun m => (Throw message, m).

Definition unmodelled {A} (what : string) : M A := fun m => (Abort (Unmodelled what), m).

(** [try { c } catch (error) { handler(error) }] *)
Definition try_catch {A} (c : M A) (handler : string -> M A) : M A :=
  fun m =>
    match c m with
    | (Throw e, m') => handler e m'
    | r => r
    end.

Definition lift {A} (r : string + A) : M A :=
  match r with inl e => throw e | inr a => ret a end.

Declare Scope js_scope.
Delimit Scope js_scope with js.
Notation "'let*' x ':=' c 'in' k" := (bind c (fun x => k))
  (at level 10, x name, c at level 100, k at level 200) : js_scope.
Notation "c ;; k" := (bind c (fun _ => k))
  (at level 100, k at level 200, right associativity) : js_scope.
Open Scope js_scope.

Definition get_registry : M JS.value := fun m => (Ok (this_registry m), m).
Definition set_registry (r : JS.value) : M unit := fun m => (Ok tt, with_registry r m).

(** a fresh object identity *)
Definition fresh : M nat := fun m => (Ok (nextId m), with_nextId (S (nextId m)) m).

(** [new Date().toISOString()]: the reading of the clock, which then moves
    on; the reading is rendered as its decimal numeral. *)
Definition toISOString (t : nat) : string := NilEmpty.string_of_uint (Nat.to_uint t).
Definition now : M string :=
  fun m => (Ok (toISOString (clock m)), with_clock (S (clock m)) m).

(** [JSON.parse(content)] *)
Definition JSON_parse (c : content) : M JS.value :=
  match c with
  | Text j => fun m => let '(v, n) := JS.revive j (nextId m) in (Ok v, with_nextId n m)
  | Opaque _ => throw "SyntaxError: Unexpected token in JSON"
  end.

(** ** File-system calls ([fs.promises]) *)

Module Fs.

(** One call: the environment's fault is consumed, the call is logged;
    [run] is what the call does when the environment lets it, [torn] what a
    kill during the call leaves behind. *)
Definition call {A} (op : fsop)
    (run : gmap string node -> string + (A * gmap string node))
    (torn : gmap string node -> gmap string node) : M A :=
  fun m =>
    let f := match faults m with [] => Pass | f :: _ => f end in
    let m := with_faults (List.tl (faults m)) m in
    match f with
    | Crash => (Abort Killed, log (EvFs op false) (with_fs (torn (fs m)) m))
    | Fail => (Throw "EIO: i/o error", log (EvFs op false) m)
    | Pass =>
        match run (fs m) with
        | inl e => (Throw e, log (EvFs op false) m)
        | inr (a, fs') => (Ok a, log (EvFs op true) (with_fs fs' m))
        end
    end.

Definition enoent (p : string) : string := "ENOENT: no such file or directory, " +:+ p.

(** a file cut short by a kill in the middle of a write *)
Definition truncated : node := File (Opaque "") 420.

Definition readFile (p : string) : M content :=
  call (OpReadFile p)
    (fun fs => match fs !! p with
               | Some (File c _) => inr (c, fs)
               | Some _ => inl "EISDIR: illegal operation on a directory, read"
               | None => inl (enoent p)
               end)
    id.

Definition writeFile (p : string) (c : content) : M unit :=
  call (OpWriteFile p)
    (fun fs => match fs !! p with
               | Some (File _ mode) => inr (tt, <[p := File c mode]> fs)
               | Some _ => inl "EISDIR: illegal operation on a directory, open"
               | None => inr (tt, <[p := File c 420]> fs)
               end)
    (fun fs => match fs !! p with
               | Some (File _ _) | None => <[p := truncated]> fs
               | Some _ => fs
               end).

Definition access (p : string) : M unit :=
  call (OpAccess p)
    (fun fs => match fs !! p with Some _ => inr (tt, fs) | None => inl (enoent p) end)
    id.

Definition copyFile (src dst : string) : M unit :=
  call (OpCopyFile src dst)
    (fun fs => match fs !! src with
               | Some (File c mode) => inr (tt, <[dst := File c mode]> fs)
               | Some _ => inl "EISDIR: illegal operation on a directory, copyfile"
               | None => inl (enoent src)
               end)
    (fun fs => match fs !! src with
               | Some (File _ _) => <[dst := truncated]> fs
               | _ => fs
               end).

(** [rename] is atomic: a kill leaves it undone *)
Definition rename (src dst : string) : M unit :=
  call (OpRename src dst)
    (fun fs => match fs !! src with
               | Some n => inr (tt, <[dst := n]> (delete src fs))
               | None => inl (enoent src)
               end)
    id.

Definition unlink (p : string) : M unit :=
  call (OpUnlink p)
    (fun fs => match fs !! p with
               | Some Dir => inl "EPERM: operation not permitted, unlink"
               | Some _ => inr (tt, delete p fs)
               | None => inl (enoent p)
               end)
    id.

(** [mkdir(p, { recursive: true })] *)
Definition mkdir_p (p : string) : M unit :=
  call (OpMkdir p)
    (fun fs => match fs !! p with
               | Some Dir => inr (tt, fs)
               | Some _ => inl "EEXIST: file already exists, mkdir"
               | None => inr (tt, <[p := Dir]> fs)
               end)
    id.

(** the paths directly or indirectly below directory [d] *)
Definition below (d p : string) : bool := Str.startsWith (d +:+ "/") p.

Definition is_empty_dir (fs : gmap string node) (d : string) : bool :=
  forallb (fun kv => negb (below d (fst kv))) (map_to_list fs).

Definition rmdir (p : string) : M unit :=
  call (OpRmdir p)
    (fun fs => match fs !! p with
               | Some Dir => if is_empty_dir fs p then inr (tt, delete p fs)
                             else inl "ENOTEMPTY: directory not empty, rmdir"
               | Some _ => inl "ENOTDIR: not a directory, rmdir"
               | None => inl (enoent p)
               end)
    id.

(** [mkdtemp(prefix)]: a new directory whose name is the prefix followed by
    characters that make it unique, here the numeral of a fresh counter *)
Definition mkdtemp (prefix : string) : M string :=
  let* n := fresh in
  let p := prefix +:+ toISOString n in
  call (OpMkdtemp p)
    (fun fs => match fs !! p with
               | Some _ => inl "EEXIST: file already exists, mkdtemp"
               | None => inr (p, <[p := Dir]> fs)
               end)
    id.

(** [stat(p)], of which the program reads the mode *)
Definition stat_mode (p : string) : M Z :=
  call (OpStat p)
    (fun fs => match fs !! p with
               | Some (File _ mode) => inr (mode, fs)
               | Some _ => inr (493, fs)
               | None => inl (enoent p)
               end)
    id.

Definition chmod (p : string) (mode : Z) : M unit :=
  call (OpChmod p)
    (fun fs => match fs !! p with
               | Some (File c _) => inr (tt, <[p := File c mode]> fs)
               | Some _ => inr (tt, fs)
               | None => inl (enoent p)
               end)
    id.

(** a directory is there where the disk holds one, or holds something
    below it *)
Definition is_dir (fs : gmap string node) (d : string) : bool :=
  match fs !! d with
  | Some Dir => true
  | Some _ => false
  | None => negb (is_empty_dir fs d)
  end.

(** What [createWriteStream(p)] finds when it opens [p] for writing: an
    existing file is cut to nothing and keeps its mode, a new file gets
    mode 0o644; a directory in the place of the file, or no directory to
    hold it, is the error the stream emits. *)
Definition open_for_writing (fs : gmap string node) (p : string) : string + Z :=
  match fs !! p with
  | Some (File _ mode) => inr mode
  | Some _ => inl "EISDIR: illegal operation on a directory, open"
  | None =>
      if is_dir fs (Path.dirname p) then inr 420
      else inl (enoent p)
  end.

Definition symlink (target p : string) : M unit :=
  call (OpSymlink target p)
    (fun fs => match fs !! p with
               | Some _ => inl "EEXIST: file already exists, symlink"
               | None => inr (tt, <[p := Symlink target]> fs)
               end)
    id.

End Fs.

(** ** Mutation of JavaScript objects *)

(** [o[k] = x]. The classes of gpx are strict-mode code, where creating a
    property on a primitive throws. Assigning to [__proto__] would swap the
    prototype, and properties of built-in functions are not modelled. *)
Definition set_prop (o : JS.value) (k : string) (x : JS.value) : M JS.value :=
  match o with
  | JS.VObj id ps =>
      if String.eqb k "__proto__" then unmodelled "assignment to __proto__"
      else ret (JS.VObj id (JS.assign k x ps))
  | JS.VUndef => throw ("TypeError: Cannot set properties of undefined (setting '" +:+ k +:+ "')")
  | JS.VNull => throw ("TypeError: Cannot set properties of null (setting '" +:+ k +:+ "')")
  | JS.VBuiltin _ => unmodelled "property of a built-in object"
  | _ => throw ("TypeError: Cannot create property '" +:+ k +:+ "' on a primitive")
  end.

(** [delete o[k]] *)
Definition delete_prop (o : JS.value) (k : string) : M JS.value :=
  match o with
  | JS.VObj id ps => ret (JS.VObj id (JS.remove k ps))
  | JS.VUndef | JS.VNull => throw "TypeError: Cannot convert undefined or null to object"
  | _ => unmodelled "delete on a primitive or built-in object"
  end.

(** [s.split('/')] on a value that need not be a string *)
Definition split_value (v : JS.value) : M (list string) :=
  match v with
  | JS.VStr s => ret (Str.split_slash s)
  | JS.VUndef => throw "TypeError: Cannot read properties of undefined (reading 'split')"
  | JS.VNull => throw "TypeError: Cannot read properties of null (reading 'split')"
  | _ => throw "TypeError: split is not a function"
  end.

(** [const [, repoName] = parts]: the second element, if there is one *)
Definition second (parts : list string) : option string := List.nth_error parts 1.

(** [JSON.stringify(v, null, 2)] handed to [writeFile], which rejects
    [undefined] *)
Definition JSON_stringify (v : JS.value) : M content :=
  match JS.stringify v with
  | Some j => ret (Text j)
  | None => throw "TypeError [ERR_INVALID_ARG_TYPE]: The data argument must be of type string"
  end.

(** [Object.entries(o)]; [Object.values(o)] is its second projection. A
    number or a boolean has no own property. *)
Definition Object_entries (o : JS.value) : M JS.props :=
  match o with
  | JS.VObj _ ps => ret (JS.ordered ps)
  | JS.VUndef | JS.VNull => throw "TypeError: Cannot convert undefined or null to object"
  | JS.VNum _ | JS.VBool _ => ret []
  | JS.VStr _ => unmodelled "the characters of a string as its properties"
  | JS.VBuiltin _ => unmodelled "property of a built-in object"
  end.

Definition Object_values (o : JS.value) : M (list JS.value) :=
  let* entries := Object_entries o in
  ret (List.map snd entries).

(** [k in o] *)
Definition has_property (k : string) (o : JS.value) : M bool :=
  match o with
  | JS.VObj _ ps =>
      ret (match JS.own k ps with Some _ => true | None => JS.inherited k end)
  | JS.VBuiltin _ => unmodelled "property of a built-in object"
  | _ => throw ("TypeError: Cannot use 'in' operator to search for '" +:+ k +:+ "' in "
                +:+ JS.display o)
  end.

(** [map.set(key, x)] on a [Map], and [set.add(key)] on a [Set]: keys are
    compared as [===] compares them, and keep the place of their first
    insertion *)
Fixpoint map_set (key x : JS.value) (map : list (JS.value * JS.value))
  : list (JS.value * JS.value) :=
  match map with
  | [] => [(key, x)]
  | (key', x') :: r =>
      if JS.strict_eq key' key then (key', x) :: r else (key', x') :: map_set key x r
  end.

Fixpoint value_set_add (key : JS.value) (set : list JS.value) : list JS.value :=
  match set with
  | [] => [key]
  | key' :: r => if JS.strict_eq key' key then set else key' :: value_set_add key r
  end.

(** ** registry.ts: RegistryManager *)

Module RegistryManager.

(** the registry path the constructor computes from its optional argument
    and [os.homedir()]: an argument that is left out or empty gives the
    default directory *)
Definition constructor (homedir : string) (cacheDir : option string) : string :=
  let baseCacheDir :=
    match cacheDir with
    | Some d => if Str.nonempty d then d else Path.join [homedir; ".cache"; "gpx"]
    | None => Path.join [homedir; ".cache"; "gpx"]
    end in
  Path.join [baseCacheDir; "registry.json"].

Section Manager.
(** [this.registryPath], fixed by the constructor *)
Variable registryPath : string.

Definition backupPath : string := registryPath +:+ ".backup".
Definition tempPath : string := registryPath +:+ ".tmp".
Definition oldBackupPath : string := registryPath +:+ ".backup.old".

(** the value of [o.k] where [o] is known to be neither [null] nor
    [undefined] *)
Definition field (o : JS.value) (k : string) : JS.value :=
  match JS.get o k with inr v => v | inl _ => JS.VUndef end.

Definition isValidRegistry (registry : JS.value) : bool :=
  (JS.truthy registry
   && String.eqb (JS.typeof registry) "object"
   && String.eqb (JS.typeof (field registry "version")) "string"
   && String.eqb (JS.typeof (field registry "entries")) "object"
   && String.eqb (JS.typeof (field registry "lastUpdated")) "string")%bool.

Definition createEmptyRegistry : M JS.value :=
  let* entriesId := fresh in
  let* t := now in
  let* id := fresh in
  ret (JS.VObj id [("version", JS.VStr "1.0");
                   ("entries", JS.VObj entriesId []);
                   ("lastUpdated", JS.VStr t)]).

(** assignment through [this.registry]: the object is updated in place *)
Definition set_registry_prop (k : string) (x : JS.value) : M unit :=
  let* registry := get_registry in
  let* registry := set_prop registry k x in
  set_registry registry.

Definition save : M unit :=
  let* registry := get_registry in
  if negb (JS.truthy registry) then ret tt
  else
    let* t := now in
    set_registry_prop "lastUpdated" (JS.VStr t) ;;
    let registryDir := Path.dirname registryPath in
    Fs.mkdir_p registryDir ;;
    try_catch
      (try_catch
         (Fs.access registryPath ;;
          Fs.copyFile registryPath backupPath)
         (fun _ => ret tt) ;;
       let* registry := get_registry in
       let* text := JSON_stringify registry in
       Fs.writeFile tempPath text ;;
       let* tempContent := Fs.readFile tempPath in
       JSON_parse tempContent ;;
       Fs.rename tempPath registryPath ;;
       try_catch
         (Fs.access oldBackupPath ;;
          Fs.unlink oldBackupPath)
         (fun _ => ret tt))
      (fun error =>
         try_catch (Fs.unlink tempPath) (fun _ => ret tt) ;;
         throw ("Failed to save registry: " +:+ error)).

Definition load : M JS.value :=
  let* registry := get_registry in
  if JS.truthy registry then ret registry
  else
    try_catch
      (let* content := Fs.readFile registryPath in
       let* parsed := JSON_parse content in
       set_registry parsed ;;
       if negb (isValidRegistry parsed) then throw "Invalid registry format"
       else get_registry)
      (fun error =>
         let* restored :=
           try_catch
             (let* backupContent := Fs.readFile backupPath in
              let* backupRegistry := JSON_parse backupContent in
              if isValidRegistry backupRegistry then
                set_registry backupRegistry ;;
                save ;;
                let* registry := get_registry in
                ret (Some registry)
              else ret None)
             (fun _ => ret None) in
         match restored with
         | Some registry => ret registry
         | None =>
             let* empty := createEmptyRegistry in
             set_registry empty ;;
             save ;;
             get_registry
         end).

(** [registry.entries[k]], [registry.entries[k] = x] and
    [delete registry.entries[k]], where [registry] is the object [load]
    returned, which is [this.registry] *)
Definition get_entry (k : string) : M JS.value :=
  let* registry := get_registry in
  let* entries := lift (JS.get registry "entries") in
  lift (JS.get entries k).

Definition set_entry (k : string) (x : JS.value) : M unit :=
  let* registry := get_registry in
  let* entries := lift (JS.get registry "entries") in
  let* entries := set_prop entries k x in
  set_registry (match registry with
                | JS.VObj id ps => JS.VObj id (JS.assign "entries" entries ps)
                | _ => registry
                end).

Definition delete_entry (k : string) : M unit :=
  let* registry := get_registry in
  let* entries := lift (JS.get registry "entries") in
  let* entries := delete_prop entries k in
  set_registry (match registry with
                | JS.VObj id ps => JS.VObj id (JS.assign "entries" entries ps)
                | _ => registry
                end).

Definition addEntry (binaryName repo version : string) (platform : JS.value) : M unit :=
  load ;;
  let* installDate := now in
  let* lastUsed := now in
  let* id := fresh in
  let entry :=
    JS.VObj id [("repo", JS.VStr repo);
                ("binaryName", JS.VStr binaryName);
                ("version", JS.VStr version);
                ("installDate", JS.VStr installDate);
                ("lastUsed", JS.VStr lastUsed);
                ("platform", platform)] in
  set_entry binaryName entry ;;
  (match second (Str.split_slash repo) with
   | Some repoName =>
       if (Str.nonempty repoName && negb (String.eqb repoName binaryName))%bool
       then set_entry repoName entry
       else ret tt
   | None => ret tt
   end) ;;
  save.

Definition getEntry (binaryName : string) : M JS.value :=
  load ;;
  let* entry := get_entry binaryName in
  ret (if JS.truthy entry then entry else JS.VNull).

Definition removeEntry (binaryName : string) : M bool :=
  load ;;
  let* entry := get_entry binaryName in
  if negb (JS.truthy entry) then ret false
  else
    delete_entry binaryName ;;
    let* repo := lift (JS.get entry "repo") in
    let* parts := split_value repo in
    (match second parts with
     | Some repoName =>
         if (Str.nonempty repoName && negb (String.eqb repoName binaryName))%bool
         then
           let* aliased := get_entry repoName in
           if JS.strict_eq aliased entry then delete_entry repoName else ret tt
         else ret tt
     | None => ret tt
     end) ;;
    save ;;
    ret true.

Definition clearCache : M unit := set_registry JS.VNull.

(** assignment to a property of an object reached through the registry:
    the object is updated in place, so every reference to it inside
    [this.registry] shows the change *)
Definition mutate (o : JS.value) (k : string) (x : JS.value) : M unit :=
  let* o' := set_prop o k x in
  let* registry := get_registry in
  set_registry (match o' with
                | JS.VObj id ps => JS.replace id ps registry
                | _ => registry
                end).

Definition updateLastUsed (binaryName : string) : M unit :=
  load ;;
  let* entry := get_entry binaryName in
  if JS.truthy entry then
    let* lastUsed := now in
    mutate entry "lastUsed" (JS.VStr lastUsed) ;;
    save
  else ret tt.

(** [Object.values(registry.entries)] *)
Definition entry_values : M (list JS.value) :=
  let* registry := get_registry in
  let* entries := lift (JS.get registry "entries") in
  Object_values entries.

(** the [for (const entry of ...)] loop of [listEntries] *)
Fixpoint collect_unique (values : list JS.value) (uniqueEntries : list (JS.value * JS.value))
  : M (list (JS.value * JS.value)) :=
  match values with
  | [] => ret uniqueEntries
  | entry :: rest =>
      let* repo := lift (JS.get entry "repo") in
      collect_unique rest (map_set repo entry uniqueEntries)
  end.

Definition listEntries : M (list JS.value) :=
  load ;;
  let* values := entry_values in
  let* uniqueEntries := collect_unique values [] in
  ret (List.map snd uniqueEntries).

Definition hasEntry (binaryName : string) : M bool :=
  load ;;
  let* registry := get_registry in
  let* entries := lift (JS.get registry "entries") in
  has_property binaryName entries.

(** [values.filter(entry => entry.repo === repo)] *)
Fixpoint filter_repo (repo : string) (values : list JS.value) : M (list JS.value) :=
  match values with
  | [] => ret []
  | entry :: rest =>
      let* r := lift (JS.get entry "repo") in
      let* kept := filter_repo repo rest in
      ret (if JS.strict_eq r (JS.VStr repo) then entry :: kept else kept)
  end.

Definition findByRepo (repo : string) : M (list JS.value) :=
  load ;;
  let* values := entry_values in
  filter_repo repo values.

(** [values.map(e => e.repo)] *)
Fixpoint map_repo (values : list JS.value) : M (list JS.value) :=
  match values with
  | [] => ret []
  | entry :: rest =>
      let* r := lift (JS.get entry "repo") in
      let* repos := map_repo rest in
      ret (r :: repos)
  end.

(** [getStats()]: [totalEntries] and [lastUpdated] *)
Definition getStats : M (nat * JS.value) :=
  load ;;
  let* values := entry_values in
  let* repos := map_repo values in
  let uniqueRepos := List.fold_left (fun set r => value_set_add r set) repos [] in
  let* registry := get_registry in
  let* lastUpdated := lift (JS.get registry "lastUpdated") in
  ret (length uniqueRepos, lastUpdated).

Definition restoreFromBackup : M bool :=
  try_catch
    (let* backupContent := Fs.readFile backupPath in
     let* backupRegistry := JSON_parse backupContent in
     if isValidRegistry backupRegistry then
       set_registry backupRegistry ;;
       save ;;
       ret true
     else ret false)
    (fun _ => ret false).




End Manager.

End RegistryManager.

(** The registry path names a file inside its directory: the directory is
    none of the files [save] works on. *)
Definition proper_path (registryPath : string) : bool :=
  let dir := Path.dirname registryPath in
  (negb (String.eqb dir registryPath)
   && negb (String.eqb dir (RegistryManager.tempPath registryPath))
   && negb (String.eqb dir (RegistryManager.backupPath registryPath))
   && negb (String.eqb dir (RegistryManager.oldBackupPath registryPath)))%bool.

(** ** What [save] promises *)

Section SaveContract.
Variable registryPath : string.

Let dir := Path.dirname registryPath.
Let tmp := RegistryManager.tempPath registryPath.
Let bak := RegistryManager.backupPath registryPath.

(** the registry object once [save] has stamped it with the time *)
Definition stamped (id : nat) (ps : JS.props) (m : machine) : JS.value :=
  JS.VObj id (JS.assign "lastUpdated" (JS.VStr (toISOString (clock m))) ps).

(** The outcome [r] and final machine [m'] of a [save] started in [m],
    where [reg] is the stamped registry object and [doc] its document:
    - the object in memory is the stamped one;
    - if [save] returns, [registry.json] holds [doc], and the temporary
      file was written, read back and renamed, in this order, after the
      backup and before the clean-up;
    - if [save] throws, [registry.json] is as before, and either creating
      the directory failed or the last thing done was the attempt to
      unlink the temporary file, which is gone if the attempt succeeded;
    - if the process is killed, [registry.json] is as before or holds
      [doc];
    - the backup is as before, or a copy of the former [registry.json],
      or cut short by the kill. *)
Definition save_post (m : machine) (reg : JS.value) (doc : JS.json)
    (r : outcome unit) (m' : machine) : Prop :=
  this_registry m' = reg
  /\ match r with
     | Ok _ =>
         (exists mode, fs m' !! registryPath = Some (File (Text doc) mode))
         /\ exists cleanup backup,
              trace m' = cleanup
                           ++ [EvFs (OpRename tmp registryPath) true;
                               EvFs (OpReadFile tmp) true;
                               EvFs (OpWriteFile tmp) true]
                           ++ backup ++ [EvFs (OpMkdir dir) true] ++ trace m
     | Throw e =>
         fs m' !! registryPath = fs m !! registryPath
         /\ ((fs m' = fs m /\ trace m' = EvFs (OpMkdir dir) false :: trace m)
             \/ exists removed rest,
                  trace m' = EvFs (OpUnlink tmp) removed :: rest
                  /\ (removed = true -> fs m' !! tmp = None))
     | Abort w =>
         w = Killed
         /\ (fs m' !! registryPath = fs m !! registryPath
             \/ exists mode, fs m' !! registryPath = Some (File (Text doc) mode))
     end
  /\ (fs m' !! bak = fs m !! bak
      \/ (exists c mode, fs m !! registryPath = Some (File c mode)
                         /\ fs m' !! bak = Some (File c mode))
      \/ (r = Abort Killed /\ fs m' !! bak = Some Fs.truncated)).


End SaveContract.

(** the value stored under [k] in the entries of the registry in memory *)
Definition entry_at (m : machine) (k : string) : option JS.value :=
  match this_registry m with
  | JS.VObj _ rps =>
      match JS.own "entries" rps with
      | Some (JS.VObj _ eps) => JS.own k eps
      | _ => None
      end
  | _ => None
  end.






(** ** What [load] does *)

Section LoadContract.
Variable registryPath : string.

Let bak := RegistryManager.backupPath registryPath.




End LoadContract.

(** [k] is the alias key that [removeEntry(name)] looks at for an entry of
    repository [repo]: the second component of [repo], when it is not empty
    and differs from [name] *)
Definition alias_key (repo name k : string) : bool :=
  match second (Str.split_slash repo) with
  | Some repoName =>
      (Str.nonempty repoName && negb (String.eqb repoName name)
       && String.eqb repoName k)%bool
  | None => false
  end.

(** the value is the object of identity [id] *)
Definition same_object (v : option JS.value) (id : nat) : bool :=
  match v with
  | Some (JS.VObj id' _) => Nat.eqb id' id
  | _ => false
  end.

(** the entry object [addEntry] builds when called on machine [m] *)
Definition new_entry (m : machine) (binaryName repo version : string)
    (platform : JS.value) : JS.value :=
  JS.VObj (nextId m)
    [("repo", JS.VStr repo);
     ("binaryName", JS.VStr binaryName);
     ("version", JS.VStr version);
     ("installDate", JS.VStr (toISOString (clock m)));
     ("lastUsed", JS.VStr (toISOString (S (clock m))));
     ("platform", platform)].

(** a key under which [addEntry(binaryName, repo, ...)] stores its entry *)
Definition stored_under (binaryName repo k : string) : bool :=
  (String.eqb binaryName k || alias_key repo binaryName k)%bool.

(** ** cache.ts: CacheManager *)

Module CacheManager.

Section Manager.
(** [this.cacheDir], and whether [process.platform] is [win32] *)
Variable cacheDir : string.
Variable win32 : bool.

(** [getCachePath] as called by the [async] methods: the [TypeError] of
    [path.join] rejects their promise *)
Definition cachePathOf (repo version : string) (platform : Platform) : M string :=
  match CachePure.getCachePath cacheDir repo version platform with
  | Some p => ret p
  | None => throw "TypeError [ERR_INVALID_ARG_TYPE]: The path argument must be of type string"
  end.

Definition getMetadata (repo version : string) (platform : Platform) : M JS.value :=
  let* cachePath := cachePathOf repo version platform in
  let metadataPath := Path.join [cachePath; "metadata.json"] in
  try_catch
    (let* content := Fs.readFile metadataPath in
     JSON_parse content)
    (fun _ => ret JS.VNull).

(** [fs.access(v)] on a value that need not be a string *)
Definition access_value (v : JS.value) : M unit :=
  match v with
  | JS.VStr p => Fs.access p
  | _ => throw "TypeError [ERR_INVALID_ARG_TYPE]: The path argument must be of type string"
  end.

Definition isCached (repo version : string) (platform : Platform) : M bool :=
  let* cachePath := cachePathOf repo version platform in
  let metadataPath := Path.join [cachePath; "metadata.json"] in
  try_catch
    (Fs.access metadataPath ;;
     let* metadata := getMetadata repo version platform in
     if JS.truthy metadata then
       let* binaryPath := lift (JS.get metadata "binaryPath") in
       access_value binaryPath ;;
       ret true
     else ret false)
    (fun _ => ret false).

Definition saveMetadata (cachePath : string) (metadata : JS.value) : M unit :=
  let metadataPath := Path.join [cachePath; "metadata.json"] in
  let* text := JSON_stringify metadata in
  Fs.writeFile metadataPath text.

Definition updateLatestSymlink (repo version : string) (platform : Platform) : M unit :=
  match Str.split_slash repo with
  | owner :: repoName :: _ =>
      let repoPath := Path.join [cacheDir; owner; repoName] in
      let latestPath := Path.join [repoPath; "latest"] in
      let targetPath := Path.join [version; CachePure.platformKey platform] in
      try_catch (Fs.unlink latestPath) (fun _ => ret tt) ;;
      try_catch (Fs.symlink targetPath latestPath) (fun _ => ret tt)
  | _ => throw "TypeError [ERR_INVALID_ARG_TYPE]: The path argument must be of type string"
  end.

Definition platform_value (id : nat) (platform : Platform) : JS.value :=
  JS.VObj id [("os", JS.VStr (os platform)); ("arch", JS.VStr (arch platform))].

(** [checksum] is [None] when the optional argument is left out *)
Definition cacheBinary (repo version : string) (platform : Platform)
    (binaryPath originalFilename : string) (checksum : option string) : M string :=
  let* cachePath := cachePathOf repo version platform in
  Fs.mkdir_p cachePath ;;
  match second (Str.split_slash repo) with
  | None => throw "TypeError: Cannot read properties of undefined (reading 'toLowerCase')"
  | Some repoName =>
      let ext := if win32 then ".exe" else "" in
      let binaryName := CachePure.guessBinaryName originalFilename repoName +:+ ext in
      let cachedBinaryPath := Path.join [cachePath; binaryName] in
      Fs.copyFile binaryPath cachedBinaryPath ;;
      (if negb win32 then
         let* mode := Fs.stat_mode cachedBinaryPath in
         Fs.chmod cachedBinaryPath (Z.lor mode 493)
       else ret tt) ;;
      let* installDate := now in
      let* platformId := fresh in
      let* id := fresh in
      let metadata :=
        JS.VObj id [("repo", JS.VStr repo);
                    ("version", JS.VStr version);
                    ("platform", platform_value platformId platform);
                    ("binaryPath", JS.VStr cachedBinaryPath);
                    ("installDate", JS.VStr installDate);
                    ("checksum", match checksum with
                                 | Some c => JS.VStr c
                                 | None => JS.VUndef
                                 end)] in
      saveMetadata cachePath metadata ;;
      updateLatestSymlink repo version platform ;;
      ret cachedBinaryPath
  end.

(** [entry.usageCount++]: the count is read and converted to a number,
    and the number plus one is stored. Storing into a primitive throws.
    A count that converts to no integer, or to one beyond the integers a
    double holds exactly (2^53), is outside the model. *)
Definition increment_usageCount (entry : JS.value) : M JS.value :=
  match entry with
  | JS.VObj _ _ =>
      let* count := lift (JS.get entry "usageCount") in
      match count with
      | JS.VNum n =>
          if Z.abs n <? 9007199254740992
          then set_prop entry "usageCount" (JS.VNum (n + 1))
          else unmodelled "a usage count beyond the safe integers"
      | JS.VNull => set_prop entry "usageCount" (JS.VNum 1)
      | JS.VBool b => set_prop entry "usageCount" (JS.VNum (if b then 2 else 1))
      | _ => unmodelled "a usage count that is not a number"
      end
  | JS.VUndef | JS.VNull =>
      let* count := lift (JS.get entry "usageCount") in
      ret entry
  | _ => set_prop entry "usageCount" JS.VUndef
  end.

(** [null] is [None]: the early [return] of [updateLastUsed] *)
Definition updateLastUsed (repo version : string) (platform : Platform) : M unit :=
  let* cachePath := cachePathOf repo version platform in
  let cacheEntryPath := Path.join [cachePath; "cache-entry.json"] in
  let* entry :=
    try_catch
      (let* content := Fs.readFile cacheEntryPath in
       let* entry := JSON_parse content in
       let* entry := increment_usageCount entry in
       ret (Some entry))
      (fun _ =>
         let* metadata := getMetadata repo version platform in
         if negb (JS.truthy metadata) then ret None
         else
           let* lastUsed := now in
           let* id := fresh in
           ret (Some (JS.VObj id [("metadata", metadata);
                                  ("lastUsed", JS.VStr lastUsed);
                                  ("usageCount", JS.VNum 1)]))) in
  match entry with
  | None => ret tt
  | Some entry =>
      let* lastUsed := now in
      let* entry := set_prop entry "lastUsed" (JS.VStr lastUsed) in
      let* text := JSON_stringify entry in
      Fs.writeFile cacheEntryPath text
  end.

(** [getCachedBinary]: the path of the binary, or [null] *)
Definition getCachedBinary (repo version : string) (platform : Platform) : M JS.value :=
  let* metadata := getMetadata repo version platform in
  if negb (JS.truthy metadata) then ret JS.VNull
  else
    try_catch
      (let* binaryPath := lift (JS.get metadata "binaryPath") in
       access_value binaryPath ;;
       updateLastUsed repo version platform ;;
       ret binaryPath)
      (fun _ => ret JS.VNull).

End Manager.

End CacheManager.

(** ** downloader.ts: Downloader *)

Module Downloader.

(** [setTimeout]-based [sleep(ms)] *)
Definition sleep (ms : Z) : M unit := fun m => (Ok tt, log (EvSleep ms) m).

(** [downloadWithProgress(url, filePath)]: one HTTP request whose body is
    piped into a write stream on [filePath]. The request is awaited first:
    where it fails, no stream is opened. The stream then opens the file; an
    error of either stream rejects. *)
Definition downloadWithProgress (url filePath : string) : M unit :=
  fun m =>
    let r := match network m with [] => Refused "ECONNREFUSED" | r :: _ => r end in
    let m := with_network (List.tl (network m)) m in
    match r with
    | Refused e => (Throw e, log (EvDownload url filePath false) m)
    | Served body =>
        match Fs.open_for_writing (fs m) filePath with
        | inl e => (Throw e, log (EvDownload url filePath false) m)
        | inr mode =>
            (Ok tt, log (EvDownload url filePath true)
                      (with_fs (<[filePath := File (Opaque body) mode]> (fs m)) m))
        end
    | Broken partial e =>
        match Fs.open_for_writing (fs m) filePath with
        | inl e' => (Throw e', log (EvDownload url filePath false) m)
        | inr mode =>
            (Throw e, log (EvDownload url filePath false)
                        (with_fs (<[filePath := File (Opaque partial) mode]> (fs m)) m))
        end
    end.

(** [downloader.ts] holds the class twice, at lines 16-290 and 302-610; the
    two copies differ in the options of [extractTarGz] (and in
    [findExecutables]). *)
Inductive copy := First | Second.

(** the options [extractTarGz] hands to [tar.extract]: the first copy asks
    for the top-level directory to be removed, the second does not *)
Record tar_options := {
  file : string;
  cwd : string;
  strip : option Z;
}.

Section Extractors.
(** The [tar] and [yauzl] packages are not code of gpx, and what they do
    to an archive is left open: [tar.extract(options)] is any computation
    that returns, raises or is killed. [yauzl.open(archivePath,
    { lazyEntries: true }, callback)] hands the callback an error, here a
    [Throw], or a zipfile, which may be missing. The handlers that
    [extractZip] then installs on the zipfile (lines 153-196) are driven
    by the events of [yauzl] and of Node's streams: they unpack the
    entries one by one into [destDir], and the promise is settled by the
    first of them that rejects, or by the end of the entries. When that
    is, and what is on disk by then, is decided by those events, and so
    is left open as well. *)
Variable tar_extract : tar_options -> M unit.
Context {zipfile : Type}.
Variable yauzl_open : string -> M (option zipfile).
Variable read_entries : zipfile -> string -> M unit.

Definition extractTarGz (c : copy) (archivePath destDir : string) : M unit :=
  tar_extract {| file := archivePath; cwd := destDir;
                 strip := match c with First => Some 1 | Second => None end |}.

Definition extractZip (archivePath destDir : string) : M unit :=
  let* zipfile := yauzl_open archivePath in
  match zipfile with
  | None => throw "Failed to open zip file"
  | Some zipfile => read_entries zipfile destDir
  end.

Definition extractArchive (c : copy) (archivePath destDir : string) : M unit :=
  Fs.mkdir_p destDir ;;
  match archiveFormat archivePath with
  | TarGz => extractTarGz c archivePath destDir
  | Zip => extractZip archivePath destDir
  | Unsupported ext => throw ("Unsupported archive format: " +:+ ext)
  end.

End Extractors.

(** [makeExecutable(filePath)], given whether [process.platform] is
    [win32]; 493 is [parseInt('755', 8)] *)
Definition makeExecutable (win32 : bool) (filePath : string) : M unit :=
  if negb win32 then
    let* mode := Fs.stat_mode filePath in
    Fs.chmod filePath (Z.lor mode 493)
  else ret tt.

(** [cleanup(filePaths)] *)
Fixpoint cleanup (filePaths : list string) : M unit :=
  match filePaths with
  | [] => ret tt
  | filePath :: rest =>
      try_catch
        (Fs.unlink filePath ;;
         let parentDir := Path.dirname filePath in
         try_catch (Fs.rmdir parentDir) (fun _ => ret tt))
        (fun _ => ret tt) ;;
      cleanup rest
  end.

Section Downloader.
(** [this.retries], and [os.tmpdir()] *)
Variable retries : Z.
Variable tmpdir : string.

(** The [while (attempt < this.retries)] loop of [downloadAsset]. Each
    iteration either returns, throws or raises [attempt] by one, so
    [fuel] bounds the iterations that remain. *)
Fixpoint download_loop (fuel : nat) (url tempDir tempFile : string) (attempt : Z)
  : M string :=
  if attempt <? retries then
    match fuel with
    | O => unmodelled "download_loop: out of fuel"
    | S fuel =>
        try_catch
          (downloadWithProgress url tempFile ;;
           ret tempFile)
          (fun error =>
             let attempt := attempt + 1 in
             if retries <=? attempt then
               try_catch
                 (Fs.unlink tempFile ;;
                  Fs.rmdir tempDir)
                 (fun _ => ret tt) ;;
               throw error
             else
               sleep (2 ^ attempt * 1000) ;;
               download_loop fuel url tempDir tempFile attempt)
    end
  else throw "Download failed after all retries".

Definition downloadAsset (asset : GitHubAsset) : M string :=
  let* tempDir := Fs.mkdtemp (Path.join [tmpdir; "gpx-"]) in
  let tempFile := Path.join [tempDir; name asset] in
  download_loop (Z.to_nat retries) (browser_download_url asset) tempDir tempFile 0.

End Downloader.

End Downloader.

(** ** github.ts: GitHubClient.parseRepo *)

Module GitHubClient.

(** the character class [[a-zA-Z0-9_.-]] *)
Definition valid_char (c : ascii) : bool :=
  let n := nat_of_ascii c in
  (((97 <=? n)%nat && (n <=? 122)%nat) || ((65 <=? n)%nat && (n <=? 90)%nat)
   || ((48 <=? n)%nat && (n <=? 57)%nat)
   || Ascii.eqb c "_" || Ascii.eqb c "." || Ascii.eqb c "-")%bool.

Fixpoint all_valid (s : string) : bool :=
  match s with
  | EmptyString => true
  | String c t => (valid_char c && all_valid t)%bool
  end.

(** [/^[a-zA-Z0-9_.-]+$/.test(s)] *)
Definition validPattern_test (s : string) : bool := (Str.nonempty s && all_valid s)%bool.

(** [parseRepo(repoString)]: [inl] is the message of the [Error] thrown *)
Definition parseRepo (repoString : string) : string + (string * string) :=
  let parts := Str.split_slash repoString in
  match parts with
  | [owner; repo] =>
      if (negb (Str.nonempty owner) || negb (Str.nonempty repo))%bool
      then inl ("Repository must be in format " +:+ Str.quoted "owner/repo")
      else if (negb (validPattern_test owner) || negb (validPattern_test repo))%bool
      then inl "Invalid repository format. Use alphanumeric characters, hyphens, underscores, and dots only."
      else inr (owner, repo)
  | _ => inl ("Repository must be in format " +:+ Str.quoted "owner/repo")
  end.

End GitHubClient.

(** ** runner.ts: GPXRunner.chooseBestExecutable *)

Module GPXRunner.

(** the extensions the third loop skips: man pages, shell scripts,
    TypeScript sources and markdown *)
Definition skipped_ext (ext : string) : bool :=
  existsb (String.eqb ext) [".1"; ".bash"; ".fish"; ".zsh"; ".elv"; ".nu"; ".ts"; ".md"].

Section Choice.
Variable repoName : string.

(** [path.basename(exe, path.extname(exe))] *)
Definition baseName (exe : string) : string :=
  Path.basename_suffix exe (Path.extname exe).

Definition same_name (exe : string) : bool :=
  String.eqb (Str.toLowerCase (baseName exe)) (Str.toLowerCase repoName).

(** the tests of the four loops, each of which returns the first
    executable that passes *)
Definition exact_match (exe : string) : bool :=
  (same_name exe && String.eqb (Path.extname exe) ""
   && negb (Str.startsWith "_" (baseName exe)))%bool.

Definition plain_match (exe : string) : bool :=
  (same_name exe && String.eqb (Path.extname exe) "")%bool.

Definition binary_match (exe : string) : bool :=
  if skipped_ext (Path.extname exe) then false else same_name exe.

Definition in_bin (exe : string) : bool :=
  (Str.includes "/bin/" exe || Str.includes "\bin\" exe)%bool.

(** [None] is the [undefined] that [executables[0]] is for the empty
    array *)
Definition chooseBestExecutable (executables : list string) : option string :=
  match executables with
  | [only] => Some only
  | _ =>
      match List.find exact_match executables with
      | Some exe => Some exe
      | None =>
          match List.find plain_match executables with
          | Some exe => Some exe
          | None =>
              match List.find binary_match executables with
              | Some exe => Some exe
              | None =>
                  match List.find in_bin executables with
                  | Some exe => Some exe
                  | None => List.head executables
                  end
              end
          end
      end
  end.

End Choice.

End GPXRunner.

(** ** executor.ts: BinaryExecutor.ensureExecutable *)

Module BinaryExecutor.

(** [ensureExecutable(binaryPath)], given whether [process.platform] is
    [win32]; 73 is [parseInt('111', 8)] and 493 is [parseInt('755', 8)].
    The message of the error raised is built from [`${error}`], which for
    an [Error] of the file system is its message after [Error: ]. *)
Definition ensureExecutable (win32 : bool) (binaryPath : string) : M unit :=
  if win32 then ret tt
  else
    try_catch
      (let* mode := Fs.stat_mode binaryPath in
       let hasExecutePermission := negb (Z.land mode 73 =? 0) in
       if negb hasExecutePermission then Fs.chmod binaryPath (Z.lor mode 493)
       else ret tt)
      (fun error => throw ("Failed to set execute permissions: Error: " +:+ error)).

End BinaryExecutor.

(** ** Vocabulary of the proofs *)

(** a computation that leaves the disk as it found it *)
Definition read_only {A} (c : M A) : Prop :=
  forall m, fs (snd (c m)) = fs m.

(** a computation that leaves some aspect [f] of the machine alone and does
    not leave the model *)
Definition preserves {A X} (f : machine -> X) (c : M A) : Prop :=
  forall m, f (snd (c m)) = f m
            /\ forall w, fst (c m) = Abort w -> w = Killed.

(** [wp c m Q]: run from [m], [c] ends in an outcome and a machine that
    satisfy [Q] *)
Definition wp {A} (c : M A) (m : machine) (Q : outcome A -> machine -> Prop) : Prop :=
  Q (fst (c m)) (snd (c m)).

(** what a file-system call leaves alone *)
Definition same_memory (m m1 : machine) : Prop :=
  this_registry m1 = this_registry m /\ nextId m1 = nextId m
  /\ clock m1 = clock m /\ network m1 = network m.

(** [save] once the registry object is stamped: from [mkdir] on *)
Definition save_from_mkdir (registryPath : string) : M unit :=
  Fs.mkdir_p (Path.dirname registryPath) ;;
  try_catch
    (try_catch
       (Fs.access registryPath ;;
        Fs.copyFile registryPath (RegistryManager.backupPath registryPath))
       (fun _ => ret tt) ;;
     let* registry := get_registry in
     let* text := JSON_stringify registry in
     Fs.writeFile (RegistryManager.tempPath registryPath) text ;;
     let* tempContent := Fs.readFile (RegistryManager.tempPath registryPath) in
     JSON_parse tempContent ;;
     Fs.rename (RegistryManager.tempPath registryPath) registryPath ;;
     try_catch
       (Fs.access (RegistryManager.oldBackupPath registryPath) ;;
        Fs.unlink (RegistryManager.oldBackupPath registryPath))
       (fun _ => ret tt))
    (fun error =>
       try_catch (Fs.unlink (RegistryManager.tempPath registryPath)) (fun _ => ret tt) ;;
       throw ("Failed to save registry: " +:+ error)).


(** a machine whose registry object has an entries object *)
Definition loaded (m : machine) (rid : nat) (rps : JS.props) (eid : nat)
    (eps : JS.props) : Prop :=
  this_registry m = JS.VObj rid rps /\ JS.own "entries" rps = Some (JS.VObj eid eps).

(** the registry object with its entries object updated in place *)
Definition with_entries (m : machine) (rid : nat) (rps : JS.props) (eid : nat)
    (eps : JS.props) : machine :=
  with_registry (JS.VObj rid (JS.assign "entries" (JS.VObj eid eps) rps)) m.

(** [registry.entries[k]] *)
Definition read (eps : JS.props) (k : string) : JS.value :=
  match JS.own k eps with
  | Some x => x
  | None => if JS.inherited k then JS.VBuiltin k else JS.VUndef
  end.

(** the entries [removeEntry(name)] leaves, for an entry of identity [id]
    and repository [repo] *)
Definition entries_after_remove (eps : JS.props) (name repo : string) (id : nat)
  : JS.props :=
  match second (Str.split_slash repo) with
  | Some repoName =>
      if (alias_key repo name repoName
          && same_object (JS.own repoName (JS.remove name eps)) id)%bool
      then JS.remove repoName (JS.remove name eps)
      else JS.remove name eps
  | None => JS.remove name eps
  end.

(** the entries [addEntry] leaves *)
Definition entries_after_add (eps : JS.props) (binaryName repo : string)
    (entry : JS.value) : JS.props :=
  match second (Str.split_slash repo) with
  | Some repoName =>
      if (Str.nonempty repoName && negb (String.eqb repoName binaryName))%bool
      then JS.assign repoName entry (JS.assign binaryName entry eps)
      else JS.assign binaryName entry eps
  | None => JS.assign binaryName entry eps
  end.

(** an asset that [scoreAsset] does not rule out: its name, in lower case,
    contains one of the OS patterns and none of the words that mark source
    archives, checksums and signatures *)
Definition eligible (osPatterns : list string) (asset : GitHubAsset) : bool :=
  let filename := Str.toLowerCase (name asset) in
  (PlatformMatcher.some_includes osPatterns filename
   && negb (Str.includes "source" filename)
   && negb (Str.includes "sha256" filename || Str.includes "sig" filename
            || Str.includes "asc" filename))%bool.

(** the order of strings by code units, strict *)
Definition code_unit_lt (a b : string) : Prop := String.compare a b = Lt.

(** [current] and [next] are adjacent elements of [parts] *)
Definition adjacent (current next : string) (parts : list string) : Prop :=
  exists before after, parts = before ++ current :: next :: after.

(** the name of an asset that [getAvailablePlatforms] does not skip *)
Definition names_binary (asset : GitHubAsset) : bool :=
  let filename := Str.toLowerCase (name asset) in
  negb (Str.includes "source" filename || Str.includes "sha256" filename
        || Str.includes "sig" filename || Str.includes "asc" filename).

(** from disk [before] to disk [after] nothing was created or changed:
    every path is absent, or holds what it held *)
Definition only_deletes (before after : gmap string node) : Prop :=
  forall q, after !! q = None \/ after !! q = before !! q.

(** a computation that keeps a relation between the machine it starts from
    and the one it ends in, and does not leave the model *)
Definition keeps {A} (R : machine -> machine -> Prop) (c : M A) : Prop :=
  forall m, R m (snd (c m)) /\ forall w, fst (c m) = Abort w -> w = Killed.



(** the waits of a run, oldest first *)
Definition waits (m : machine) : list Z :=
  List.flat_map (fun e => match e with EvSleep ms => [ms] | _ => [] end)
    (List.rev (trace m)).

(** a response that makes [downloadWithProgress] raise *)
Definition failing (r : response) : bool :=
  match r with Served _ => false | _ => true end.

(** the waits of [n] retries that follow the failure of attempt [a + 1]:
    2^(a+1), 2^(a+2), ... seconds, in milliseconds *)
Definition backoff (a : Z) (n : nat) : list Z :=
  List.map (fun i => 2 ^ (a + 1 + Z.of_nat i) * 1000) (List.seq 0 n).

(** ** Sample inputs *)

Definition asset_named (n : string) : GitHubAsset :=
  {| name := n; browser_download_url := "https://example.com/" +:+ n;
     size := 0; content_type := "application/octet-stream" |}.

Definition linux_x86_64 : Platform := {| os := "linux"; arch := "x86_64" |}.
Definition darwin_aarch64 : Platform := {| os := "darwin"; arch := "aarch64" |}.

(** a machine with an empty disk, a benign environment and no registry
    loaded *)
Definition boot : machine :=
  {| fs := ∅; faults := []; trace := []; nextId := 0; clock := 0;
     network := []; this_registry := JS.VNull |}.

(** a cache slot for [o/rg] [v1] on Linux, complete, and the same slot
    after the binary was deleted behind the cache's back *)
Definition slot_metadata : JS.json :=
  JS.JObj [("repo", JS.JStr "o/rg"); ("version", JS.JStr "v1");
           ("platform", JS.JObj [("os", JS.JStr "linux"); ("arch", JS.JStr "x86_64")]);
           ("binaryPath", JS.JStr "/c/o/rg/v1/linux-x86_64/rg");
           ("installDate", JS.JStr "0")].

Definition slot_complete : machine :=
  with_fs (<["/c/o/rg/v1/linux-x86_64/metadata.json" := File (Text slot_metadata) 420]>
           (<["/c/o/rg/v1/linux-x86_64/rg" := File (Opaque "ELF") 493]> ∅)) boot.

Definition slot_without_binary : machine :=
  with_fs (delete "/c/o/rg/v1/linux-x86_64/rg" (fs slot_complete)) slot_complete.

(** a registry file, and a registry in memory that differs from it *)
Definition sample_registryPath : string := "/c/registry.json".

Definition registry_document (lastUpdated : string) : JS.json :=
  JS.JObj [("version", JS.JStr "1.0"); ("entries", JS.JObj []);
           ("lastUpdated", JS.JStr lastUpdated)].

Definition registry_in_memory : JS.value :=
  JS.VObj 1 [("version", JS.VStr "1.0"); ("entries", JS.VObj 0 []);
             ("lastUpdated", JS.VStr "7")].

(** [registry.json] and an older backup are on disk, the registry is loaded,
    and the fourth file-system call from now on will fail *)
Definition machine_with_backup : machine :=
  {| fs := <["/c/registry.json" := File (Text (registry_document "7")) 420]>
           (<["/c/registry.json.backup" := File (Text (registry_document "3")) 420]>
            (<["/c" := Dir]> ∅));
     faults := [Pass; Pass; Pass; Fail]; trace := []; nextId := 2; clock := 8;
     network := []; this_registry := registry_in_memory |}.


(** a loaded registry without entries, on a quiet machine *)
Definition machine_loaded : machine :=
  with_nextId 3 (with_registry registry_in_memory boot).

Definition linux_platform_value : JS.value :=
  JS.VObj 2 [("os", JS.VStr "linux"); ("arch", JS.VStr "x86_64")].

(** [rg] of [BurntSushi/ripgrep] is installed, which also binds the alias
    [ripgrep] *)
Definition machine_with_rg : machine :=
  snd (RegistryManager.addEntry sample_registryPath "rg" "BurntSushi/ripgrep" "v14.1.1"
         linux_platform_value machine_loaded).

(** the same registry, dropped from memory and read back from disk *)
Definition machine_with_rg_reloaded : machine :=
  snd ((RegistryManager.clearCache ;; RegistryManager.load sample_registryPath)
         machine_with_rg).

(** three requests in a row that the server answers with 404 *)
Definition machine_offline : machine :=
  with_network [Refused "Request failed with status code 404";
                Refused "Request failed with status code 404";
                Refused "Request failed with status code 404"] boot.



(** an executable unpacked from a download, ready to be cached *)
Definition machine_with_download : machine :=
  with_fs {["/tmp/gpx-0/extracted/rg" := File (Opaque "ELF") 420]} boot.

(** the complete slot with a usage record that counts three uses *)
Definition slot_used : machine :=
  with_fs (<["/c/o/rg/v1/linux-x86_64/cache-entry.json" :=
             File (Text (JS.JObj [("metadata", slot_metadata); ("lastUsed", JS.JStr "5");
                                  ("usageCount", JS.JNum 3)])) 420]>
           (fs slot_complete)) slot_complete.

(** a [tar] and a [yauzl] that find no archive where they are sent *)
Definition tar_missing (options : Downloader.tar_options) : M unit :=
  throw (Fs.enoent (Downloader.file options)).
Definition yauzl_missing (archivePath : string) : M (option unit) :=
  throw (Fs.enoent archivePath).
Definition no_entries (zipfile : unit) (destDir : string) : M unit := ret tt.

(** * Properties *)

(** ** Asset selection (platform.ts) *)

Section SortHead.
Context {A : Type} (key : A -> Z).

Let by_key_desc (a b : A) : Z := key b - key a.

(** The head of a stable descending sort is the first element that attains
    the maximum key. *)
Lemma sort_head_first_max (l : list A) :
  match PlatformMatcher.sort by_key_desc l with
  | [] => l = []
  | x :: _ =>
      exists pre post, l = pre ++ x :: post
        /\ (forall y, In y pre -> key y < key x)
        /\ (forall y, In y post -> key y <= key x)
  end.
Proof.
  induction l as [|a l IH]; [reflexivity|].
  unfold PlatformMatcher.sort in *. simpl.
  destruct (List.fold_right (PlatformMatcher.sort_insert by_key_desc) [] l)
    as [|x r] eqn:E.
  - subst l. simpl. exists [], []. repeat split; simpl; intros; tauto.
  - destruct IH as (pre & post & -> & Hpre & Hpost). simpl.
    unfold by_key_desc at 1.
    destruct (key x - key a <=? 0) eqn:C.
    + apply Z.leb_le in C. exists [], (pre ++ x :: post).
      repeat split; simpl; [tauto|]. intros y Hy.
      apply in_app_or in Hy as [Hy|[<-|Hy]].
      * specialize (Hpre _ Hy). lia.
      * lia.
      * specialize (Hpost _ Hy). lia.
    + apply Z.leb_gt in C. exists (a :: pre), post.
      repeat split; [|assumption]. intros y [<-|Hy]; [lia|auto].
Qed.
End SortHead.

Lemma filter_split {A} (f : A -> bool) (l l1 l2 : list A) (x : A) :
  List.filter f l = l1 ++ x :: l2 ->
  exists m1 m2, l = m1 ++ x :: m2 /\ List.filter f m1 = l1 /\ List.filter f m2 = l2.
Proof.
  revert l1. induction l as [|a l IH]; intros l1 H; simpl in H.
  - destruct l1; discriminate.
  - destruct (f a) eqn:Fa.
    + destruct l1 as [|b l1]; simpl in H; injection H as <- H.
      * exists [], l. simpl. auto.
      * destruct (IH _ H) as (m1 & m2 & -> & H1 & H2).
        exists (a :: m1), m2. simpl. rewrite Fa, H1. auto.
    + destruct (IH _ H) as (m1 & m2 & -> & H1 & H2).
      exists (a :: m1), m2. simpl. rewrite Fa. auto.
Qed.

Lemma map_split {A B} (f : A -> B) (l : list A) (l1 l2 : list B) (y : B) :
  List.map f l = l1 ++ y :: l2 ->
  exists m1 x m2, l = m1 ++ x :: m2 /\ f x = y
                  /\ List.map f m1 = l1 /\ List.map f m2 = l2.
Proof.
  revert l1. induction l as [|a l IH]; intros l1 H; simpl in H.
  - destruct l1; discriminate.
  - destruct l1 as [|b l1]; simpl in H; injection H as H0 H.
    + exists [], a, l. auto.
    + destruct (IH _ H) as (m1 & x & m2 & -> & Hx & H1 & H2).
      exists (a :: m1), x, m2. simpl. rewrite H1. subst. auto.
Qed.

Section AssetSelection.
Import PlatformMatcher.

Example findMatchingAsset_skips_source :
  findMatchingAsset
    [asset_named "pkg-1.0-x86_64-unknown-linux-gnu.tar.gz"; asset_named "source.tar.gz"]
    linux_x86_64
  = Some (asset_named "pkg-1.0-x86_64-unknown-linux-gnu.tar.gz").
Proof. reflexivity. Qed.

Example findMatchingAsset_empty : findMatchingAsset [] linux_x86_64 = None.
Proof. reflexivity. Qed.

(** Two crafted entries with the same score (25): the earlier one wins,
    whichever of the two it is. *)
Example findMatchingAsset_tie :
  score_on linux_x86_64 (asset_named "a-linux-x64.zip")
    = score_on linux_x86_64 (asset_named "b-linux-x64.zip")
  /\ findMatchingAsset [asset_named "a-linux-x64.zip"; asset_named "b-linux-x64.zip"]
       linux_x86_64 = Some (asset_named "a-linux-x64.zip")
  /\ findMatchingAsset [asset_named "b-linux-x64.zip"; asset_named "a-linux-x64.zip"]
       linux_x86_64 = Some (asset_named "b-linux-x64.zip").
Proof. repeat split; reflexivity. Qed.

(** C2. For every asset list and platform, [findMatchingAsset] returns the
    first asset, in input order, among those that attain the maximum
    positive score: every asset before it scores strictly less, no asset
    after it scores more. It returns nothing exactly when no asset has a
    positive score. *)
Theorem findMatchingAsset_first_max (assets : list GitHubAsset) (platform : Platform) :
  match findMatchingAsset assets platform with
  | Some best =>
      exists pre post, assets = pre ++ best :: post
        /\ 0 < score_on platform best
        /\ (forall a, In a pre -> score_on platform a < score_on platform best)
        /\ (forall a, In a post -> score_on platform a <= score_on platform best)
  | None => forall a, In a assets -> score_on platform a <= 0
  end.
Proof.
  unfold findMatchingAsset.
  set (osP := getOSPatterns (os platform)).
  set (archP := getArchPatterns (arch platform)).
  set (sc := fun asset => (asset, scoreAsset asset osP archP)).
  pose proof (sort_head_first_max (A := GitHubAsset * Z) snd
                (List.filter (fun p => 0 <? snd p) (scored osP archP assets))) as H.
  cbv zeta in H.
  destruct (sort _ _) as [|[best s] r].
  - intros a Ha.
    assert (Hin : In (sc a) (scored osP archP assets)) by (apply (List.in_map sc); exact Ha).
    destruct (0 <? snd (sc a)) eqn:C.
    + assert (In (sc a) (List.filter (fun p => 0 <? snd p) (scored osP archP assets)))
          by (apply List.filter_In; auto).
      rewrite H in *. contradiction.
    + apply Z.ltb_ge in C. exact C.
  - destruct H as (pre & post & Hsplit & Hpre & Hpost).
    assert (Hpos : 0 < s).
    { assert (In (best, s) (List.filter (fun p => 0 <? snd p)
                              (scored osP archP assets))) as Hin
        by (rewrite Hsplit; apply in_or_app; right; left; reflexivity).
      apply List.filter_In in Hin as [_ Hin]. apply Z.ltb_lt in Hin. exact Hin. }
    apply filter_split in Hsplit as (m1 & m2 & Hmap & <- & <-).
    apply map_split in Hmap as (a1 & b & a2 & -> & Hb & <- & <-).
    injection Hb as -> <-. simpl in *.
    fold osP archP. unfold score_on. fold osP archP.
    exists a1, a2. split; [reflexivity|]. split; [exact Hpos|].
    split; intros a Ha.
    + destruct (0 <? snd (sc a)) eqn:C.
      * apply (Hpre (sc a)). apply List.filter_In. split; [|exact C].
        apply (List.in_map sc). exact Ha.
      * apply Z.ltb_ge in C. simpl in C. lia.
    + destruct (0 <? snd (sc a)) eqn:C.
      * apply (Hpost (sc a)). apply List.filter_In. split; [|exact C].
        apply (List.in_map sc). exact Ha.
      * apply Z.ltb_ge in C. simpl in C. lia.
Qed.
End AssetSelection.

(** ** Strings and paths *)

Section StringFacts.

#[local] Arguments String.append !_ _ / : simpl nomatch.

Lemma split_on_nonempty sep s : Str.split_on sep s <> [].
Proof.
  destruct s as [|c t]; simpl; [discriminate|].
  destruct (sep c); [discriminate|].
  destruct (Str.split_on sep t); discriminate.
Qed.

Lemma split_slash_app a b :
  Str.split_slash (a +:+ String "/" b) = Str.split_slash a ++ Str.split_slash b.
Proof.
  unfold Str.split_slash. induction a as [|x a IH]; simpl; [reflexivity|].
  destruct (Str.is_slash x).
  - rewrite IH. reflexivity.
  - rewrite IH. pose proof (split_on_nonempty Str.is_slash a) as Hne.
    destruct (Str.split_on Str.is_slash a); [contradiction|reflexivity].
Qed.

Lemma split_slash_no_slash s : no_slash s = true -> Str.split_slash s = [s].
Proof.
  unfold Str.split_slash. induction s as [|c t IH]; simpl; [reflexivity|].
  intros H. apply andb_prop in H as [Hc Ht].
  apply negb_true_iff in Hc. rewrite Hc, (IH Ht). reflexivity.
Qed.

Lemma split_slash_parts s : Forall (fun x => no_slash x = true) (Str.split_slash s).
Proof.
  unfold Str.split_slash. induction s as [|c t IH]; simpl.
  - repeat constructor.
  - destruct (Str.is_slash c) eqn:Hc.
    + constructor; [reflexivity|exact IH].
    + destruct (Str.split_on Str.is_slash t) as [|h r].
      * constructor; [simpl; rewrite Hc; reflexivity|constructor].
      * inversion IH; subst. constructor; [simpl; rewrite Hc; assumption|assumption].
Qed.

(** splitting undoes joining, for components free of [/] *)
Lemma split_slash_join l :
  l <> [] -> Forall (fun x => no_slash x = true) l ->
  Str.split_slash (Str.join "/" l) = l.
Proof.
  induction l as [|x l IH]; [contradiction|]. intros _ H.
  inversion H as [|? ? Hx Hl]; subst.
  destruct l as [|y l].
  - simpl. apply split_slash_no_slash. exact Hx.
  - change (Str.join "/" (x :: y :: l)) with (x +:+ String "/" (Str.join "/" (y :: l))).
    rewrite split_slash_app, (split_slash_no_slash _ Hx), IH; [reflexivity|discriminate|exact Hl].
Qed.

Lemma append_nil_r s : s +:+ "" = s.
Proof. induction s; simpl; congruence. Qed.

Lemma append_assoc a b c : (a +:+ b) +:+ c = a +:+ (b +:+ c).
Proof. induction a; simpl; congruence. Qed.

Lemma append_inv_head a b c : a +:+ b = a +:+ c -> b = c.
Proof. induction a; simpl; intros H; [exact H|]. injection H as H. auto. Qed.

Lemma length_append a b : String.length (a +:+ b) = (String.length a + String.length b)%nat.
Proof. induction a; simpl; congruence. Qed.

Lemma eqb_length_ne a b : String.length a <> String.length b -> String.eqb a b = false.
Proof. intros H. apply String.eqb_neq. intros ->. contradiction. Qed.

Lemma endsWith_cons suf c t :
  Str.endsWith suf (String c t)
  = if String.eqb (String c t) suf then true else Str.endsWith suf t.
Proof. reflexivity. Qed.

(** a suffix no longer than [b] is looked for in [b] alone *)
Lemma endsWith_app suf a b :
  (String.length suf <= String.length b)%nat ->
  Str.endsWith suf (a +:+ b) = Str.endsWith suf b.
Proof.
  intros Hlen. induction a as [|x a IH]; [reflexivity|].
  change (String x a +:+ b) with (String x (a +:+ b)).
  rewrite endsWith_cons, eqb_length_ne; [exact IH|].
  cbn [String.length]. rewrite length_append. lia.
Qed.

Lemma endsWith_slash_no_slash s :
  no_slash s = true -> Str.endsWith "/" s = false.
Proof.
  induction s as [|c t IH]; [reflexivity|]. intros H. cbn [no_slash] in H.
  apply andb_prop in H as [Hc Ht]. rewrite endsWith_cons, (IH Ht).
  destruct (String.eqb (String c t) "/") eqn:E; [|reflexivity].
  apply String.eqb_eq in E. injection E as -> ->. discriminate.
Qed.

(** [s.endsWith(suf)] says that [s] is some prefix followed by [suf] *)
Lemma endsWith_inv suf s : Str.endsWith suf s = true -> exists a, s = a +:+ suf.
Proof.
  induction s as [|c t IH].
  - unfold Str.endsWith. destruct (String.eqb "" suf) eqn:E; [|discriminate].
    apply String.eqb_eq in E. subst. exists "". reflexivity.
  - rewrite endsWith_cons. destruct (String.eqb (String c t) suf) eqn:E.
    + apply String.eqb_eq in E. subst. exists "". reflexivity.
    + intros H. destruct (IH H) as [a ->]. exists (String c a). reflexivity.
Qed.

End StringFacts.

(** ** Cache paths (cache.ts) *)

Section CachePaths.

#[local] Arguments String.append !_ _ / : simpl nomatch.

Let clean (x : string) : Prop := no_slash x = true.

Lemma valid_segment_inv s :
  valid_segment s = true ->
  Str.nonempty s = true /\ no_slash s = true /\ s <> "." /\ s <> "..".
Proof.
  unfold valid_segment. intros H.
  apply andb_prop in H as [H H4]. apply andb_prop in H as [H H3].
  apply andb_prop in H as [H1 H2].
  apply negb_true_iff, String.eqb_neq in H3, H4. auto.
Qed.

Lemma normalize_step_valid above kept seg :
  valid_segment seg = true -> Path.normalize_step above kept seg = kept ++ [seg].
Proof.
  intros H. apply valid_segment_inv in H as (Hne & _ & Hdot & Hdots).
  unfold Path.normalize_step.
  assert (String.eqb seg "" = false) as ->
    by (apply String.eqb_neq; intros ->; discriminate).
  apply String.eqb_neq in Hdot, Hdots. rewrite Hdot, Hdots. reflexivity.
Qed.

Lemma Forall_removelast {A} (P : A -> Prop) l : Forall P l -> Forall P (List.removelast l).
Proof.
  induction 1 as [|x l Hx Hl IH]; [constructor|].
  simpl. destruct l; [constructor|]. constructor; assumption.
Qed.

Lemma normalize_step_clean above kept seg :
  Forall clean kept -> clean seg -> Forall clean (Path.normalize_step above kept seg).
Proof.
  intros Hk Hs. unfold Path.normalize_step.
  assert (Hup : Forall clean (kept ++ [".."])).
  { apply Forall_app. split; [exact Hk|]. repeat constructor. }
  destruct (_ || _)%bool; [exact Hk|].
  destruct (String.eqb seg "..").
  - destruct (List.last _ _) as [top|].
    + destruct (String.eqb top ".."); [destruct above; assumption|].
      apply Forall_removelast, Hk.
    + destruct above; [|exact Hk]. repeat constructor.
  - apply Forall_app. split; [exact Hk|]. repeat constructor. exact Hs.
Qed.

Lemma fold_normalize_clean above segs kept :
  Forall clean kept -> Forall clean segs ->
  Forall clean (List.fold_left (Path.normalize_step above) segs kept).
Proof.
  revert kept. induction segs as [|s segs IH]; intros kept Hk Hs; [exact Hk|].
  inversion Hs; subst. simpl. apply IH; [|assumption].
  apply normalize_step_clean; assumption.
Qed.

Lemma endsWith_slash_sep a b :
  b <> "" -> Str.endsWith "/" (a +:+ String "/" b) = Str.endsWith "/" b.
Proof.
  intros Hb. rewrite endsWith_app by (simpl; lia).
  rewrite endsWith_cons.
  destruct (String.eqb (String "/" b) "/") eqn:E; [|reflexivity].
  apply String.eqb_eq in E. injection E as ->. contradiction.
Qed.

Lemma nonempty_neq s : Str.nonempty s = true -> s <> "".
Proof. intros H ->; discriminate. Qed.

Lemma append_neq_nil a b : a <> "" -> a +:+ b <> "".
Proof. destruct a; [contradiction|discriminate]. Qed.

Lemma startsWith_slash_cons y s : Str.startsWith "/" (String y s) = Ascii.eqb "/" y.
Proof.
  change (Str.startsWith "/" (String y s))
    with (if Ascii.eqb "/" y then Str.startsWith "" s else false).
  destruct (Ascii.eqb "/" y); [destruct s|]; reflexivity.
Qed.

Lemma stem_clean cacheDir : Forall clean (stem cacheDir).
Proof.
  unfold stem. destruct (Str.nonempty cacheDir); [|constructor].
  apply fold_normalize_clean; [constructor|apply split_slash_parts].
Qed.

(** With four proper components, [path.join] keeps them as the last four
    components of its result. *)
Lemma cachePath_shape cacheDir o r v k :
  valid_segment o = true -> valid_segment r = true ->
  valid_segment v = true -> valid_segment k = true ->
  CachePure.cachePath cacheDir o r v k
  = root cacheDir +:+ Str.join "/" (stem cacheDir ++ [o; r; v; k]).
Proof.
  intros Ho Hr Hv Hk.
  pose proof (valid_segment_inv _ Ho) as (No & Co & _).
  pose proof (valid_segment_inv _ Hr) as (Nr & Cr & _).
  pose proof (valid_segment_inv _ Hv) as (Nv & Cv & _).
  pose proof (valid_segment_inv _ Hk) as (Nk & Ck & _).
  assert (Ht : Forall clean [o; r; v; k]) by (repeat constructor; assumption).
  set (tail := Str.join "/" [o; r; v; k]).
  assert (Etail : tail = o +:+ String "/" (r +:+ String "/" (v +:+ String "/" k)))
    by reflexivity.
  assert (Htail : Str.split_slash tail = [o; r; v; k])
    by (apply split_slash_join; [discriminate|exact Ht]).
  assert (Ntail : tail <> "") by (rewrite Etail; apply append_neq_nil, nonempty_neq, No).
  assert (Ttail : Str.endsWith "/" tail = false).
  { rewrite Etail.
    rewrite !endsWith_slash_sep;
      [apply endsWith_slash_no_slash, Ck | apply nonempty_neq, Nk
      | apply append_neq_nil, nonempty_neq, Nv
      | apply append_neq_nil, nonempty_neq, Nr ]. }
  assert (Hfold : forall above kept,
             List.fold_left (Path.normalize_step above) [o; r; v; k] kept
             = kept ++ [o; r; v; k]).
  { intros. simpl. rewrite !normalize_step_valid by assumption.
    rewrite <- !app_assoc. reflexivity. }
  assert (Hbody : forall kept, Forall clean kept ->
             String.eqb (Str.join "/" (kept ++ [o; r; v; k])) "" = false).
  { intros kept Hkept. apply String.eqb_neq. intros E.
    assert (Hs : Str.split_slash (Str.join "/" (kept ++ [o; r; v; k]))
                 = kept ++ [o; r; v; k]).
    { apply split_slash_join; [destruct kept; discriminate|].
      apply Forall_app. split; assumption. }
    rewrite E in Hs. apply (f_equal (@List.length string)) in Hs.
    rewrite List.length_app in Hs. simpl in Hs. lia. }
  unfold CachePure.cachePath, Path.join, root, stem.
  cbn [List.filter]. rewrite No, Nr, Nv, Nk.
  destruct cacheDir as [|x c].
  - cbn [Str.nonempty andb app].
    change (Str.join "/" [o; r; v; k]) with tail.
    apply String.eqb_neq in Ntail. rewrite Ntail.
    unfold Path.normalize. rewrite Ntail, Ttail, Htail.
    assert (Str.startsWith "/" tail = false) as ->.
    { rewrite Etail. destruct o as [|y o]; [discriminate|].
      cbn [no_slash] in Co. apply andb_prop in Co as [Co _].
      apply negb_true_iff in Co. unfold Str.is_slash in Co.
      change (String y o +:+ ?t) with (String y (o +:+ t)).
      rewrite startsWith_slash_cons, Ascii.eqb_sym. exact Co. }
    unfold Path.normalize_segments. rewrite Hfold. cbn [negb app].
    change (Str.join "/" [o; r; v; k]) with tail. rewrite Ntail.
    simpl. apply append_nil_r.
  - cbn [Str.nonempty andb].
    set (c0 := String x c).
    change (Str.join "/" (c0 :: [o; r; v; k])) with (c0 +:+ String "/" tail).
    assert (String.eqb (c0 +:+ String "/" tail) "" = false) as Hj
      by (apply String.eqb_neq; discriminate).
    rewrite Hj. unfold Path.normalize. rewrite Hj.
    rewrite split_slash_app, Htail, endsWith_slash_sep, Ttail by exact Ntail.
    assert (Str.startsWith "/" (c0 +:+ String "/" tail) = Str.startsWith "/" c0) as ->.
    { unfold c0. change (String x c +:+ ?t) with (String x (c +:+ t)).
      rewrite !startsWith_slash_cons. reflexivity. }
    unfold Path.normalize_segments. rewrite List.fold_left_app, Hfold.
    rewrite Hbody
      by (apply fold_normalize_clean; [constructor|apply split_slash_parts]).
    destruct (Str.startsWith "/" c0); cbn [negb]; rewrite append_nil_r; reflexivity.
Qed.

(** C8. The cache path is a function of (owner, repoName, version,
    platformKey), which [getCachePath] computes from [repo] and the
    platform with platformKey = os-arch; for components that are proper
    path components (non-empty, without [/], neither [.] nor [..]),
    distinct tuples give distinct paths. *)
Theorem cachePath_injective
    (cacheDir owner repoName version owner' repoName' version' : string)
    (platform platform' : Platform)
    (Ho : valid_segment owner = true) (Hr : valid_segment repoName = true)
    (Hv : valid_segment version = true)
    (Hk : valid_segment (CachePure.platformKey platform) = true)
    (Ho' : valid_segment owner' = true) (Hr' : valid_segment repoName' = true)
    (Hv' : valid_segment version' = true)
    (Hk' : valid_segment (CachePure.platformKey platform') = true) :
  CachePure.platformKey platform = os platform +:+ "-" +:+ arch platform
  /\ CachePure.getCachePath cacheDir (owner +:+ "/" +:+ repoName) version platform
     = Some (CachePure.cachePath cacheDir owner repoName version
               (CachePure.platformKey platform))
  /\ (CachePure.cachePath cacheDir owner repoName version (CachePure.platformKey platform)
      = CachePure.cachePath cacheDir owner' repoName' version'
          (CachePure.platformKey platform')
      -> owner = owner' /\ repoName = repoName' /\ version = version'
         /\ CachePure.platformKey platform = CachePure.platformKey platform').
Proof.
  split; [reflexivity|]. split.
  - unfold CachePure.getCachePath.
    pose proof (valid_segment_inv _ Ho) as (_ & Co & _).
    pose proof (valid_segment_inv _ Hr) as (_ & Cr & _).
    change (owner +:+ "/" +:+ repoName) with (owner +:+ String "/" repoName).
    rewrite split_slash_app, !split_slash_no_slash by assumption. reflexivity.
  - rewrite !cachePath_shape by assumption. intros E.
    apply append_inv_head in E.
    apply (f_equal Str.split_slash) in E.
    pose proof (stem_clean cacheDir) as Hs.
    rewrite !split_slash_join in E.
    + apply app_inv_head in E. injection E as -> -> -> ->. auto.
    + destruct (stem cacheDir); discriminate.
    + apply Forall_app. split; [exact Hs|].
      repeat constructor; eapply valid_segment_inv; eassumption.
    + destruct (stem cacheDir); discriminate.
    + apply Forall_app. split; [exact Hs|].
      repeat constructor; eapply valid_segment_inv; eassumption.
Qed.

Lemma cachePath_injective_witness :
  valid_segment "BurntSushi" = true /\ valid_segment "ripgrep" = true
  /\ valid_segment "14.1.1" = true
  /\ valid_segment (CachePure.platformKey linux_x86_64) = true
  /\ valid_segment (CachePure.platformKey darwin_aarch64) = true
  /\ CachePure.getCachePath "/home/u/.cache/gpx" "BurntSushi/ripgrep" "14.1.1"
       linux_x86_64
     = Some "/home/u/.cache/gpx/BurntSushi/ripgrep/14.1.1/linux-x86_64"
  /\ (CachePure.cachePath "/home/u/.cache/gpx" "BurntSushi" "ripgrep" "14.1.1"
        (CachePure.platformKey linux_x86_64)
      = CachePure.cachePath "/home/u/.cache/gpx" "BurntSushi" "ripgrep" "14.1.1"
          (CachePure.platformKey darwin_aarch64)
      -> CachePure.platformKey linux_x86_64
         = CachePure.platformKey darwin_aarch64).
Proof.
  pose proof (cachePath_injective "/home/u/.cache/gpx"
                "BurntSushi" "ripgrep" "14.1.1" "BurntSushi" "ripgrep" "14.1.1"
                linux_x86_64 darwin_aarch64
                eq_refl eq_refl eq_refl eq_refl eq_refl eq_refl eq_refl eq_refl)
    as (_ & Hpath & Hinj).
  repeat split; try reflexivity.
  intros E. apply Hinj in E. tauto.
Defined.

(** Without the side condition the path is not injective: an empty
    component is dropped by [path.join]. *)
Example cachePath_collision :
  CachePure.cachePath "/c" "a" "b" "" "k" = CachePure.cachePath "/c" "a" "" "b" "k".
Proof. reflexivity. Qed.

End CachePaths.

(** ** Archive dispatch (downloader.ts) *)

Section ArchiveDispatch.

#[local] Arguments String.append !_ _ / : simpl nomatch.

Lemma last_app_singleton {A} (l : list A) (x d : A) : List.last (l ++ [x]) d = x.
Proof. induction l as [|y l IH]; [reflexivity|]. simpl. destruct (l ++ [x]) eqn:E; [destruct l; discriminate|exact IH]. Qed.

(** appending text without [/] extends the last component *)
Lemma split_slash_extend a t :
  no_slash t = true ->
  Str.split_slash (a +:+ t)
  = List.removelast (Str.split_slash a) ++ [List.last (Str.split_slash a) "" +:+ t].
Proof.
  intros Ht. unfold Str.split_slash. induction a as [|x a IH].
  - simpl. apply (split_slash_no_slash _ Ht).
  - change (String x a +:+ t) with (String x (a +:+ t)).
    cbn [Str.split_on]. rewrite IH.
    pose proof (split_on_nonempty Str.is_slash a) as Hne.
    destruct (Str.is_slash x).
    + destruct (Str.split_on Str.is_slash a) as [|h r]; [contradiction|reflexivity].
    + destruct (Str.split_on Str.is_slash a) as [|h [|h' r]]; [contradiction|reflexivity|reflexivity].
Qed.

Lemma last_component_extend a t :
  no_slash t = true -> Str.nonempty t = true ->
  Path.last_component (a +:+ t) = Some (List.last (Str.split_slash a) "" +:+ t).
Proof.
  intros Ht Hne. unfold Path.last_component.
  rewrite (split_slash_extend _ _ Ht), List.filter_app, List.map_app.
  assert (Str.nonempty (List.last (Str.split_slash a) "" +:+ t) = true) as Hn.
  { destruct (List.last (Str.split_slash a) ""); [exact Hne|reflexivity]. }
  cbn [List.filter List.map]. rewrite Hn. apply last_app_singleton.
Qed.

Lemma last_dot_suffix_app a b e :
  Path.last_dot_suffix b = Some e -> Path.last_dot_suffix (a +:+ b) = Some e.
Proof.
  intros H. induction a as [|x a IH]; [exact H|].
  change (String x a +:+ b) with (String x (a +:+ b)).
  cbn [Path.last_dot_suffix]. rewrite IH. reflexivity.
Qed.

(** a path that ends in [.tar.gz] has the extension [.gz] *)
Lemma extname_tar_gz p : Str.endsWith ".tar.gz" p = true -> Path.extname p = ".gz".
Proof.
  intros H. apply endsWith_inv in H as [a ->]. unfold Path.extname.
  rewrite last_component_extend by reflexivity.
  set (c := List.last (Str.split_slash a) "").
  rewrite (last_dot_suffix_app c ".tar.gz" ".gz") by reflexivity.
  assert (String.eqb ".gz" (c +:+ ".tar.gz") = false) as ->
    by (apply eqb_length_ne; rewrite length_append; simpl; lia).
  assert (String.eqb (c +:+ ".tar.gz") ".." = false) as ->
    by (apply eqb_length_ne; rewrite length_append; simpl; lia).
  reflexivity.
Qed.

Lemma archiveFormat_by_extension p :
  archiveFormat p
  = let ext := Str.toLowerCase (Path.extname p) in
    if String.eqb ext ".gz" then TarGz
    else if String.eqb ext ".zip" then Zip
    else Unsupported ext.
Proof.
  unfold archiveFormat. cbv zeta.
  destruct (String.eqb (Str.toLowerCase (Path.extname p)) ".gz") eqn:E; [reflexivity|].
  destruct (Str.endsWith ".tar.gz" p) eqn:T; [|reflexivity].
  rewrite (extname_tar_gz _ T) in E. discriminate.
Qed.

(** The claim as it stands fails on the code: a [.tgz] archive is not
    handed to the tar extractor, it is rejected, in either copy of the
    class. *)
Lemma extractArchive_rejects_tgz :
  Downloader.extractArchive tar_missing yauzl_missing no_entries Downloader.First
    "/tmp/gpx-0/tool.tgz" "/tmp/gpx-0/extracted" boot
  = (Throw "Unsupported archive format: .tgz",
     log (EvFs (OpMkdir "/tmp/gpx-0/extracted") true)
       (with_fs {["/tmp/gpx-0/extracted" := Dir]} boot))
  /\ Downloader.extractArchive tar_missing yauzl_missing no_entries Downloader.Second
       "/tmp/gpx-0/tool.tgz" "/tmp/gpx-0/extracted" boot
     = (Throw "Unsupported archive format: .tgz",
        log (EvFs (OpMkdir "/tmp/gpx-0/extracted") true)
          (with_fs {["/tmp/gpx-0/extracted" := Dir]} boot)).
Proof. split; reflexivity. Qed.

Variable tar_extract : Downloader.tar_options -> M unit.
Context {zipfile : Type}.
Variable yauzl_open : string -> M (option zipfile).
Variable read_entries : zipfile -> string -> M unit.

(** C6, as the code has it. [extractArchive] first creates the
    destination; where that fails, the error of [mkdir] is the outcome,
    whatever the extension. It then dispatches on the lower-cased
    [path.extname] of the archive path alone: [.gz] (hence every
    [.tar.gz]) is handed to [tar.extract] with the archive as [file] and
    the destination as [cwd], with [strip: 1] in the first copy of the
    class and no [strip] in the second; [.zip] is opened with [yauzl],
    whose error, or the lack of a zipfile, is raised, and whose entries
    are then read into the destination; every other extension, [.tgz]
    included, raises the unsupported-format error. The outcome of the
    call is the outcome of the extractor: it returns only where the
    extractor returned. *)
Theorem extractArchive_dispatch
    (c : Downloader.copy) (archivePath destDir : string) (m : machine) :
  let ext := Str.toLowerCase (Path.extname archivePath) in
  (if Str.endsWith ".tar.gz" archivePath then ext = ".gz" else True)
  /\ Downloader.extractArchive tar_extract yauzl_open read_entries c archivePath destDir m
     = match Fs.mkdir_p destDir m with
       | (Ok _, m1) =>
           if String.eqb ext ".gz"
           then tar_extract
                  {| Downloader.file := archivePath;
                     Downloader.cwd := destDir;
                     Downloader.strip := match c with
                                         | Downloader.First => Some 1
                                         | Downloader.Second => None
                                         end |} m1
           else if String.eqb ext ".zip"
           then match yauzl_open archivePath m1 with
                | (Ok (Some zipfile), m2) => read_entries zipfile destDir m2
                | (Ok None, m2) => (Throw "Failed to open zip file", m2)
                | (Throw e, m2) => (Throw e, m2)
                | (Abort w, m2) => (Abort w, m2)
                end
           else (Throw ("Unsupported archive format: " +:+ ext), m1)
       | (Throw e, m1) => (Throw e, m1)
       | (Abort w, m1) => (Abort w, m1)
       end.
Proof.
  cbv zeta. split.
  - destruct (Str.endsWith ".tar.gz" archivePath) eqn:T; [|exact I].
    rewrite (extname_tar_gz _ T). reflexivity.
  - unfold Downloader.extractArchive, bind at 1.
    destruct (Fs.mkdir_p destDir m) as [[[]|e|w] m1]; try reflexivity.
    rewrite archiveFormat_by_extension. cbv zeta.
    destruct (String.eqb _ ".gz"); [reflexivity|].
    destruct (String.eqb _ ".zip"); [|reflexivity].
    unfold Downloader.extractZip, bind.
    destruct (yauzl_open archivePath m1) as [[[z|]|e|w] m2]; reflexivity.
Qed.

End ArchiveDispatch.

(** ** The name of a cached binary (cache.ts) *)

Section BinaryName.

Lemma match_part_repoName parts repoName r :
  CachePure.match_part parts repoName = Some r -> r = repoName.
Proof.
  induction parts as [|p parts IH]; simpl; [discriminate|].
  destruct (String.eqb _ _); [intros [= <-]; reflexivity|exact IH].
Qed.

Lemma guessBinaryName_repoName filename repoName :
  CachePure.guessBinaryName filename repoName = repoName.
Proof.
  unfold CachePure.guessBinaryName.
  destruct (Str.includes _ _); [reflexivity|].
  destruct (CachePure.match_part _ _) eqn:E; [|reflexivity].
  apply (match_part_repoName _ _ _ E).
Qed.

Lemma bind_Ok_inv {A B} (c : M A) (k : A -> M B) m b m' :
  bind c k m = (Ok b, m') -> exists a m1, c m = (Ok a, m1) /\ k a m1 = (Ok b, m').
Proof.
  unfold bind. destruct (c m) as [[a|e|w] m1]; [eauto|discriminate..].
Qed.


End BinaryName.

(** ** Reasoning about computations *)

Section Computations.


Lemma read_only_ret {A} (a : A) : read_only (ret a).
Proof. intros m. reflexivity. Qed.

Lemma read_only_throw {A} e : read_only (@throw A e).
Proof. intros m. reflexivity. Qed.


Lemma read_only_bind {A B} (c : M A) (k : A -> M B) :
  read_only c -> (forall a, read_only (k a)) -> read_only (bind c k).
Proof.
  intros Hc Hk m. unfold bind. specialize (Hc m).
  destruct (c m) as [[a|e|w] m1]; simpl in *; [|assumption..].
  rewrite Hk. exact Hc.
Qed.

Lemma read_only_try_catch {A} (c : M A) (h : string -> M A) :
  read_only c -> (forall e, read_only (h e)) -> read_only (try_catch c h).
Proof.
  intros Hc Hh m. unfold try_catch. specialize (Hc m).
  destruct (c m) as [[a|e|w] m1]; simpl in *; [assumption| |assumption].
  rewrite Hh. exact Hc.
Qed.

Lemma read_only_call {A} op (run : gmap string node -> string + (A * gmap string node)) :
  (forall f a f', run f = inr (a, f') -> f' = f) -> read_only (Fs.call op run id).
Proof.
  intros Hrun m. unfold Fs.call.
  destruct (faults m) as [|[] l]; simpl;
    try reflexivity;
    destruct (run (fs m)) as [e|[a f']] eqn:R; simpl; try reflexivity;
    apply (Hrun _ _ _ R).
Qed.


Lemma read_only_readFile p : read_only (Fs.readFile p).
Proof.
  apply read_only_call. intros f a f'. destruct (f !! p) as [[]|]; try discriminate.
  intros [= _ <-]. reflexivity.
Qed.

Lemma read_only_JSON_parse c : read_only (JSON_parse c).
Proof.
  intros m. destruct c as [j|b]; simpl; [|reflexivity].
  destruct (JS.revive j (nextId m)). reflexivity.
Qed.

Lemma access_Ok_inv p m u m' :
  Fs.access p m = (Ok u, m') -> is_Some (fs m !! p).
Proof.
  unfold Fs.access, Fs.call.
  destruct (faults m) as [|[] l]; simpl; try discriminate;
    destruct (fs m !! p); try discriminate; eauto.
Qed.


End Computations.

(** ** Cache look-up (cache.ts) *)

Section CacheLookup.


Lemma revive_JObj fields n :
  JS.revive (JS.JObj fields) n
  = let '(ps, n') := JS.revive_fields fields (S n) in (JS.VObj n ps, n').
Proof. reflexivity. Qed.



Variable cacheDir : string.

Lemma read_only_getMetadata repo version platform :
  read_only (CacheManager.getMetadata cacheDir repo version platform).
Proof.
  unfold CacheManager.getMetadata, CacheManager.cachePathOf.
  apply read_only_bind.
  - destruct (CachePure.getCachePath _ _ _ _); [apply read_only_ret|apply read_only_throw].
  - intros cp. apply read_only_try_catch; [|intros; apply read_only_ret].
    apply read_only_bind; [apply read_only_readFile|apply read_only_JSON_parse].
Qed.



End CacheLookup.


(** the metadata is in place, the binary is gone: the slot is not a hit *)
Example isCached_binary_deleted :
  fs slot_without_binary !! "/c/o/rg/v1/linux-x86_64/metadata.json"
    = Some (File (Text slot_metadata) 420)
  /\ fst (CacheManager.isCached "/c" "o/rg" "v1" linux_x86_64 slot_without_binary)
     = Ok false.
Proof. split; vm_compute; reflexivity. Qed.


(** ** Weakest preconditions for computations *)

Section WP.

Lemma wp_ret {A} (a : A) m Q : Q (Ok a) m -> wp (ret a) m Q.
Proof. exact id. Qed.

Lemma wp_throw {A} e m (Q : outcome A -> machine -> Prop) :
  Q (Throw e) m -> wp (throw e) m Q.
Proof. exact id. Qed.

Lemma wp_bind {A B} (c : M A) (k : A -> M B) m Q :
  wp c m (fun r m1 => match r with
                      | Ok a => wp (k a) m1 Q
                      | Throw e => Q (Throw e) m1
                      | Abort w => Q (Abort w) m1
                      end) ->
  wp (bind c k) m Q.
Proof. unfold wp, bind. destruct (c m) as [[a|e|w] m1]; exact id. Qed.

Lemma wp_try_catch {A} (c : M A) (h : string -> M A) m Q :
  wp c m (fun r m1 => match r with
                      | Ok a => Q (Ok a) m1
                      | Throw e => wp (h e) m1 Q
                      | Abort w => Q (Abort w) m1
                      end) ->
  wp (try_catch c h) m Q.
Proof. unfold wp, try_catch. destruct (c m) as [[a|e|w] m1]; exact id. Qed.

Lemma wp_mono {A} (c : M A) m (Q Q' : outcome A -> machine -> Prop) :
  wp c m Q -> (forall r m1, Q r m1 -> Q' r m1) -> wp c m Q'.
Proof. unfold wp. auto. Qed.

Lemma wp_get_registry m Q : Q (Ok (this_registry m)) m -> wp get_registry m Q.
Proof. exact id. Qed.

Lemma wp_set_registry r m Q : Q (Ok tt) (with_registry r m) -> wp (set_registry r) m Q.
Proof. exact id. Qed.

Lemma wp_now m Q :
  Q (Ok (toISOString (clock m))) (with_clock (S (clock m)) m) -> wp now m Q.
Proof. exact id. Qed.

Lemma wp_fresh m Q : Q (Ok (nextId m)) (with_nextId (S (nextId m)) m) -> wp fresh m Q.
Proof. exact id. Qed.

Lemma same_memory_refl m : same_memory m m.
Proof. repeat split. Qed.

Lemma wp_call {A} op (run : gmap string node -> string + (A * gmap string node))
    torn m (Q : outcome A -> machine -> Prop) :
  (forall m1 a f', same_memory m m1 -> run (fs m) = inr (a, f') -> fs m1 = f' ->
                   trace m1 = EvFs op true :: trace m -> Q (Ok a) m1) ->
  (forall m1 e, same_memory m m1 -> fs m1 = fs m ->
                trace m1 = EvFs op false :: trace m -> Q (Throw e) m1) ->
  (forall m1, same_memory m m1 -> fs m1 = torn (fs m) ->
              trace m1 = EvFs op false :: trace m -> Q (Abort Killed) m1) ->
  wp (Fs.call op run torn) m Q.
Proof.
  intros HOk HThrow HAbort. unfold wp, Fs.call.
  destruct (match faults m with [] => Pass | f0 :: _ => f0 end).
  - destruct (run (fs (with_faults (tail (faults m)) m))) as [e|[a f']] eqn:R; simpl.
    + apply HThrow; repeat split.
    + eapply HOk; [repeat split|exact R|reflexivity|reflexivity].
  - apply HThrow; repeat split.
  - apply HAbort; repeat split.
Qed.

End WP.

(** ** Computations that leave an aspect of the machine alone *)

Section Preserves.

Context {X : Type} (f : machine -> X).
Hypothesis f_log : forall op ok m, f (log (EvFs op ok) m) = f m.
Hypothesis f_fs : forall x m, f (with_fs x m) = f m.
Hypothesis f_faults : forall x m, f (with_faults x m) = f m.
Hypothesis f_nextId : forall n m, f (with_nextId n m) = f m.

Lemma preserves_ret {A} (a : A) : preserves f (ret a).
Proof. intros m. split; [reflexivity|discriminate]. Qed.

Lemma preserves_throw {A} e : preserves f (@throw A e).
Proof. intros m. split; [reflexivity|discriminate]. Qed.

Lemma preserves_bind {A B} (c : M A) (k : A -> M B) :
  preserves f c -> (forall a, preserves f (k a)) -> preserves f (bind c k).
Proof.
  intros Hc Hk m. unfold bind. destruct (Hc m) as [Hr Hw].
  destruct (c m) as [[a|e|w] m1]; cbn [fst snd] in *.
  - destruct (Hk a m1) as [Hr' Hw']. split; [congruence|exact Hw'].
  - split; [exact Hr|discriminate].
  - split; [exact Hr|]. intros w' H. injection H as <-. exact (Hw w eq_refl).
Qed.

Lemma preserves_try_catch {A} (c : M A) (h : string -> M A) :
  preserves f c -> (forall e, preserves f (h e)) -> preserves f (try_catch c h).
Proof.
  intros Hc Hh m. unfold try_catch. destruct (Hc m) as [Hr Hw].
  destruct (c m) as [[a|e|w] m1]; cbn [fst snd] in *.
  - split; [exact Hr|discriminate].
  - destruct (Hh e m1) as [Hr' Hw']. split; [congruence|exact Hw'].
  - split; [exact Hr|exact Hw].
Qed.

Lemma preserves_call {A} op
    (run : gmap string node -> string + (A * gmap string node)) torn :
  preserves f (Fs.call op run torn).
Proof.
  intros m. unfold Fs.call.
  destruct (match faults m with [] => Pass | x :: _ => x end).
  - destruct (run _) as [e|[a fs']]; cbn [fst snd];
      rewrite f_log, ?f_fs, f_faults; (split; [reflexivity|discriminate]).
  - cbn [fst snd]. rewrite f_log, f_faults. split; [reflexivity|discriminate].
  - cbn [fst snd]. rewrite f_log, f_fs, f_faults. split; [reflexivity|].
    intros w H. injection H as <-. reflexivity.
Qed.

Lemma preserves_get_registry : preserves f get_registry.
Proof. intros m. split; [reflexivity|discriminate]. Qed.

Lemma preserves_JSON_parse c : preserves f (JSON_parse c).
Proof.
  intros m. destruct c as [j|b]; unfold JSON_parse.
  - destruct (JS.revive j (nextId m)). cbn [fst snd]. rewrite f_nextId.
    split; [reflexivity|discriminate].
  - split; [reflexivity|discriminate].
Qed.

Lemma preserves_JSON_stringify v : preserves f (JSON_stringify v).
Proof.
  unfold JSON_stringify.
  destruct (JS.stringify v); [apply preserves_ret|apply preserves_throw].
Qed.

End Preserves.

(** ** What [save] does to the registry object in memory *)

Section RegistryMemory.

Import RegistryManager.

Variable rp : string.

Lemma save_from_mkdir_memory : preserves this_registry (save_from_mkdir rp).
Proof.
  unfold save_from_mkdir, Fs.mkdir_p, Fs.access, Fs.copyFile, Fs.writeFile,
    Fs.readFile, Fs.rename, Fs.unlink.
  repeat first
    [ reflexivity
    | apply preserves_bind | apply preserves_try_catch | apply preserves_call
    | apply preserves_ret | apply preserves_throw | apply preserves_get_registry
    | apply preserves_JSON_parse | apply preserves_JSON_stringify | intro ].
Qed.

Lemma save_unfold m id ps :
  this_registry m = JS.VObj id ps ->
  save rp m
  = save_from_mkdir rp (with_registry (stamped id ps m) (with_clock (S (clock m)) m)).
Proof.
  intros Hreg. unfold save, bind at 1, get_registry at 1. rewrite Hreg.
  cbn [JS.truthy negb].
  unfold bind at 1, now at 1.
  unfold bind at 1, set_registry_prop at 1.
  unfold bind at 1, get_registry at 1. cbn [this_registry with_clock].
  rewrite Hreg. unfold bind at 1, set_prop at 1.
  reflexivity.
Qed.

(** whatever the disk does, [save] stamps the registry object, changes
    nothing else of it, and stays within the model *)
Lemma save_memory m id ps :
  this_registry m = JS.VObj id ps ->
  this_registry (snd (save rp m)) = stamped id ps m
  /\ forall w, fst (save rp m) = Abort w -> w = Killed.
Proof.
  intros Hreg. rewrite (save_unfold m id ps Hreg).
  destruct (save_from_mkdir_memory
              (with_registry (stamped id ps m) (with_clock (S (clock m)) m)))
    as [Hr Hw].
  split; [rewrite Hr; reflexivity|exact Hw].
Qed.

End RegistryMemory.

(** ** Persistence of the registry (registry.ts) *)

Section RegistryPersistence.

Import RegistryManager.

Variable rp : string.
Hypothesis Hproper : proper_path rp = true.

Let dir := Path.dirname rp.
Let tmp := tempPath rp.
Let bak := backupPath rp.
Let old := oldBackupPath rp.

Lemma suffix_neq a b : a <> b -> rp +:+ a <> rp +:+ b.
Proof. intros H E. apply H. exact (append_inv_head _ _ _ E). Qed.

Lemma paths_distinct :
  rp <> tmp /\ rp <> bak /\ rp <> old /\ tmp <> bak /\ tmp <> old /\ bak <> old
  /\ dir <> rp /\ dir <> tmp /\ dir <> bak /\ dir <> old.
Proof.
  unfold proper_path in Hproper. fold dir in Hproper.
  apply andb_prop in Hproper as [H H4]. apply andb_prop in H as [H H3].
  apply andb_prop in H as [H1 H2].
  apply negb_true_iff, String.eqb_neq in H1, H2, H3, H4.
  unfold tmp, bak, old, tempPath, backupPath, oldBackupPath.
  rewrite <- (append_nil_r rp) at 1 3 5.
  repeat split; try (apply suffix_neq; discriminate); assumption.
Qed.

Lemma wp_JSON_parse_Text j m Q :
  (forall v n, Q (Ok v) (with_nextId n m)) -> wp (JSON_parse (Text j)) m Q.
Proof.
  intros H. unfold wp, JSON_parse. destruct (JS.revive j (nextId m)). apply H.
Qed.

Ltac wp_step :=
  lazymatch goal with
  | |- wp (bind _ _) _ _ => apply wp_bind
  | |- wp (try_catch _ _) _ _ => apply wp_try_catch
  | |- wp (ret _) _ _ => apply wp_ret
  | |- wp (throw _) _ _ => apply wp_throw
  | |- wp get_registry _ _ => apply wp_get_registry
  | |- wp (set_registry _) _ _ => apply wp_set_registry
  | |- wp (JSON_parse (Text _)) _ _ => apply wp_JSON_parse_Text; intros ? ?
  | |- wp (JSON_parse (Opaque _)) _ _ => apply wp_throw
  end;
  cbv beta iota;
  cbn [fs faults trace nextId clock network this_registry
       with_nextId with_registry with_clock].

Ltac distinct := assumption || (apply not_eq_sym; assumption).

Ltac lookups H :=
  repeat first [ rewrite lookup_insert_eq in H
               | rewrite lookup_delete_eq in H
               | rewrite lookup_insert_ne in H by distinct
               | rewrite lookup_delete_ne in H by distinct ].

Ltac lookups_goal :=
  repeat first [ rewrite lookup_insert_eq
               | rewrite lookup_delete_eq
               | rewrite lookup_insert_ne by distinct
               | rewrite lookup_delete_ne by distinct ].

(** the events of a successful [save], cut at the three of the commit *)
Ltac trace_split :=
  first [ refine (ex_intro _ [_] (ex_intro _ [_] _)); reflexivity
        | refine (ex_intro _ [_; _] (ex_intro _ [_] _)); reflexivity
        | refine (ex_intro _ [_] (ex_intro _ [_; _] _)); reflexivity
        | refine (ex_intro _ [_; _] (ex_intro _ [_; _] _)); reflexivity ].

Ltac leaf :=
  repeat match goal with
         | |- _ /\ _ => split
         | |- forall _, _ => intro
         | |- exists _ : list event, _ => trace_split
         | |- exists _ : bool, _ => do 2 eexists; split; [reflexivity|]
         | |- exists _ : Z, _ = _ => eexists; reflexivity
         | |- _ = _ => reflexivity || assumption || congruence
         | |- _ \/ _ =>
             first [ left; solve [leaf] | right; solve [leaf] ]
         | |- exists _ : content, _ => do 2 eexists; split; [eassumption|reflexivity]
         end.

(** the cases of what a call did, read off the disk it ran on *)
Ltac run_cases :=
  repeat match goal with
         | H : match ?f !! ?p with _ => _ end = inr _ |- _ =>
             let E := fresh "E" in
             destruct (f !! p) as [[| |]|] eqn:E; try discriminate
         | H : inr _ = inr _ |- _ => injection H as <- <-
         | H : inl _ = inr _ |- _ => discriminate H
         end.

Ltac fs_call :=
  apply wp_call;
  [ let m1 := fresh "m" in let H := fresh "Hrun" in
    intros m1 ? ? (? & ? & ? & ?) H ? ?; destruct m1;
    cbn [fs faults trace nextId clock network this_registry
         with_nextId with_registry with_clock] in *; subst;
    lookups H; run_cases
  | let m1 := fresh "m" in
    intros m1 ? (? & ? & ? & ?) ? ?; destruct m1;
    cbn [fs faults trace nextId clock network this_registry] in *; subst
  | let m1 := fresh "m" in
    intros m1 (? & ? & ? & ?) ? ?; destruct m1;
    cbn [fs faults trace nextId clock network this_registry] in *; subst ];
  cbv beta iota.

Lemma save_from_mkdir_spec m reg doc :
  this_registry m = reg -> JS.stringify reg = Some doc ->
  wp (save_from_mkdir rp) m (save_post rp m reg doc).
Proof.
  intros Hreg Hdoc.
  destruct paths_distinct as (D1 & D2 & D3 & D4 & D5 & D6 & D7 & D8 & D9 & D10).
  destruct m as [f fl tr nid clk net reg0]. simpl in Hreg. subst reg0.
  unfold save_from_mkdir. fold dir tmp bak old.
  repeat first [ wp_step | fs_call
               | progress (unfold JSON_stringify; rewrite Hdoc) ].
  all: unfold save_post; fold dir tmp bak;
    cbn [fs faults trace nextId clock network this_registry
         with_nextId with_registry with_clock].
  all: (split; [reflexivity|]).
  all: unfold id; lookups_goal.
  all: try solve [leaf].
  all: repeat match goal with
              | |- context [match ?g !! ?p with _ => _ end] =>
                  destruct (g !! p) as [[| |]|] eqn:?
              end;
       lookups_goal; solve [leaf].
Qed.







Lemma save_contract m id ps :
  this_registry m = JS.VObj id ps ->
  exists doc,
    JS.stringify (stamped id ps m) = Some doc
    /\ save_post rp m (stamped id ps m) doc (fst (save rp m)) (snd (save rp m)).
Proof.
  intros Hreg.
  destruct (JS.stringify (stamped id ps m)) as [doc|] eqn:Hdoc; [|discriminate].
  exists doc. split; [reflexivity|].
  rewrite (save_unfold rp _ _ _ Hreg).
  exact (save_from_mkdir_spec
           (with_registry (stamped id ps m) (with_clock (S (clock m)) m))
           (stamped id ps m) doc eq_refl Hdoc).
Qed.






End RegistryPersistence.




(** ** Loading the registry (registry.ts) *)

Section RegistryLoading.

Import RegistryManager.

Variable rp : string.

Lemma own_assign_eq k v ps : JS.own k (JS.assign k v ps) = Some v.
Proof.
  induction ps as [|[k' v'] ps IH]; simpl.
  - rewrite String.eqb_refl. reflexivity.
  - destruct (String.eqb k' k) eqn:E; simpl.
    + rewrite String.eqb_refl. reflexivity.
    + rewrite E. exact IH.
Qed.

Lemma own_assign_ne k k' v ps : k <> k' -> JS.own k' (JS.assign k v ps) = JS.own k' ps.
Proof.
  intros Hne. induction ps as [|[k0 v0] ps IH]; simpl.
  - apply String.eqb_neq in Hne. rewrite Hne. reflexivity.
  - destruct (String.eqb k0 k) eqn:E; simpl.
    + apply String.eqb_eq in E. subst k0.
      apply String.eqb_neq in Hne. rewrite Hne. reflexivity.
    + rewrite IH. reflexivity.
Qed.

Lemma valid_is_object v : isValidRegistry v = true -> exists id ps, v = JS.VObj id ps.
Proof.
  unfold isValidRegistry. destruct v as [| |[]|n|[]|k|id ps]; try discriminate; [| |eauto].
  - cbn. destruct (n =? 0); discriminate.
  - cbn. destruct (String.eqb k "__proto__"); discriminate.
Qed.

Lemma valid_stamped id ps m :
  isValidRegistry (JS.VObj id ps) = true -> isValidRegistry (stamped id ps m) = true.
Proof.
  unfold isValidRegistry, stamped, field, JS.get.
  rewrite own_assign_eq, !own_assign_ne by discriminate.
  cbn [JS.truthy JS.typeof]. intros H.
  apply andb_prop in H as [H _]. rewrite H. reflexivity.
Qed.




Lemma wp_JSON_parse c m Q :
  (forall v n, Q (Ok v) (with_nextId n m)) -> (forall e, Q (Throw e) m) ->
  wp (JSON_parse c) m Q.
Proof.
  intros HOk HThrow. destruct c as [j|b]; [|apply HThrow].
  unfold wp, JSON_parse. destruct (JS.revive j (nextId m)). apply HOk.
Qed.





(** ** The steps of [load] *)








End RegistryLoading.




(** ** Entries and aliases (registry.ts) *)

Section RegistryEntries.

Import RegistryManager.

Variable rp : string.

Lemma own_remove k k' ps :
  JS.own k' (JS.remove k ps) = if String.eqb k k' then None else JS.own k' ps.
Proof.
  induction ps as [|[k0 v0] ps IH]; simpl.
  - destruct (String.eqb k k'); reflexivity.
  - destruct (String.eqb k0 k) eqn:E.
    + apply String.eqb_eq in E. subst k0. rewrite IH.
      destruct (String.eqb k k'); reflexivity.
    + simpl. rewrite IH. destruct (String.eqb k0 k') eqn:E'; [|reflexivity].
      apply String.eqb_eq in E'. subst k0. rewrite String.eqb_sym, E. reflexivity.
Qed.

Lemma bind_Ok {A B} (c : M A) (k : A -> M B) m a m1 :
  c m = (Ok a, m1) -> bind c k m = k a m1.
Proof. intros H. unfold bind. rewrite H. reflexivity. Qed.

Lemma load_memo m :
  JS.truthy (this_registry m) = true -> load rp m = (Ok (this_registry m), m).
Proof. intros H. unfold load, bind, get_registry. rewrite H. reflexivity. Qed.

Lemma loaded_with_entries m rid rps eid eps :
  loaded (with_entries m rid rps eid eps) rid
    (JS.assign "entries" (JS.VObj eid eps) rps) eid eps.
Proof. split; [reflexivity|apply own_assign_eq]. Qed.

Lemma entry_at_loaded m rid rps eid eps k :
  loaded m rid rps eid eps -> entry_at m k = JS.own k eps.
Proof. intros [Hr He]. unfold entry_at. rewrite Hr, He. reflexivity. Qed.

Lemma get_entry_loaded m rid rps eid eps k :
  loaded m rid rps eid eps -> get_entry k m = (Ok (read eps k), m).
Proof.
  intros [Hr He]. unfold get_entry, bind, get_registry, lift. rewrite Hr.
  cbn [JS.get]. rewrite He. cbn [ret JS.get].
  unfold read. destruct (JS.own k eps); reflexivity.
Qed.

Lemma delete_entry_loaded m rid rps eid eps k :
  loaded m rid rps eid eps ->
  delete_entry k m = (Ok tt, with_entries m rid rps eid (JS.remove k eps)).
Proof.
  intros [Hr He]. unfold delete_entry, bind, get_registry, lift. rewrite Hr.
  cbn [JS.get]. rewrite He. reflexivity.
Qed.

Lemma set_entry_loaded m rid rps eid eps k x :
  loaded m rid rps eid eps -> k <> "__proto__" ->
  set_entry k x m = (Ok tt, with_entries m rid rps eid (JS.assign k x eps)).
Proof.
  intros [Hr He] Hk. unfold set_entry, bind, get_registry, lift. rewrite Hr.
  cbn [JS.get]. rewrite He. cbn [ret set_prop].
  apply String.eqb_neq in Hk. rewrite Hk. reflexivity.
Qed.

Lemma assign_assign k v v' ps : JS.assign k v (JS.assign k v' ps) = JS.assign k v ps.
Proof.
  induction ps as [|[k0 v0] ps IH]; simpl.
  - rewrite String.eqb_refl. reflexivity.
  - destruct (String.eqb k0 k) eqn:E; simpl.
    + rewrite String.eqb_refl. reflexivity.
    + rewrite E, IH. reflexivity.
Qed.

(** [save] stamps the registry object and leaves its entries alone *)
Lemma save_loaded m rid rps eid eps :
  loaded m rid rps eid eps ->
  exists rps', loaded (snd (save rp m)) rid rps' eid eps.
Proof.
  intros [Hr He].
  destruct (save_memory rp m rid rps Hr) as [Hr' _].
  eexists. split; [exact Hr'|].
  rewrite own_assign_ne by discriminate. exact He.
Qed.

Lemma strict_eq_object eps k id fields :
  JS.strict_eq (read eps k) (JS.VObj id fields) = same_object (JS.own k eps) id.
Proof.
  unfold read, same_object. destruct (JS.own k eps) as [[]|]; try reflexivity.
  destruct (JS.inherited k); reflexivity.
Qed.

Lemma removeEntry_memory m rid rps eid eps name id fields repo :
  loaded m rid rps eid eps ->
  JS.own name eps = Some (JS.VObj id fields) ->
  JS.own "repo" fields = Some (JS.VStr repo) ->
  exists rps', loaded (snd (removeEntry rp name m)) rid rps' eid
                 (entries_after_remove eps name repo id).
Proof.
  intros Hl Hname Hrepo. pose proof Hl as [Hr He].
  unfold removeEntry.
  rewrite (bind_Ok _ _ _ _ _ (load_memo m ltac:(rewrite Hr; reflexivity))).
  rewrite (bind_Ok _ _ _ _ _ (get_entry_loaded _ _ _ _ _ name Hl)).
  unfold read. rewrite Hname. cbn [JS.truthy negb].
  rewrite (bind_Ok _ _ _ _ _ (delete_entry_loaded _ _ _ _ _ name Hl)).
  set (m1 := with_entries m rid rps eid (JS.remove name eps)).
  assert (Hl1 : loaded m1 rid _ eid (JS.remove name eps))
    by apply loaded_with_entries.
  unfold bind at 1, lift, JS.get. rewrite Hrepo. cbn [ret].
  unfold bind at 1. cbn [split_value ret].
  unfold entries_after_remove, alias_key.
  destruct (second (Str.split_slash repo)) as [repoName|].
  - rewrite String.eqb_refl, andb_true_r.
    destruct (Str.nonempty repoName && negb (String.eqb repoName name))%bool.
    + unfold bind at 1.
      rewrite (bind_Ok _ _ _ _ _ (get_entry_loaded _ _ _ _ _ repoName Hl1)).
      rewrite strict_eq_object. cbn [andb].
      destruct (same_object _ id).
      * rewrite (delete_entry_loaded _ _ _ _ _ repoName Hl1).
        unfold with_entries, m1. cbn [with_registry]. rewrite assign_assign.
        unfold bind.
        destruct (save_loaded (with_entries m rid rps eid
                                 (JS.remove repoName (JS.remove name eps)))
                    rid _ eid _ (loaded_with_entries _ _ _ _ _)) as [rps' Hl'].
        unfold with_entries in Hl'. cbn [with_registry] in Hl'.
        destruct (save rp _) as [[[]|e|w] m2]; exists rps'; exact Hl'.
      * unfold bind. cbn [ret].
        destruct (save_loaded m1 rid _ eid _ Hl1) as [rps' Hl'].
        destruct (save rp m1) as [[[]|e|w] m2]; exists rps'; exact Hl'.
    + cbn [andb]. unfold bind. cbn [ret].
      destruct (save_loaded m1 rid _ eid _ Hl1) as [rps' Hl'].
      destruct (save rp m1) as [[[]|e|w] m2]; exists rps'; exact Hl'.
  - unfold bind. cbn [ret].
    destruct (save_loaded m1 rid _ eid _ Hl1) as [rps' Hl'].
    destruct (save rp m1) as [[[]|e|w] m2]; exists rps'; exact Hl'.
Qed.

Lemma entry_at_after_remove m rid rps eid eps name id fields repo :
  loaded m rid rps eid eps ->
  JS.own name eps = Some (JS.VObj id fields) ->
  JS.own "repo" fields = Some (JS.VStr repo) ->
  let m' := snd (removeEntry rp name m) in
  entry_at m' name = None
  /\ forall k, k <> name ->
       entry_at m' k
       = if (alias_key repo name k && same_object (entry_at m k) id)%bool
         then None else entry_at m k.
Proof.
  intros Hl Hname Hrepo m'.
  destruct (removeEntry_memory m rid rps eid eps name id fields repo Hl Hname Hrepo)
    as [rps' Hl'].
  fold m' in Hl'.
  assert (Hother : forall k, k <> name -> JS.own k (JS.remove name eps) = JS.own k eps).
  { intros k Hk. rewrite own_remove.
    apply not_eq_sym, String.eqb_neq in Hk. rewrite Hk. reflexivity. }
  unfold entries_after_remove, alias_key in Hl'. split.
  - rewrite (entry_at_loaded _ _ _ _ _ name Hl').
    destruct (second (Str.split_slash repo)) as [a|].
    + destruct (Str.nonempty a && negb (String.eqb a name) && String.eqb a a
                && same_object (JS.own a (JS.remove name eps)) id)%bool eqn:C.
      * rewrite own_remove. destruct (String.eqb a name); [reflexivity|].
        rewrite own_remove, String.eqb_refl. reflexivity.
      * rewrite own_remove, String.eqb_refl. reflexivity.
    + rewrite own_remove, String.eqb_refl. reflexivity.
  - intros k Hk. rewrite (entry_at_loaded _ _ _ _ _ k Hl'), (entry_at_loaded _ _ _ _ _ k Hl).
    unfold alias_key. destruct (second (Str.split_slash repo)) as [a|].
    + rewrite String.eqb_refl, andb_true_r.
      destruct (String.eqb a k) eqn:Eak.
      * apply String.eqb_eq in Eak. subst a. rewrite andb_true_r, (Hother k Hk).
        destruct (Str.nonempty k && negb (String.eqb k name) && same_object _ id)%bool.
        -- rewrite own_remove, String.eqb_refl. reflexivity.
        -- apply Hother, Hk.
      * rewrite andb_false_r. cbn [andb].
        destruct (Str.nonempty a && negb (String.eqb a name) && same_object _ id)%bool.
        -- rewrite own_remove, Eak. apply Hother, Hk.
        -- apply Hother, Hk.
    + cbn [andb]. apply Hother, Hk.
Qed.

Lemma addEntry_memory m rid rps eid eps binaryName repo version platform :
  loaded m rid rps eid eps ->
  binaryName <> "__proto__" -> second (Str.split_slash repo) <> Some "__proto__" ->
  exists rps', loaded (snd (addEntry rp binaryName repo version platform m)) rid rps' eid
                 (entries_after_add eps binaryName repo
                    (new_entry m binaryName repo version platform)).
Proof.
  intros Hl Hname Halias. pose proof Hl as [Hr He].
  unfold addEntry.
  rewrite (bind_Ok _ _ _ _ _ (load_memo m ltac:(rewrite Hr; reflexivity))).
  unfold bind at 1, now at 1. unfold bind at 1, now at 1. unfold bind at 1, fresh at 1.
  cbn [clock with_clock nextId].
  set (m0 := with_nextId _ _).
  assert (Hl0 : loaded m0 rid rps eid eps) by (split; [exact Hr|exact He]).
  fold (new_entry m binaryName repo version platform).
  set (entry := new_entry m binaryName repo version platform).
  rewrite (bind_Ok _ _ _ _ _ (set_entry_loaded _ _ _ _ _ binaryName entry Hl0 Hname)).
  set (m1 := with_entries m0 rid rps eid (JS.assign binaryName entry eps)).
  assert (Hl1 : loaded m1 rid _ eid (JS.assign binaryName entry eps))
    by apply loaded_with_entries.
  unfold entries_after_add.
  destruct (second (Str.split_slash repo)) as [repoName|].
  - destruct (Str.nonempty repoName && negb (String.eqb repoName binaryName))%bool.
    + assert (repoName <> "__proto__") as Hp by congruence.
      rewrite (bind_Ok _ _ _ _ _ (set_entry_loaded _ _ _ _ _ repoName entry Hl1 Hp)).
      unfold with_entries, m1. cbn [with_registry]. rewrite assign_assign.
      apply (save_loaded (with_entries m0 rid rps eid _) rid _ eid _
               (loaded_with_entries _ _ _ _ _)).
    + unfold bind at 1. cbn [ret]. apply (save_loaded m1 rid _ eid _ Hl1).
  - unfold bind at 1. cbn [ret]. apply (save_loaded m1 rid _ eid _ Hl1).
Qed.

Lemma entry_at_after_add m rid rps eid eps binaryName repo version platform :
  loaded m rid rps eid eps ->
  binaryName <> "__proto__" -> second (Str.split_slash repo) <> Some "__proto__" ->
  forall k,
    entry_at (snd (addEntry rp binaryName repo version platform m)) k
    = if stored_under binaryName repo k
      then Some (new_entry m binaryName repo version platform)
      else entry_at m k.
Proof.
  intros Hl Hname Halias k.
  destruct (addEntry_memory m rid rps eid eps binaryName repo version platform
              Hl Hname Halias) as [rps' Hl'].
  rewrite (entry_at_loaded _ _ _ _ _ k Hl'), (entry_at_loaded _ _ _ _ _ k Hl).
  unfold entries_after_add, stored_under, alias_key.
  set (entry := new_entry m binaryName repo version platform).
  assert (Hbase : JS.own k (JS.assign binaryName entry eps)
                  = if String.eqb binaryName k then Some entry else JS.own k eps).
  { destruct (String.eqb binaryName k) eqn:E.
    - apply String.eqb_eq in E. subst k. apply own_assign_eq.
    - apply String.eqb_neq in E. apply own_assign_ne, E. }
  destruct (second (Str.split_slash repo)) as [a|];
    [|rewrite orb_false_r; exact Hbase].
  destruct (Str.nonempty a && negb (String.eqb a binaryName))%bool; cbn [andb].
  - destruct (String.eqb a k) eqn:E.
    + apply String.eqb_eq in E. subst k. rewrite own_assign_eq, orb_true_r. reflexivity.
    + apply String.eqb_neq in E. rewrite own_assign_ne, orb_false_r by exact E.
      exact Hbase.
  - rewrite orb_false_r. exact Hbase.
Qed.

Lemma entry_at_inv m k v :
  entry_at m k = Some v ->
  exists rid rps eid eps, loaded m rid rps eid eps /\ JS.own k eps = Some v.
Proof.
  unfold entry_at, loaded.
  destruct (this_registry m) as [| | | | | |rid rps]; try discriminate.
  destruct (JS.own "entries" rps) as [[| | | | | |eid eps]|] eqn:E; try discriminate.
  intros H. exists rid, rps, eid, eps. auto.
Qed.

Lemma removeEntry_alias m name id fields repo :
  entry_at m name = Some (JS.VObj id fields) ->
  JS.own "repo" fields = Some (JS.VStr repo) ->
  let m' := snd (removeEntry rp name m) in
  entry_at m' name = None
  /\ forall k, k <> name ->
       entry_at m' k
       = if (alias_key repo name k && same_object (entry_at m k) id)%bool
         then None else entry_at m k.
Proof.
  intros Hentry Hrepo.
  apply entry_at_inv in Hentry as (rid & rps & eid & eps & Hl & Hname).
  exact (entry_at_after_remove m rid rps eid eps name id fields repo Hl Hname Hrepo).
Qed.

Lemma stored_under_distinct binaryName repo k k' :
  stored_under binaryName repo k = false -> stored_under binaryName repo k' = true ->
  k' <> k.
Proof. intros H H' ->. congruence. Qed.

Lemma removeEntry_after_reassignment m name id fields repo
    name2 repo2 version2 platform2 alias :
  entry_at m name = Some (JS.VObj id fields) ->
  JS.own "repo" fields = Some (JS.VStr repo) ->
  (id < nextId m)%nat ->
  name2 <> "__proto__" -> second (Str.split_slash repo2) <> Some "__proto__" ->
  stored_under name2 repo2 name = false ->
  stored_under name2 repo2 alias = true ->
  let m1 := snd (addEntry rp name2 repo2 version2 platform2 m) in
  let m2 := snd (removeEntry rp name m1) in
  entry_at m1 name = Some (JS.VObj id fields)
  /\ entry_at m2 name = None
  /\ entry_at m2 alias = Some (new_entry m name2 repo2 version2 platform2).
Proof.
  intros Hentry Hrepo Hid Hn2 Ha2 Hkeep Hrebind m1 m2.
  pose proof Hentry as Hentry0.
  apply entry_at_inv in Hentry as (rid & rps & eid & eps & Hl & Hname).
  pose proof (entry_at_after_add m rid rps eid eps name2 repo2 version2 platform2
                Hl Hn2 Ha2) as Hadd.
  fold m1 in Hadd.
  assert (H1 : entry_at m1 name = Some (JS.VObj id fields))
    by (rewrite Hadd, Hkeep; exact Hentry0).
  assert (H1a : entry_at m1 alias = Some (new_entry m name2 repo2 version2 platform2))
    by (rewrite Hadd, Hrebind; reflexivity).
  destruct (removeEntry_alias m1 name id fields repo H1 Hrepo) as [Hgone Hrest].
  fold m2 in Hgone, Hrest.
  split; [exact H1|]. split; [exact Hgone|].
  rewrite (Hrest alias (stored_under_distinct _ _ _ _ Hkeep Hrebind)), H1a.
  unfold new_entry at 1, same_object.
  assert (Nat.eqb (nextId m) id = false) as -> by (apply Nat.eqb_neq; lia).
  rewrite andb_false_r. reflexivity.
Qed.

(** removing a name that the entries neither hold nor inherit changes
    nothing and reports [false] *)
Lemma removeEntry_absent m rid rps eid eps name :
  loaded m rid rps eid eps ->
  JS.own name eps = None -> JS.inherited name = false ->
  removeEntry rp name m = (Ok false, m).
Proof.
  intros Hl Hname Hinh. pose proof Hl as [Hr He]. unfold removeEntry.
  rewrite (bind_Ok _ _ _ _ _ (load_memo m ltac:(rewrite Hr; reflexivity))).
  rewrite (bind_Ok _ _ _ _ _ (get_entry_loaded _ _ _ _ _ name Hl)).
  unfold read. rewrite Hname, Hinh. reflexivity.
Qed.

(** removing a name that the entries inherit from [Object.prototype]
    raises a [TypeError] *)
Lemma removeEntry_inherited m rid rps eid eps name :
  loaded m rid rps eid eps ->
  JS.own name eps = None -> JS.inherited name = true ->
  fst (removeEntry rp name m)
  = Throw "TypeError: Cannot read properties of undefined (reading 'split')".
Proof.
  intros Hl Hname Hinh. pose proof Hl as [Hr He]. unfold removeEntry.
  rewrite (bind_Ok _ _ _ _ _ (load_memo m ltac:(rewrite Hr; reflexivity))).
  rewrite (bind_Ok _ _ _ _ _ (get_entry_loaded _ _ _ _ _ name Hl)).
  unfold read. rewrite Hname, Hinh. cbn [JS.truthy negb].
  rewrite (bind_Ok _ _ _ _ _ (delete_entry_loaded _ _ _ _ _ name Hl)).
  reflexivity.
Qed.

End RegistryEntries.

(** C4. For every registry in memory, freshly parsed from disk or not, in
    which [name] holds an entry object with a repository: [removeEntry(name)]
    deletes the key [name]; any other key is deleted exactly when it is the
    repository's short name (the alias) and still holds that very object;
    so after a later [addEntry] of another binary has rebound the alias to
    its own entry, removing the first binary leaves the rebound alias in
    place. This holds whatever becomes of the [save] that follows. *)
Theorem removeEntry_alias_conditional
    (registryPath : string) (m : machine) (name : string) (id : nat) (fields : JS.props) (repo : string)
    (Hentry : entry_at m name = Some (JS.VObj id fields))
    (Hrepo : JS.own "repo" fields = Some (JS.VStr repo)) :
  (let m' := snd (RegistryManager.removeEntry registryPath name m) in
   entry_at m' name = None
   /\ forall k, k <> name ->
        entry_at m' k
        = if (alias_key repo name k && same_object (entry_at m k) id)%bool
          then None else entry_at m k)
  /\ forall name2 repo2 version2 platform2 alias,
       (id < nextId m)%nat ->
       name2 <> "__proto__" -> second (Str.split_slash repo2) <> Some "__proto__" ->
       stored_under name2 repo2 name = false ->
       stored_under name2 repo2 alias = true ->
       let m1 := snd (RegistryManager.addEntry registryPath name2 repo2 version2
                        platform2 m) in
       let m2 := snd (RegistryManager.removeEntry registryPath name m1) in
       entry_at m1 name = Some (JS.VObj id fields)
       /\ entry_at m2 name = None
       /\ entry_at m2 alias = Some (new_entry m name2 repo2 version2 platform2).
Proof.
  split.
  - exact (removeEntry_alias registryPath m name id fields repo Hentry Hrepo).
  - intros. apply (removeEntry_after_reassignment registryPath m name id fields repo);
      assumption.
Qed.

Lemma removeEntry_alias_conditional_witness :
  entry_at machine_with_rg "rg"
  = Some (new_entry machine_loaded "rg" "BurntSushi/ripgrep" "v14.1.1"
               linux_platform_value)
  /\ entry_at machine_with_rg "ripgrep" = entry_at machine_with_rg "rg"
  /\ entry_at (snd (RegistryManager.removeEntry sample_registryPath "rg" machine_with_rg))
       "rg" = None
  /\ entry_at (snd (RegistryManager.removeEntry sample_registryPath "rg" machine_with_rg))
       "ripgrep" = None.
Proof.
  assert (Hentry : entry_at machine_with_rg "rg"
                   = Some (new_entry machine_loaded "rg" "BurntSushi/ripgrep" "v14.1.1"
                             linux_platform_value))
    by (vm_compute; reflexivity).
  destruct (removeEntry_alias_conditional sample_registryPath machine_with_rg
              "rg" _ _ "BurntSushi/ripgrep" Hentry eq_refl) as [[Hgone Hrest] _].
  split; [exact Hentry|].
  split; [vm_compute; reflexivity|]. split; [exact Hgone|].
  rewrite (Hrest "ripgrep") by discriminate.
  vm_compute. reflexivity.
Defined.

(** Read back from disk, the two keys hold two objects: removing [rg] then
    leaves [ripgrep] in place. *)
Example removeEntry_after_reload :
  same_object (entry_at machine_with_rg_reloaded "rg") 12 = true
  /\ same_object (entry_at machine_with_rg_reloaded "ripgrep") 14 = true
  /\ entry_at (snd (RegistryManager.removeEntry sample_registryPath "rg"
                      machine_with_rg_reloaded)) "rg" = None
  /\ entry_at (snd (RegistryManager.removeEntry sample_registryPath "rg"
                      machine_with_rg_reloaded)) "ripgrep"
     = entry_at machine_with_rg_reloaded "ripgrep".
Proof. vm_compute. repeat split; reflexivity. Qed.

(** C10 fails on the code at a name that the entries object inherits from
    [Object.prototype]: [constructor] is no key of the registry, yet
    [removeEntry] takes the inherited function for the entry and raises a
    [TypeError] where it reads the repository of the entry; neither the
    memory nor the disk has changed. *)
Theorem removeEntry_inherited_name_raises :
  entry_at machine_loaded "constructor" = None
  /\ RegistryManager.removeEntry sample_registryPath "constructor" machine_loaded
     = (Throw "TypeError: Cannot read properties of undefined (reading 'split')",
        machine_loaded).
Proof. vm_compute. split; reflexivity. Qed.

(** a name that is simply absent, for comparison *)
Example removeEntry_absent_name :
  RegistryManager.removeEntry sample_registryPath "nonexistent" machine_loaded
  = (Ok false, machine_loaded).
Proof. vm_compute. reflexivity. Qed.

(** ** Download with retry (downloader.ts) *)

Section DownloadRetry.

Variable retries : Z.
Variables url tempDir tempFile : string.

Lemma waits_log e m :
  waits (log e m) = waits m ++ match e with EvSleep ms => [ms] | _ => [] end.
Proof.
  unfold waits. cbn [trace log List.rev]. rewrite List.flat_map_app.
  cbn [List.flat_map]. rewrite List.app_nil_r. reflexivity.
Qed.

Lemma waits_log_fs op ok m : waits (log (EvFs op ok) m) = waits m.
Proof. rewrite waits_log. apply List.app_nil_r. Qed.

Lemma backoff_S a n : backoff a (S n) = 2 ^ (a + 1) * 1000 :: backoff (a + 1) n.
Proof.
  unfold backoff. cbn [List.seq List.map]. rewrite Z.add_0_r. f_equal.
  rewrite <- List.seq_shift, List.map_map. apply List.map_ext.
  intros i. f_equal. f_equal. lia.
Qed.

(** the waits grow strictly *)
Lemma backoff_increasing n : forall a, 0 <= a -> StronglySorted Z.lt (backoff a n).
Proof.
  induction n as [|n IH]; intros a Ha.
  - constructor.
  - rewrite backoff_S. constructor; [apply IH; lia|].
    apply List.Forall_forall. intros x Hx.
    apply List.in_map_iff in Hx as (i & <- & _).
    apply Z.mul_lt_mono_pos_r; [lia|].
    apply Z.pow_lt_mono_r; lia.
Qed.

(** a request that fails creates at most the file, and waits for nothing *)
Lemma download_fails m :
  forallb failing (network m) = true ->
  exists e m1,
    (Downloader.downloadWithProgress url tempFile ;; ret tempFile) m = (Throw e, m1)
    /\ waits m1 = waits m
    /\ forallb failing (network m1) = true.
Proof.
  intros Hnet. unfold bind, Downloader.downloadWithProgress.
  destruct (network m) as [|[body|e|partial e] rs]; cbn [List.tl].
  - eexists _, _. split; [reflexivity|].
    rewrite waits_log, List.app_nil_r. split; reflexivity.
  - discriminate Hnet.
  - eexists _, _. split; [reflexivity|].
    rewrite waits_log, List.app_nil_r. split; [reflexivity|exact Hnet].
  - destruct (Fs.open_for_writing _ tempFile) as [e'|mode];
      (eexists _, _; split; [reflexivity|]);
      rewrite waits_log, List.app_nil_r; (split; [reflexivity|exact Hnet]).
Qed.

(** the clean-up after the last attempt waits for nothing *)
Lemma cleanup_waits :
  preserves waits
    (try_catch (Fs.unlink tempFile ;; Fs.rmdir tempDir) (fun _ => ret tt)).
Proof.
  unfold Fs.unlink, Fs.rmdir.
  repeat first
    [ reflexivity | apply waits_log_fs
    | apply preserves_bind | apply preserves_try_catch | apply preserves_call
    | apply preserves_ret | intro ].
Qed.

(** As long as every request fails, the loop makes [retries] attempts in
    all, waits 2^attempt seconds after each but the last, and ends in an
    exception (unless the process is killed during the clean-up). *)
Lemma download_loop_backoff fuel : forall a m,
  0 <= a < retries ->
  (Z.to_nat (retries - a) <= fuel)%nat ->
  forallb failing (network m) = true ->
  let run := Downloader.download_loop retries fuel url tempDir tempFile a m in
  waits (snd run) = waits m ++ backoff a (Z.to_nat (retries - a - 1))
  /\ ((exists e, fst run = Throw e) \/ fst run = Abort Killed).
Proof.
  induction fuel as [|fuel IH]; intros a m Ha Hfuel Hnet; [lia|].
  cbv zeta.
  destruct (Downloader.download_loop retries (S fuel) url tempDir tempFile a m)
    as [r m'] eqn:R.
  cbn [fst snd]. cbn [Downloader.download_loop] in R. cbv zeta in R.
  rewrite (proj2 (Z.ltb_lt a retries)) in R by lia.
  unfold try_catch at 1 in R.
  destruct (download_fails m Hnet) as (e & m1 & Hdl & Hw & Hnet1).
  rewrite Hdl in R.
  destruct (retries <=? a + 1) eqn:E.
  - apply Z.leb_le in E. replace (retries - a - 1) with 0 by lia.
    cbn [Z.to_nat backoff List.seq List.map]. rewrite List.app_nil_r.
    destruct (cleanup_waits m1) as [Hw1 Hk]. unfold bind at 1 in R.
    destruct (try_catch _ _ m1) as [[[]|e'|w] m2];
      cbn [fst snd] in *; unfold throw in R; injection R as <- <-.
    + split; [congruence|]. left. eexists. reflexivity.
    + split; [congruence|]. left. eexists. reflexivity.
    + split; [congruence|]. right. rewrite (Hk w eq_refl). reflexivity.
  - apply Z.leb_gt in E. unfold bind at 1, Downloader.sleep at 1 in R.
    destruct (IH (a + 1) (log (EvSleep (2 ^ (a + 1) * 1000)) m1)) as [Hw2 Hr];
      [lia|lia|exact Hnet1|].
    rewrite R in Hw2, Hr. cbn [fst snd] in Hw2, Hr. split; [|exact Hr].
    rewrite Hw2, waits_log, Hw, <- List.app_assoc. cbn [List.app].
    replace (Z.to_nat (retries - a - 1))
      with (S (Z.to_nat (retries - (a + 1) - 1))) by lia.
    rewrite backoff_S. reflexivity.
Qed.

End DownloadRetry.

(** C3 fails on the code when no attempt got as far as creating the file:
    after the third refused request the clean-up unlinks the temporary
    file first; that fails, for there is no file, and the [rmdir] that
    follows it in the same [try] block is skipped. The call raises the
    last error, and the temporary directory stays behind. The waits
    between the attempts were 2 s and 4 s, as [download_loop_backoff] has
    them for every number of retries. *)
Theorem downloadAsset_leaves_temp_directory :
  let run := Downloader.downloadAsset 3 "/tmp" (asset_named "tool-linux-x64.tar.gz")
               machine_offline in
  fst run = Throw "Request failed with status code 404"
  /\ fs (snd run) !! "/tmp/gpx-0" = Some Dir
  /\ List.rev (trace (snd run))
     = [EvFs (OpMkdtemp "/tmp/gpx-0") true;
        EvDownload "https://example.com/tool-linux-x64.tar.gz"
          "/tmp/gpx-0/tool-linux-x64.tar.gz" false;
        EvSleep 2000;
        EvDownload "https://example.com/tool-linux-x64.tar.gz"
          "/tmp/gpx-0/tool-linux-x64.tar.gz" false;
        EvSleep 4000;
        EvDownload "https://example.com/tool-linux-x64.tar.gz"
          "/tmp/gpx-0/tool-linux-x64.tar.gz" false;
        EvFs (OpUnlink "/tmp/gpx-0/tool-linux-x64.tar.gz") false].
Proof. vm_compute. repeat split; reflexivity. Qed.


(** * Further properties *)

(** ** Which assets can be selected (platform.ts) *)

Section Eligibility.

Import PlatformMatcher.

Lemma scoreAsset_eligible asset osPatterns archPatterns :
  if eligible osPatterns asset
  then 5 <= scoreAsset asset osPatterns archPatterns <= 27
  else scoreAsset asset osPatterns archPatterns = 0.
Proof.
  unfold eligible, scoreAsset. cbv zeta.
  set (filename := Str.toLowerCase (name asset)).
  destruct (Str.includes "source" filename) eqn:Hsrc.
  { cbn [orb negb]. rewrite andb_false_r. reflexivity. }
  assert (E1 : String.eqb filename "source.tar.gz" = false).
  { destruct (String.eqb_spec filename "source.tar.gz") as [E|]; [|reflexivity].
    rewrite E in Hsrc. discriminate Hsrc. }
  assert (E2 : String.eqb filename "source.zip" = false).
  { destruct (String.eqb_spec filename "source.zip") as [E|]; [|reflexivity].
    rewrite E in Hsrc. discriminate Hsrc. }
  rewrite E1, E2.
  destruct (some_includes osPatterns filename), (some_includes archPatterns filename),
    (Str.endsWith ".tar.gz" filename), (Str.endsWith ".zip" filename),
    (Str.includes "sha256" filename), (Str.includes "sig" filename),
    (Str.includes "asc" filename), (Str.includes "debug" filename),
    (Str.includes "dev" filename);
    cbn [orb andb negb]; first [reflexivity | lia].
Qed.

Lemma sort_In {A} (compare : A -> A -> Z) (l : list A) x :
  In x (sort compare l) <-> In x l.
Proof.
  assert (Hins : forall y r, In x (sort_insert compare y r) <-> x = y \/ In x r).
  { intros y r. induction r as [|z r IH]; cbn [sort_insert].
    - simpl. intuition.
    - destruct (compare y z <=? 0); simpl in *; intuition. }
  induction l as [|y l IH]; [reflexivity|].
  unfold sort in *. cbn [List.fold_right]. rewrite Hins, IH. simpl. intuition.
Qed.

End Eligibility.

(** X1. [findMatchingAsset] returns an asset of the list whose name, in
    lower case, contains one of the OS patterns of the platform and none
    of [source], [sha256], [sig], [asc]; it returns [null] exactly when the
    list has no such asset. *)
Theorem findMatchingAsset_eligible (assets : list GitHubAsset) (platform : Platform) :
  match PlatformMatcher.findMatchingAsset assets platform with
  | Some best =>
      In best assets
      /\ eligible (PlatformMatcher.getOSPatterns (os platform)) best = true
  | None =>
      forall a, In a assets ->
                eligible (PlatformMatcher.getOSPatterns (os platform)) a = false
  end.
Proof.
  unfold PlatformMatcher.findMatchingAsset. cbv zeta.
  set (osP := PlatformMatcher.getOSPatterns (os platform)).
  set (archP := PlatformMatcher.getArchPatterns (arch platform)).
  destruct (PlatformMatcher.sort _ _) as [|[best s] rest] eqn:E.
  - intros a Ha. destruct (eligible osP a) eqn:El; [exfalso|reflexivity].
    assert (Hin : In (a, PlatformMatcher.scoreAsset a osP archP)
                    (PlatformMatcher.sort (fun a b => snd b - snd a)
                       (List.filter (fun p => 0 <? snd p)
                          (PlatformMatcher.scored osP archP assets)))).
    { apply sort_In, List.filter_In. split.
      - unfold PlatformMatcher.scored. apply List.in_map_iff. eauto.
      - cbn [snd]. pose proof (scoreAsset_eligible a osP archP) as H.
        rewrite El in H. apply Z.ltb_lt. lia. }
    rewrite E in Hin. destruct Hin.
  - assert (Hin : In (best, s)
                    (PlatformMatcher.sort (fun a b => snd b - snd a)
                       (List.filter (fun p => 0 <? snd p)
                          (PlatformMatcher.scored osP archP assets))))
      by (rewrite E; left; reflexivity).
    apply sort_In, List.filter_In in Hin as [Hin Hpos].
    unfold PlatformMatcher.scored in Hin.
    apply List.in_map_iff in Hin as (a & Ha & Hin). injection Ha as -> <-.
    cbn [fst snd] in *. split; [exact Hin|].
    pose proof (scoreAsset_eligible best osP archP) as H.
    destruct (eligible osP best); [reflexivity|].
    apply Z.ltb_lt in Hpos. lia.
Qed.

(** ** Repository names (github.ts) *)

Section RepoNames.

#[local] Arguments String.append !_ _ / : simpl nomatch.

Lemma join_cons sep x y r :
  Str.join sep (x :: y :: r) = x +:+ sep +:+ Str.join sep (y :: r).
Proof. reflexivity. Qed.

Lemma join_split_slash s : Str.join "/" (Str.split_slash s) = s.
Proof.
  unfold Str.split_slash. induction s as [|c t IH]; [reflexivity|].
  cbn [Str.split_on].
  pose proof (split_on_nonempty Str.is_slash t) as Hn.
  destruct (Str.split_on Str.is_slash t) as [|h r] eqn:E; [congruence|].
  unfold Str.is_slash at 1. destruct (Ascii.eqb_spec c "/") as [->|Hne].
  - rewrite join_cons, IH. reflexivity.
  - destruct r as [|h' r].
    + cbn [Str.join] in *. rewrite IH. reflexivity.
    + rewrite join_cons in *. rewrite <- IH. reflexivity.
Qed.

Lemma all_valid_no_slash s : GitHubClient.all_valid s = true -> no_slash s = true.
Proof.
  induction s as [|c t IH]; [reflexivity|]. cbn [GitHubClient.all_valid no_slash].
  intros H. apply andb_prop in H as [Hc Ht]. rewrite (IH Ht), andb_true_r.
  unfold Str.is_slash. destruct (Ascii.eqb_spec c "/") as [->|]; [discriminate Hc|reflexivity].
Qed.

End RepoNames.

(** X2. [parseRepo] accepts exactly the strings [owner/repo] whose two
    parts are non-empty words over letters, digits, [_], [.] and [-], and
    returns the two parts; every other string is rejected with an error. *)
Theorem parseRepo_round_trip (repoString owner repo : string) :
  GitHubClient.parseRepo repoString = inr (owner, repo)
  <-> repoString = owner +:+ "/" +:+ repo
      /\ GitHubClient.validPattern_test owner = true
      /\ GitHubClient.validPattern_test repo = true.
Proof.
  unfold GitHubClient.parseRepo. split.
  - intros H. pose proof (join_split_slash repoString) as J.
    destruct (Str.split_slash repoString) as [|o [|r [|x l]]] eqn:E; try discriminate H.
    destruct (Str.nonempty o), (Str.nonempty r); try discriminate H.
    destruct (GitHubClient.validPattern_test o) eqn:Vo,
             (GitHubClient.validPattern_test r) eqn:Vr; try discriminate H.
    cbn in H. injection H as <- <-. cbn [Str.join] in J.
    auto.
  - intros (-> & Vo & Vr).
    pose proof Vo as Vo'. pose proof Vr as Vr'.
    unfold GitHubClient.validPattern_test in Vo', Vr'.
    apply andb_prop in Vo' as [No Ao]. apply andb_prop in Vr' as [Nr Ar].
    change (owner +:+ "/" +:+ repo) with (owner +:+ String "/" repo).
    rewrite split_slash_app,
      (split_slash_no_slash _ (all_valid_no_slash _ Ao)),
      (split_slash_no_slash _ (all_valid_no_slash _ Ar)).
    cbn [app]. rewrite No, Nr, Vo, Vr. reflexivity.
Qed.

(** ** The executable that is run (runner.ts) *)

(** X3. [chooseBestExecutable] picks one of the candidates, and none only
    when there is none; where some candidate is named exactly as the
    repository (case ignored), has no extension and does not start with
    an underscore, the one picked is of this kind, whatever the order of
    the candidates. *)
Theorem chooseBestExecutable_member (repoName : string) (executables : list string) :
  (GPXRunner.chooseBestExecutable repoName executables = None <-> executables = [])
  /\ (forall exe, GPXRunner.chooseBestExecutable repoName executables = Some exe ->
                  In exe executables)
  /\ (forall candidate,
        In candidate executables ->
        GPXRunner.exact_match repoName candidate = true ->
        exists exe, GPXRunner.chooseBestExecutable repoName executables = Some exe
                    /\ GPXRunner.exact_match repoName exe = true).
Proof.
  assert (Hfind : forall f exe, List.find f executables = Some exe -> In exe executables).
  { intros f exe H. apply List.find_some in H. tauto. }
  assert (Hgen :
    match List.find (GPXRunner.exact_match repoName) executables with
    | Some exe => Some exe
    | None =>
        match List.find (GPXRunner.plain_match repoName) executables with
        | Some exe => Some exe
        | None =>
            match List.find (GPXRunner.binary_match repoName) executables with
            | Some exe => Some exe
            | None =>
                match List.find GPXRunner.in_bin executables with
                | Some exe => Some exe
                | None => List.head executables
                end
            end
        end
    end = GPXRunner.chooseBestExecutable repoName executables
    \/ exists only, executables = [only]
                    /\ GPXRunner.chooseBestExecutable repoName executables = Some only).
  { unfold GPXRunner.chooseBestExecutable.
    destruct executables as [|a [|b l]]; [left; reflexivity|right; eauto|left; reflexivity]. }
  split; [|split].
  - split.
    + intros H. destruct Hgen as [Hg|(only & -> & Hg)]; [|congruence].
      rewrite H in Hg.
      destruct (List.find (GPXRunner.exact_match repoName) executables); [discriminate|].
      destruct (List.find (GPXRunner.plain_match repoName) executables); [discriminate|].
      destruct (List.find (GPXRunner.binary_match repoName) executables); [discriminate|].
      destruct (List.find GPXRunner.in_bin executables); [discriminate|].
      destruct executables; [reflexivity|discriminate].
    + intros ->. reflexivity.
  - intros exe H. destruct Hgen as [Hg|(only & -> & Hg)].
    + rewrite H in Hg.
      destruct (List.find (GPXRunner.exact_match repoName) executables) eqn:F1;
        [injection Hg as ->; eauto|].
      destruct (List.find (GPXRunner.plain_match repoName) executables) eqn:F2;
        [injection Hg as ->; eauto|].
      destruct (List.find (GPXRunner.binary_match repoName) executables) eqn:F3;
        [injection Hg as ->; eauto|].
      destruct (List.find GPXRunner.in_bin executables) eqn:F4;
        [injection Hg as ->; eauto|].
      destruct executables; [discriminate|]. injection Hg as ->. left. reflexivity.
    + rewrite H in Hg. injection Hg as ->. left. reflexivity.
  - intros candidate Hin Hexact.
    destruct Hgen as [Hg|(only & -> & Hg)];
      [|destruct Hin as [<-|[]]; eauto].
    destruct (List.find (GPXRunner.exact_match repoName) executables) eqn:F1.
    + exists s. split; [symmetry; exact Hg|]. apply List.find_some in F1. tauto.
    + exfalso. pose proof (List.find_none _ _ F1 _ Hin) as Hn. congruence.
Qed.

Lemma chooseBestExecutable_member_witness :
  exists exe,
    GPXRunner.chooseBestExecutable "rg"
      ["/t/e/complete/_rg"; "/t/e/doc/rg.1"; "/t/e/rg"] = Some exe
    /\ GPXRunner.exact_match "rg" exe = true.
Proof.
  apply (proj2 (proj2 (chooseBestExecutable_member "rg"
                         ["/t/e/complete/_rg"; "/t/e/doc/rg.1"; "/t/e/rg"]))
           "/t/e/rg").
  - simpl. tauto.
  - vm_compute. reflexivity.
Defined.

(** ** The platforms a release offers (platform.ts) *)

Section AvailablePlatforms.

Import PlatformMatcher.

Let le (a b : string) : Prop := String.compare a b <> Gt.

Lemma ascii_compare_refl c : Ascii.compare c c = Eq.
Proof. unfold Ascii.compare. apply N.compare_refl. Qed.

Lemma compare_le_trans a : forall b c, le a b -> le b c -> le a c.
Proof.
  unfold le. induction a as [|x a IH]; intros [|y b] [|z c]; cbn [String.compare];
    try congruence.
  unfold Ascii.compare.
  destruct (N.compare_spec (N_of_ascii x) (N_of_ascii y)) as [Exy|Lxy|Gxy];
    destruct (N.compare_spec (N_of_ascii y) (N_of_ascii z)) as [Eyz|Lyz|Gyz];
    try congruence.
  - rewrite Exy, Eyz, N.compare_refl. apply IH.
  - intros _ _. rewrite Exy. rewrite (proj2 (N.compare_lt_iff _ _) Lyz). discriminate.
  - intros _ _. rewrite <- Eyz. rewrite (proj2 (N.compare_lt_iff _ _) Lxy). discriminate.
  - intros _ _. rewrite (proj2 (N.compare_lt_iff _ _) (N.lt_trans _ _ _ Lxy Lyz)).
    discriminate.
Qed.

Lemma compare_le_total a b : le a b \/ le b a.
Proof.
  unfold le. rewrite (String.compare_antisym b a).
  destruct (String.compare a b); cbn; [left|left|right]; discriminate.
Qed.

Lemma default_compare_le a b : (Str.default_compare a b <=? 0) = true <-> le a b.
Proof.
  unfold Str.default_compare, le. destruct (String.compare a b); cbn; split;
    congruence.
Qed.

Lemma sort_insert_perm x l :
  Permutation (sort_insert Str.default_compare x l) (x :: l).
Proof.
  induction l as [|y l IH]; cbn [sort_insert]; [reflexivity|].
  destruct (Str.default_compare x y <=? 0); [reflexivity|].
  rewrite IH. apply perm_swap.
Qed.

Lemma sort_perm l : Permutation (sort Str.default_compare l) l.
Proof.
  induction l as [|x l IH]; [reflexivity|].
  unfold sort in *. cbn [List.fold_right]. rewrite sort_insert_perm, IH. reflexivity.
Qed.

Lemma sort_insert_sorted x l :
  StronglySorted le l -> StronglySorted le (sort_insert Str.default_compare x l).
Proof.
  induction 1 as [|y l Hs IH Hy]; cbn [sort_insert].
  - repeat constructor.
  - destruct (Str.default_compare x y <=? 0) eqn:C.
    + apply default_compare_le in C. constructor; [constructor; assumption|].
      constructor; [exact C|].
      eapply List.Forall_impl; [|exact Hy]. intros z Hz. exact (compare_le_trans _ _ _ C Hz).
    + assert (Hyx : le y x).
      { destruct (compare_le_total x y) as [H|H]; [|exact H].
        apply default_compare_le in H. congruence. }
      constructor; [exact IH|].
      rewrite (sort_insert_perm x l). constructor; assumption.
Qed.

Lemma sort_sorted l : StronglySorted le (sort Str.default_compare l).
Proof.
  induction l as [|x l IH]; [constructor|].
  unfold sort in *. cbn [List.fold_right]. apply sort_insert_sorted, IH.
Qed.

Lemma sorted_strict l :
  List.NoDup l -> StronglySorted le l -> StronglySorted code_unit_lt l.
Proof.
  induction 2 as [|x l Hs IH Hx]; [constructor|].
  apply List.NoDup_cons_iff in H as [Hnin Hnd]. constructor; [auto|].
  apply List.Forall_forall. intros y Hy.
  pose proof (proj1 (List.Forall_forall _ _) Hx y Hy) as Hle.
  unfold code_unit_lt, le in *.
  destruct (String.compare x y) eqn:C; [|reflexivity|congruence].
  apply String.compare_eq_iff in C. subst y. contradiction.
Qed.

Lemma set_add_In x y s : In y (set_add x s) <-> y = x \/ In y s.
Proof.
  unfold set_add. destruct (existsb (String.eqb x) s) eqn:E.
  - split; [auto|]. intros [->|H]; [|exact H].
    apply List.existsb_exists in E as (z & Hz & Ez).
    apply String.eqb_eq in Ez. subst z. exact Hz.
  - rewrite List.in_app_iff. simpl. intuition.
Qed.

Lemma set_add_NoDup x s : List.NoDup s -> List.NoDup (set_add x s).
Proof.
  intros H. unfold set_add. destruct (existsb (String.eqb x) s) eqn:E; [exact H|].
  apply List.NoDup_app; [exact H|constructor; [simpl; tauto|constructor]|].
  intros y Hy [Ey|[]]. subst y.
  assert (existsb (String.eqb x) s = true); [|congruence].
  apply List.existsb_exists. exists x. split; [exact Hy|apply String.eqb_refl].
Qed.

Lemma add_platforms_NoDup parts : forall s, List.NoDup s -> List.NoDup (add_platforms parts s).
Proof.
  induction parts as [|cur [|next rest] IH]; intros s Hs; cbn [add_platforms];
    [exact Hs|exact Hs|].
  apply IH. destruct (isOSPattern cur && isArchPattern next)%bool;
    [apply set_add_NoDup|]; exact Hs.
Qed.

Lemma add_platforms_In parts : forall s x,
  In x (add_platforms parts s)
  <-> In x s
      \/ exists cur next, adjacent cur next parts
           /\ isOSPattern cur = true /\ isArchPattern next = true
           /\ x = cur +:+ "-" +:+ next.
Proof.
  induction parts as [|cur [|next rest] IH]; intros s x.
  - cbn [add_platforms]. split; [auto|].
    intros [H|(c & n & (b & a & E) & _)]; [exact H|].
    destruct b; discriminate E.
  - cbn [add_platforms]. split; [auto|].
    intros [H|(c & n & (b & a & E) & _)]; [exact H|].
    destruct b as [|? [|? ?]]; discriminate E.
  - change (add_platforms (cur :: next :: rest) s)
      with (add_platforms (next :: rest)
              (if (isOSPattern cur && isArchPattern next)%bool
               then set_add (cur +:+ "-" +:+ next) s else s)).
    rewrite IH. split.
    + intros [H|(c & n & (b & a & E) & Ho & Ha & ->)].
      * destruct (isOSPattern cur && isArchPattern next)%bool eqn:T; [|auto].
        apply set_add_In in H as [->|H]; [|auto].
        apply andb_prop in T as [To Ta]. right. exists cur, next.
        repeat split; try assumption. exists [], rest. reflexivity.
      * right. exists c, n. repeat split; try assumption.
        exists (cur :: b), a. rewrite E. reflexivity.
    + intros [H|(c & n & (b & a & E) & Ho & Ha & ->)].
      * left. destruct (isOSPattern cur && isArchPattern next)%bool; [|exact H].
        apply set_add_In. auto.
      * destruct b as [|b0 b].
        -- injection E as <- <- <-. left. rewrite Ho, Ha. apply set_add_In. auto.
        -- injection E as <- E. right. exists c, n. repeat split; try assumption.
           exists b, a. exact E.
Qed.

Let collected (assets : list GitHubAsset) (s : list string) : list string :=
  List.fold_left
    (fun platforms asset =>
       let filename := Str.toLowerCase (name asset) in
       if (Str.includes "source" filename || Str.includes "sha256" filename
           || Str.includes "sig" filename || Str.includes "asc" filename)%bool
       then platforms
       else add_platforms (Str.split_on Str.is_dash_or_underscore filename) platforms)
    assets s.

Lemma collected_NoDup assets : forall s, List.NoDup s -> List.NoDup (collected assets s).
Proof.
  induction assets as [|a assets IH]; intros s Hs; [exact Hs|].
  unfold collected in *. cbn [List.fold_left]. apply IH.
  destruct (_ || _)%bool; [exact Hs|apply add_platforms_NoDup, Hs].
Qed.

Lemma collected_In assets : forall s x,
  In x (collected assets s)
  <-> In x s
      \/ exists asset cur next,
           In asset assets /\ names_binary asset = true
           /\ adjacent cur next
                (Str.split_on Str.is_dash_or_underscore (Str.toLowerCase (name asset)))
           /\ isOSPattern cur = true /\ isArchPattern next = true
           /\ x = cur +:+ "-" +:+ next.
Proof.
  induction assets as [|a assets IH]; intros s x.
  - cbn. split; [auto|]. intros [H|(? & ? & ? & [] & _)]. exact H.
  - unfold collected in *. cbn [List.fold_left]. rewrite IH. unfold names_binary.
    cbv zeta. split.
    + intros [H|(asset & c & n & Hin & Hrest)].
      * destruct (_ || _)%bool eqn:Sk; [auto|].
        apply add_platforms_In in H as [H|(c & n & Hadj & Ho & Ha & ->)]; [auto|].
        right. exists a, c, n. rewrite Sk. simpl. auto 10.
      * right. exists asset, c, n. simpl. tauto.
    + intros [H|(asset & c & n & [<-|Hin] & Hb & Hadj & Ho & Ha & ->)].
      * left. destruct (_ || _)%bool; [exact H|]. apply add_platforms_In. auto.
      * left. apply negb_true_iff in Hb. rewrite Hb. apply add_platforms_In.
        right. exists c, n. auto.
      * right. exists asset, c, n. auto 10.
Qed.

Lemma available_platforms_spec assets :
  StronglySorted code_unit_lt (getAvailablePlatforms assets)
  /\ forall x,
       In x (getAvailablePlatforms assets)
       <-> exists asset current next,
             In asset assets /\ names_binary asset = true
             /\ adjacent current next
                  (Str.split_on Str.is_dash_or_underscore (Str.toLowerCase (name asset)))
             /\ isOSPattern current = true
             /\ isArchPattern next = true
             /\ x = current +:+ "-" +:+ next.
Proof.
  unfold getAvailablePlatforms. cbv zeta.
  fold (collected assets []). split.
  - apply sorted_strict; [|apply sort_sorted].
    apply (Permutation_NoDup (Permutation_sym (sort_perm _))).
    apply collected_NoDup. constructor.
  - intros x. rewrite (Permutation_in' (eq_refl x) (sort_perm (collected assets []))).
    rewrite collected_In. simpl. tauto.
Qed.

End AvailablePlatforms.

(** X4. [getAvailablePlatforms] lists, in strictly increasing order of
    code units and so without repetition, exactly the strings [os-arch]
    made of two adjacent parts of the lower-cased name of an asset that
    is neither a source archive, a checksum nor a signature, where the
    first part contains an OS word and the second an architecture word. *)
Theorem getAvailablePlatforms_sorted_set (assets : list GitHubAsset) :
  StronglySorted code_unit_lt (PlatformMatcher.getAvailablePlatforms assets)
  /\ forall x,
       In x (PlatformMatcher.getAvailablePlatforms assets)
       <-> exists asset current next,
             In asset assets /\ names_binary asset = true
             /\ adjacent current next
                  (Str.split_on Str.is_dash_or_underscore (Str.toLowerCase (name asset)))
             /\ PlatformMatcher.isOSPattern current = true
             /\ PlatformMatcher.isArchPattern next = true
             /\ x = current +:+ "-" +:+ next.
Proof. exact (available_platforms_spec assets). Qed.

(** ** Execute permissions (executor.ts) *)

Section Permissions.

Lemma executable_after_chmod mode : Z.land (Z.lor mode 493) 73 <> 0.
Proof.
  intros H. apply (f_equal (fun z => Z.testbit z 0)) in H.
  rewrite Z.land_spec, Z.lor_spec, Z.bits_0 in H.
  rewrite orb_true_r in H. discriminate H.
Qed.

Lemma chmod_adds_bits mode : Z.land (Z.lor mode 493) mode = mode.
Proof.
  apply Z.bits_inj'. intros n _. rewrite Z.land_spec, Z.lor_spec.
  destruct (Z.testbit mode n), (Z.testbit 493 n); reflexivity.
Qed.

Lemma ensureExecutable_spec p c mode m :
  fs m !! p = Some (File c mode) ->
  wp (BinaryExecutor.ensureExecutable false p) m
    (fun r m' =>
       match r with
       | Ok _ =>
           exists mode',
             fs m' !! p = Some (File c mode')
             /\ (forall q, q <> p -> fs m' !! q = fs m !! q)
             /\ Z.land mode' 73 <> 0
             /\ Z.land mode' mode = mode
             /\ (Z.land mode 73 <> 0 -> mode' = mode)
       | Throw e =>
           Str.startsWith "Failed to set execute permissions: " e = true
           /\ fs m' = fs m
       | Abort w => w = Killed /\ fs m' = fs m
       end).
Proof.
  intros Hp. unfold BinaryExecutor.ensureExecutable.
  apply wp_try_catch, wp_bind. unfold Fs.stat_mode. apply wp_call.
  - intros m1 a f' _ Hrun Hfs _. rewrite Hp in Hrun. injection Hrun as <- <-.
    destruct (Z.land mode 73 =? 0) eqn:E; cbn [negb].
    + apply Z.eqb_eq in E. unfold Fs.chmod. apply wp_call.
      * intros m2 [] f2 _ Hrun Hfs2 _. rewrite Hfs, Hp in Hrun.
        injection Hrun as <-. exists (Z.lor mode 493). rewrite Hfs2.
        rewrite lookup_insert_eq. split; [reflexivity|]. split.
        { intros q Hq. rewrite lookup_insert_ne by congruence. reflexivity. }
        split; [apply executable_after_chmod|].
        split; [apply chmod_adds_bits|]. intros H. contradiction.
      * intros m2 e _ Hfs2 _. apply wp_throw. split; [reflexivity|congruence].
      * intros m2 _ Hfs2 _. split; [reflexivity|]. unfold id in Hfs2. congruence.
    + apply Z.eqb_neq in E. apply wp_ret. exists mode. rewrite Hfs.
      repeat split; auto using Z.land_diag.
  - intros m1 e _ Hfs _. apply wp_throw. split; [reflexivity|exact Hfs].
  - intros m1 _ Hfs _. split; [reflexivity|exact Hfs].
Qed.

End Permissions.

(** X5. On a system other than Windows, [ensureExecutable] on a regular
    file either returns, and then the file has an execute bit, has lost
    none of its mode bits, and is untouched if it had an execute bit
    already, nothing else on disk having changed; or it raises an error
    that starts with [Failed to set execute permissions: ] and leaves the
    disk as it was. On Windows it does nothing. *)
Theorem ensureExecutable_sets_execute_bit
    (binaryPath : string) (c : content) (mode : Z) (m : machine)
    (Hfile : fs m !! binaryPath = Some (File c mode)) :
  BinaryExecutor.ensureExecutable true binaryPath m = (Ok tt, m)
  /\ let run := BinaryExecutor.ensureExecutable false binaryPath m in
     match fst run with
     | Ok _ =>
         exists mode',
           fs (snd run) !! binaryPath = Some (File c mode')
           /\ (forall q, q <> binaryPath -> fs (snd run) !! q = fs m !! q)
           /\ Z.land mode' 73 <> 0
           /\ Z.land mode' mode = mode
           /\ (Z.land mode 73 <> 0 -> mode' = mode)
     | Throw e =>
         Str.startsWith "Failed to set execute permissions: " e = true
         /\ fs (snd run) = fs m
     | Abort w => w = Killed /\ fs (snd run) = fs m
     end.
Proof.
  split; [reflexivity|]. exact (ensureExecutable_spec binaryPath c mode m Hfile).
Qed.

Lemma ensureExecutable_sets_execute_bit_witness :
  let binaryPath := "/c/o/rg/v1/linux-x86_64/rg" in
  let m := with_fs {[binaryPath := File (Opaque "ELF") 420]} boot in
  fs m !! binaryPath = Some (File (Opaque "ELF") 420)
  /\ BinaryExecutor.ensureExecutable true binaryPath m = (Ok tt, m)
  /\ let run := BinaryExecutor.ensureExecutable false binaryPath m in
     match fst run with
     | Ok _ =>
         exists mode',
           fs (snd run) !! binaryPath = Some (File (Opaque "ELF") mode')
           /\ (forall q, q <> binaryPath -> fs (snd run) !! q = fs m !! q)
           /\ Z.land mode' 73 <> 0
           /\ Z.land mode' 420 = 420
           /\ (Z.land 420 73 <> 0 -> mode' = 420)
     | Throw e =>
         Str.startsWith "Failed to set execute permissions: " e = true
         /\ fs (snd run) = fs m
     | Abort w => w = Killed /\ fs (snd run) = fs m
     end.
Proof.
  split; [reflexivity|].
  apply (ensureExecutable_sets_execute_bit "/c/o/rg/v1/linux-x86_64/rg" (Opaque "ELF") 420).
  reflexivity.
Defined.

(** ** Computations that keep a relation *)

Section Keeps.

Variable R : machine -> machine -> Prop.
Hypothesis R_refl : forall m, R m m.
Hypothesis R_trans : forall m1 m2 m3, R m1 m2 -> R m2 m3 -> R m1 m3.

Lemma keeps_ret {A} (a : A) : keeps R (ret a).
Proof. intros m. split; [apply R_refl|discriminate]. Qed.

Lemma keeps_throw {A} e : keeps R (@throw A e).
Proof. intros m. split; [apply R_refl|discriminate]. Qed.

Lemma keeps_bind {A B} (c : M A) (k : A -> M B) :
  keeps R c -> (forall a, keeps R (k a)) -> keeps R (bind c k).
Proof.
  intros Hc Hk m. unfold bind. destruct (Hc m) as [Hr Hw].
  destruct (c m) as [[a|e|w] m1]; cbn [fst snd] in *.
  - destruct (Hk a m1) as [Hr' Hw']. split; [eapply R_trans; eassumption|exact Hw'].
  - split; [exact Hr|discriminate].
  - split; [exact Hr|]. intros w' H. injection H as <-. exact (Hw w eq_refl).
Qed.

Lemma keeps_try_catch {A} (c : M A) (h : string -> M A) :
  keeps R c -> (forall e, keeps R (h e)) -> keeps R (try_catch c h).
Proof.
  intros Hc Hh m. unfold try_catch. destruct (Hc m) as [Hr Hw].
  destruct (c m) as [[a|e|w] m1]; cbn [fst snd] in *.
  - split; [exact Hr|discriminate].
  - destruct (Hh e m1) as [Hr' Hw']. split; [eapply R_trans; eassumption|exact Hw'].
  - split; [exact Hr|exact Hw].
Qed.

(** a call keeps [R] when each of its three ways to end does *)
Lemma keeps_call {A} op (run : gmap string node -> string + (A * gmap string node))
    torn :
  (forall m fl ok, R m (log (EvFs op ok) (with_faults fl m))) ->
  (forall m fl a f', run (fs m) = inr (a, f') ->
                     R m (log (EvFs op true) (with_fs f' (with_faults fl m)))) ->
  (forall m fl, R m (log (EvFs op false) (with_fs (torn (fs m)) (with_faults fl m)))) ->
  keeps R (Fs.call op run torn).
Proof.
  intros Hfail Hpass Hcrash m. unfold Fs.call.
  destruct (match faults m with [] => Pass | x :: _ => x end).
  - cbn [fs with_faults]. destruct (run (fs m)) as [e|[a f']] eqn:E; cbn [fst snd].
    + split; [apply Hfail|discriminate].
    + split; [exact (Hpass m _ a f' E)|discriminate].
  - cbn [fst snd]. split; [apply Hfail|discriminate].
  - cbn [fst snd fs with_faults]. split; [apply Hcrash|].
    intros w H. injection H as <-. reflexivity.
Qed.

End Keeps.

(** ** Clean-up of temporary files (downloader.ts) *)

Section Cleanup.

Let deletes (m m' : machine) : Prop := only_deletes (fs m) (fs m').

Lemma deletes_refl m : deletes m m.
Proof. intros q. right. reflexivity. Qed.

Lemma deletes_same_fs m m' : fs m' = fs m -> deletes m m'.
Proof. intros H q. right. rewrite H. reflexivity. Qed.

Lemma deletes_trans m1 m2 m3 : deletes m1 m2 -> deletes m2 m3 -> deletes m1 m3.
Proof.
  intros H12 H23 q. destruct (H23 q) as [H|H]; [left; exact H|].
  rewrite H. apply H12.
Qed.

Lemma delete_only_deletes (f : gmap string node) p : only_deletes f (delete p f).
Proof.
  intros q. destruct (decide (q = p)) as [->|Hne].
  - left. apply lookup_delete_eq.
  - right. apply lookup_delete_ne. congruence.
Qed.

Lemma keeps_unlink p : keeps deletes (Fs.unlink p).
Proof.
  apply keeps_call.
  - intros m fl ok. apply deletes_same_fs. reflexivity.
  - intros m fl a f' H. unfold deletes. cbn [fs log with_fs].
    destruct (fs m !! p) as [[| |]|]; try discriminate H;
      injection H as _ <-; apply delete_only_deletes.
  - intros m fl. apply deletes_same_fs. reflexivity.
Qed.

Lemma keeps_rmdir p : keeps deletes (Fs.rmdir p).
Proof.
  apply keeps_call.
  - intros m fl ok. apply deletes_same_fs. reflexivity.
  - intros m fl a f' H. unfold deletes. cbn [fs log with_fs].
    destruct (fs m !! p) as [[| |]|]; try discriminate H.
    destruct (Fs.is_empty_dir (fs m) p); [|discriminate H].
    injection H as _ <-. apply delete_only_deletes.
  - intros m fl. apply deletes_same_fs. reflexivity.
Qed.

(** one round of the loop of [cleanup] *)
Let round (filePath : string) : M unit :=
  try_catch
    (Fs.unlink filePath ;;
     try_catch (Fs.rmdir (Path.dirname filePath)) (fun _ => ret tt))
    (fun _ => ret tt).

Lemma keeps_round p : keeps deletes (round p).
Proof.
  unfold round.
  repeat first
    [ apply keeps_try_catch | apply keeps_bind | apply keeps_unlink
    | apply keeps_rmdir | apply keeps_ret
    | exact deletes_refl | exact deletes_trans | intro ].
Qed.

Lemma keeps_cleanup l : keeps deletes (Downloader.cleanup l).
Proof.
  induction l as [|p l IH]; cbn [Downloader.cleanup].
  - apply keeps_ret. exact deletes_refl.
  - apply (keeps_bind deletes deletes_trans); [apply keeps_round|intros _; exact IH].
Qed.

Lemma try_catch_swallows {A} (c : M A) (a : A) m e :
  fst (try_catch c (fun _ => ret a) m) <> Throw e.
Proof.
  unfold try_catch. destruct (c m) as [[x|e'|w] m1]; cbn; discriminate.
Qed.

Lemma cleanup_outcome l : forall m,
  fst (Downloader.cleanup l m) = Ok tt \/ fst (Downloader.cleanup l m) = Abort Killed.
Proof.
  induction l as [|p l IH]; intros m; cbn [Downloader.cleanup]; [left; reflexivity|].
  fold (round p). unfold bind.
  pose proof (try_catch_swallows
                (Fs.unlink p ;; try_catch (Fs.rmdir (Path.dirname p)) (fun _ => ret tt))
                tt m) as Hs.
  destruct (keeps_round p m) as [_ Hw]. fold (round p) in Hs.
  destruct (round p m) as [[[]|e|w] m1]; cbn [fst snd] in *.
  - apply IH.
  - exfalso. exact (Hs e eq_refl).
  - right. rewrite (Hw w eq_refl). reflexivity.
Qed.

(** the path holds no file and no link *)
Let gone (p : string) (m : machine) : Prop :=
  fs m !! p = None \/ fs m !! p = Some Dir.

Lemma gone_deletes p m m' : deletes m m' -> gone p m -> gone p m'.
Proof.
  intros Hd [H|H]; destruct (Hd p) as [H'|H']; unfold gone;
    rewrite ?H' in *; auto.
Qed.

Lemma call_quiet {A} op (run : gmap string node -> string + (A * gmap string node))
    torn m :
  faults m = [] ->
  faults (snd (Fs.call op run torn m)) = []
  /\ Fs.call op run torn m
     = match run (fs m) with
       | inl e => (Throw e, log (EvFs op false) (with_faults [] m))
       | inr (a, f') => (Ok a, log (EvFs op true) (with_fs f' (with_faults [] m)))
       end.
Proof.
  intros H. unfold Fs.call. rewrite H. cbn [List.tl fs with_faults].
  destruct (run (fs m)) as [e|[a f']]; split; reflexivity.
Qed.

Lemma round_quiet p m :
  faults m = [] ->
  exists m', round p m = (Ok tt, m') /\ faults m' = [] /\ gone p m'.
Proof.
  intros Hq. unfold round, try_catch at 1, bind at 1.
  destruct (call_quiet (OpUnlink p)
              (fun fs => match fs !! p with
                         | Some Dir => inl "EPERM: operation not permitted, unlink"
                         | Some _ => inr (tt, delete p fs)
                         | None => inl (Fs.enoent p)
                         end) id m Hq) as [_ Hu].
  unfold Fs.unlink. rewrite Hu. clear Hu.
  assert (Hcases :
    (exists e, match fs m !! p with
               | Some Dir => inl "EPERM: operation not permitted, unlink"
               | Some _ => inr (tt, delete p (fs m))
               | None => inl (Fs.enoent p)
               end = @inl string (unit * gmap string node) e
               /\ gone p m)
    \/ match fs m !! p with
       | Some Dir => inl "EPERM: operation not permitted, unlink"
       | Some _ => inr (tt, delete p (fs m))
       | None => inl (Fs.enoent p)
       end = @inr string (unit * gmap string node) (tt, delete p (fs m))).
  { unfold gone. destruct (fs m !! p) as [[| |]|]; eauto. }
  destruct Hcases as [(e & E & Hg)|E]; rewrite E.
  - eexists. split; [reflexivity|]. split; [reflexivity|exact Hg].
  - set (m1 := log (EvFs (OpUnlink p) true) (with_fs (delete p (fs m)) (with_faults [] m))).
    assert (Hq1 : faults m1 = []) by reflexivity.
    assert (Hg1 : gone p m1) by (left; apply lookup_delete_eq).
    destruct (call_quiet (OpRmdir (Path.dirname p))
                (fun fs => match fs !! Path.dirname p with
                           | Some Dir =>
                               if Fs.is_empty_dir fs (Path.dirname p)
                               then inr (tt, delete (Path.dirname p) fs)
                               else inl "ENOTEMPTY: directory not empty, rmdir"
                           | Some _ => inl "ENOTDIR: not a directory, rmdir"
                           | None => inl (Fs.enoent (Path.dirname p))
                           end) id m1 Hq1) as [Hq2 Hr].
    destruct (keeps_rmdir (Path.dirname p) m1) as [Hd _].
    unfold try_catch. unfold Fs.rmdir in *.
    destruct (Fs.call _ _ _ m1) as [[[]|e|w] m2] eqn:E1; cbn [fst snd] in *.
    + eexists. split; [reflexivity|]. split; [exact Hq2|exact (gone_deletes _ _ _ Hd Hg1)].
    + eexists. split; [reflexivity|]. split; [exact Hq2|exact (gone_deletes _ _ _ Hd Hg1)].
    + exfalso. destruct (match fs m1 !! Path.dirname p with
                         | Some Dir => _ | Some _ => _ | None => _ end) as [?|[? ?]];
        discriminate Hr.
Qed.

Lemma cleanup_quiet l : forall m,
  faults m = [] ->
  fst (Downloader.cleanup l m) = Ok tt
  /\ forall p, In p l -> gone p (snd (Downloader.cleanup l m)).
Proof.
  induction l as [|p l IH]; intros m Hq; cbn [Downloader.cleanup].
  - split; [reflexivity|]. intros p [].
  - fold (round p). unfold bind.
    destruct (round_quiet p m Hq) as (m1 & -> & Hq1 & Hg).
    destruct (IH m1 Hq1) as [Hok Hall]. split; [exact Hok|].
    intros q [<-|Hin]; [|apply Hall, Hin].
    destruct (keeps_cleanup l m1) as [Hd _]. exact (gone_deletes _ _ _ Hd Hg).
Qed.

Lemma cleanup_spec l m :
  (fst (Downloader.cleanup l m) = Ok tt \/ fst (Downloader.cleanup l m) = Abort Killed)
  /\ only_deletes (fs m) (fs (snd (Downloader.cleanup l m)))
  /\ (faults m = [] ->
      fst (Downloader.cleanup l m) = Ok tt
      /\ forall p, In p l ->
           fs (snd (Downloader.cleanup l m)) !! p = None
           \/ fs (snd (Downloader.cleanup l m)) !! p = Some Dir).
Proof.
  split; [apply cleanup_outcome|]. split; [apply keeps_cleanup|].
  apply cleanup_quiet.
Qed.

End Cleanup.

(** X6. [cleanup] never raises: it returns, or the process was killed.
    It creates and changes nothing on disk: every path is afterwards
    absent or holds what it held. When the file system reports no
    failure, it returns and none of the listed paths holds a file or a
    link any more. *)
Theorem cleanup_only_deletes (filePaths : list string) (m : machine) :
  let run := Downloader.cleanup filePaths m in
  (fst run = Ok tt \/ fst run = Abort Killed)
  /\ only_deletes (fs m) (fs (snd run))
  /\ (faults m = [] ->
      fst run = Ok tt
      /\ forall p, In p filePaths ->
           fs (snd run) !! p = None \/ fs (snd run) !! p = Some Dir).
Proof. exact (cleanup_spec filePaths m). Qed.

(** ** Paths built with [path.join] *)

Section JoinShape.

#[local] Arguments String.append !_ _ / : simpl nomatch.

Let clean (x : string) : Prop := no_slash x = true.

Lemma valid_segments_clean segs :
  forallb valid_segment segs = true -> Forall clean segs.
Proof.
  induction segs as [|s segs IH]; cbn [forallb]; [constructor|].
  intros H. apply andb_prop in H as [Hs H]. constructor; [|auto].
  apply valid_segment_inv in Hs. tauto.
Qed.

Lemma valid_segments_nonempty segs :
  forallb valid_segment segs = true -> List.filter Str.nonempty segs = segs.
Proof.
  induction segs as [|s segs IH]; cbn [forallb List.filter]; [reflexivity|].
  intros H. apply andb_prop in H as [Hs H].
  apply valid_segment_inv in Hs as (-> & _). rewrite (IH H). reflexivity.
Qed.

Lemma fold_normalize_valid above segs : forall kept,
  forallb valid_segment segs = true ->
  List.fold_left (Path.normalize_step above) segs kept = kept ++ segs.
Proof.
  induction segs as [|s segs IH]; intros kept; cbn [forallb List.fold_left].
  - rewrite List.app_nil_r. reflexivity.
  - intros H. apply andb_prop in H as [Hs H].
    rewrite normalize_step_valid by exact Hs. rewrite (IH _ H), <- List.app_assoc.
    reflexivity.
Qed.

Lemma join_nonempty l :
  l <> [] -> Forall clean l -> (forall x, In x l -> x <> "") -> Str.join "/" l <> "".
Proof.
  intros Hl Hc Hn E.
  destruct l as [|x [|y r]]; [congruence| |].
  - cbn in E. apply (Hn x); [left; reflexivity|exact E].
  - rewrite join_cons in E. destruct x; [|discriminate E].
    apply (Hn ""); [left|]; reflexivity.
Qed.

Lemma join_app_last l x :
  l <> [] -> Str.join "/" (l ++ [x]) = Str.join "/" l +:+ "/" +:+ x.
Proof.
  induction l as [|a [|b l] IH]; intros Hl; [congruence|reflexivity|].
  change ((a :: b :: l) ++ [x]) with (a :: b :: (l ++ [x])).
  rewrite !join_cons.
  change (b :: l ++ [x]) with ((b :: l) ++ [x]). rewrite IH by discriminate.
  rewrite !append_assoc. reflexivity.
Qed.

Lemma endsWith_slash_join l :
  l <> [] -> forallb valid_segment l = true -> Str.endsWith "/" (Str.join "/" l) = false.
Proof.
  induction l as [|a [|b l] IH]; intros Hl Hv; [congruence| |].
  - cbn [forallb] in Hv. apply andb_prop in Hv as [Ha _].
    apply valid_segment_inv in Ha as (_ & Ca & _).
    cbn [Str.join]. apply endsWith_slash_no_slash, Ca.
  - cbn [forallb] in Hv. apply andb_prop in Hv as [Ha Hv].
    rewrite join_cons. change (a +:+ "/" +:+ ?t) with (a +:+ String "/" t).
    rewrite endsWith_slash_sep; [apply IH; [discriminate|exact Hv]|].
    apply join_nonempty; [discriminate|apply valid_segments_clean, Hv|].
    intros x Hx.
    pose proof (proj1 (List.forallb_forall valid_segment (b :: l)) Hv x Hx) as Vx.
    apply valid_segment_inv in Vx as (Nx & _). apply nonempty_neq, Nx.
Qed.

(** [path.join] keeps proper components that follow its first argument
    as the last components of its result. *)
Lemma join_shape dir segs :
  segs <> [] -> forallb valid_segment segs = true ->
  Path.join (dir :: segs) = root dir +:+ Str.join "/" (stem dir ++ segs).
Proof.
  intros Hne Hv.
  pose proof (valid_segments_clean _ Hv) as Hc.
  assert (Hn : forall x, In x segs -> x <> "").
  { intros x Hx. pose proof (proj1 (List.forallb_forall _ _) Hv x Hx) as Vx.
    apply valid_segment_inv in Vx as (Nx & _). apply nonempty_neq, Nx. }
  set (tail := Str.join "/" segs).
  assert (Htail : Str.split_slash tail = segs) by (apply split_slash_join; assumption).
  assert (Ntail : tail <> "") by (apply join_nonempty; assumption).
  assert (Ttail : Str.endsWith "/" tail = false) by (apply endsWith_slash_join; assumption).
  assert (Hbody : forall kept, Forall clean kept ->
             String.eqb (Str.join "/" (kept ++ segs)) "" = false).
  { intros kept Hkept. apply String.eqb_neq. intros E.
    assert (Hs : Str.split_slash (Str.join "/" (kept ++ segs)) = kept ++ segs).
    { apply split_slash_join; [destruct kept, segs; try discriminate; congruence|].
      apply Forall_app. split; assumption. }
    rewrite E in Hs. destruct kept as [|k kept].
    - cbn in Hs. apply (Hn ""); [rewrite <- Hs; left|]; reflexivity.
    - cbn in Hs. injection Hs as _ Hs. symmetry in Hs.
      apply List.app_eq_nil in Hs as [_ Hs]. congruence. }
  assert (Hstart : Str.startsWith "/" tail = false).
  { unfold tail. destruct segs as [|s segs']; [congruence|].
    cbn [forallb] in Hv. apply andb_prop in Hv as [Hs _].
    apply valid_segment_inv in Hs as (Ns & Cs & _).
    destruct s as [|y s]; [discriminate Ns|].
    cbn [no_slash] in Cs. apply andb_prop in Cs as [Cs _].
    apply negb_true_iff in Cs. unfold Str.is_slash in Cs.
    destruct segs' as [|s' segs'].
    - cbn [Str.join]. rewrite startsWith_slash_cons, Ascii.eqb_sym. exact Cs.
    - rewrite join_cons. change (String y s +:+ ?t) with (String y (s +:+ t)).
      rewrite startsWith_slash_cons, Ascii.eqb_sym. exact Cs. }
  unfold Path.join, root, stem. cbn [List.filter].
  rewrite (valid_segments_nonempty _ Hv).
  destruct dir as [|x c].
  - cbn [Str.nonempty andb app]. fold tail.
    apply String.eqb_neq in Ntail. rewrite Ntail.
    unfold Path.normalize. rewrite Ntail, Ttail, Htail, Hstart.
    unfold Path.normalize_segments. rewrite (fold_normalize_valid _ _ _ Hv).
    cbn [negb app]. fold tail. rewrite Ntail. simpl. apply append_nil_r.
  - cbn [Str.nonempty andb].
    set (c0 := String x c).
    assert (Hjoin : Str.join "/" (c0 :: segs) = c0 +:+ String "/" tail).
    { unfold tail. destruct segs; [congruence|]. reflexivity. }
    rewrite Hjoin.
    assert (String.eqb (c0 +:+ String "/" tail) "" = false) as Hj
      by (apply String.eqb_neq; discriminate).
    rewrite Hj. unfold Path.normalize. rewrite Hj.
    rewrite split_slash_app, Htail, endsWith_slash_sep, Ttail by exact Ntail.
    assert (Str.startsWith "/" (c0 +:+ String "/" tail) = Str.startsWith "/" c0) as ->.
    { unfold c0. change (String x c +:+ ?t) with (String x (c +:+ t)).
      rewrite !startsWith_slash_cons. reflexivity. }
    unfold Path.normalize_segments.
    rewrite List.fold_left_app, (fold_normalize_valid _ _ _ Hv).
    rewrite Hbody
      by (apply fold_normalize_clean; [constructor|apply split_slash_parts]).
    destruct (Str.startsWith "/" c0); cbn [negb]; rewrite append_nil_r; reflexivity.
Qed.

Lemma root_stem_split dir segs :
  segs <> [] -> Forall clean segs ->
  Str.split_slash (root dir +:+ Str.join "/" (stem dir ++ segs))
  = (if String.eqb (root dir) "/" then [""] else []) ++ stem dir ++ segs.
Proof.
  intros Hne Hc.
  assert (Hs : Str.split_slash (Str.join "/" (stem dir ++ segs)) = stem dir ++ segs).
  { apply split_slash_join;
      [destruct (stem dir), segs; try discriminate; congruence|].
    apply Forall_app. split; [apply stem_clean|exact Hc]. }
  unfold root. destruct (Str.nonempty dir && Str.startsWith "/" dir)%bool.
  - change ("/" +:+ ?t) with ("" +:+ String "/" t).
    rewrite split_slash_app, Hs. reflexivity.
  - simpl. exact Hs.
Qed.

Lemma length_join_last l x :
  l <> [] ->
  String.length (Str.join "/" (l ++ [x]))
  = (String.length (Str.join "/" l) + 1 + String.length x)%nat.
Proof.
  intros Hl. rewrite join_app_last by exact Hl. rewrite !length_append.
  simpl. lia.
Qed.

(** the directory of a path whose last component has more than one
    character is shorter than the path *)
Lemma dirname_shorter p l x :
  Str.split_slash p = l ++ [x] -> (1 < String.length x)%nat ->
  (String.length (Path.dirname p) < String.length p)%nat.
Proof.
  intros Hs Hx. unfold Path.dirname. rewrite Hs, List.removelast_last.
  rewrite <- (join_split_slash p), Hs.
  destruct l as [|a l]; [cbn; lia|].
  rewrite length_join_last by discriminate.
  destruct a as [|c a].
  - destruct l as [|b l]; [cbn; lia|].
    destruct b as [|c b]; [destruct l; [cbn; lia|lia]|lia].
  - lia.
Qed.

End JoinShape.

(** ** The registry file of a manager (registry.ts) *)

(** X8. Whatever the home directory and the optional cache directory,
    the registry path the constructor computes ends in the component
    [registry.json] and names a file inside its directory: the directory
    is none of the four files [save] works on. *)
Theorem constructor_proper_path (homedir : string) (cacheDir : option string) :
  (exists dirs, Str.split_slash (RegistryManager.constructor homedir cacheDir)
                = dirs ++ ["registry.json"])
  /\ proper_path (RegistryManager.constructor homedir cacheDir) = true.
Proof.
  unfold RegistryManager.constructor. cbv zeta.
  set (base := match cacheDir with
               | Some d => if Str.nonempty d then d else Path.join [homedir; ".cache"; "gpx"]
               | None => Path.join [homedir; ".cache"; "gpx"]
               end).
  rewrite (join_shape base ["registry.json"]) by (discriminate || reflexivity).
  assert (Hs : Str.split_slash (root base +:+ Str.join "/" (stem base ++ ["registry.json"]))
               = ((if String.eqb (root base) "/" then [""] else []) ++ stem base)
                   ++ ["registry.json"]).
  { rewrite root_stem_split, List.app_assoc;
      [reflexivity|discriminate|repeat constructor]. }
  split; [eexists; exact Hs|].
  set (rp := root base +:+ Str.join "/" (stem base ++ ["registry.json"])) in *.
  pose proof (dirname_shorter rp _ _ Hs ltac:(cbn; lia)) as Hd.
  unfold proper_path, RegistryManager.tempPath, RegistryManager.backupPath,
    RegistryManager.oldBackupPath.
  rewrite !eqb_length_ne; [reflexivity| | | |]; rewrite ?length_append; lia.
Qed.

(** ** Paths below a directory that [path.join] built *)

Section TempPaths.

#[local] Arguments String.append !_ _ / : simpl nomatch.

Let clean (x : string) : Prop := no_slash x = true.





















End TempPaths.

(** ** A download that succeeds (downloader.ts) *)

Section DownloadSucceeds.

Variable retries : Z.
Variables url tempDir tempFile : string.






End DownloadSucceeds.



(** ** Looking entries up (registry.ts) *)

Section RegistryLookup.

Import RegistryManager.

Variable rp : string.

Lemma loaded_truthy m rid rps eid eps :
  loaded m rid rps eid eps -> JS.truthy (this_registry m) = true.
Proof. intros [-> _]. reflexivity. Qed.

Lemma getEntry_loaded m rid rps eid eps k :
  loaded m rid rps eid eps ->
  getEntry rp k m
  = (Ok (if JS.truthy (read eps k) then read eps k else JS.VNull), m).
Proof.
  intros Hl. unfold getEntry.
  rewrite (bind_Ok _ _ _ _ _ (load_memo rp m (loaded_truthy _ _ _ _ _ Hl))).
  rewrite (bind_Ok _ _ _ _ _ (get_entry_loaded _ _ _ _ _ k Hl)). reflexivity.
Qed.

Lemma hasEntry_loaded m rid rps eid eps k :
  loaded m rid rps eid eps ->
  hasEntry rp k m
  = (Ok (match JS.own k eps with Some _ => true | None => JS.inherited k end), m).
Proof.
  intros Hl. pose proof Hl as [Hr He]. unfold hasEntry.
  rewrite (bind_Ok _ _ _ _ _ (load_memo rp m (loaded_truthy _ _ _ _ _ Hl))).
  unfold bind, get_registry, lift. rewrite Hr. cbn [JS.get]. rewrite He.
  reflexivity.
Qed.

Lemma lookups_after_add m rid rps eid eps binaryName repo version platform k :
  loaded m rid rps eid eps ->
  binaryName <> "__proto__" -> second (Str.split_slash repo) <> Some "__proto__" ->
  stored_under binaryName repo k = true ->
  let m1 := snd (addEntry rp binaryName repo version platform m) in
  getEntry rp k m1 = (Ok (new_entry m binaryName repo version platform), m1)
  /\ hasEntry rp k m1 = (Ok true, m1).
Proof.
  intros Hl Hname Halias Hk m1.
  destruct (addEntry_memory rp m rid rps eid eps binaryName repo version platform
              Hl Hname Halias) as [rps' Hl'].
  fold m1 in Hl'.
  pose proof (entry_at_after_add rp m rid rps eid eps binaryName repo version platform
                Hl Hname Halias k) as Hat.
  fold m1 in Hat. rewrite Hk, (entry_at_loaded _ _ _ _ _ k Hl') in Hat.
  rewrite (getEntry_loaded _ _ _ _ _ k Hl'), (hasEntry_loaded _ _ _ _ _ k Hl').
  unfold read. rewrite Hat. split; reflexivity.
Qed.

Lemma lookups_after_remove m name id fields repo :
  entry_at m name = Some (JS.VObj id fields) ->
  JS.own "repo" fields = Some (JS.VStr repo) ->
  JS.inherited name = false ->
  let m' := snd (removeEntry rp name m) in
  getEntry rp name m' = (Ok JS.VNull, m') /\ hasEntry rp name m' = (Ok false, m').
Proof.
  intros Hentry Hrepo Hinh m'.
  destruct (entry_at_inv _ _ _ Hentry) as (rid & rps & eid & eps & Hl & Hown).
  destruct (removeEntry_memory rp m rid rps eid eps name id fields repo Hl Hown Hrepo)
    as [rps' Hl'].
  fold m' in Hl'.
  destruct (removeEntry_alias rp m name id fields repo Hentry Hrepo) as [Hgone _].
  fold m' in Hgone. rewrite (entry_at_loaded _ _ _ _ _ name Hl') in Hgone.
  rewrite (getEntry_loaded _ _ _ _ _ name Hl'), (hasEntry_loaded _ _ _ _ _ name Hl').
  unfold read. rewrite Hgone, Hinh. split; reflexivity.
Qed.

End RegistryLookup.

(** X9. After [addEntry(binaryName, repo, ...)] on a loaded registry,
    whatever became of the save, [getEntry] returns the new entry under
    the binary name and under the repository's short name alike, the very
    same object, and [hasEntry] is true for both. *)
Theorem addEntry_then_getEntry
    (registryPath : string) (m : machine) (rid : nat) (rps : JS.props) (eid : nat)
    (eps : JS.props) (binaryName repo version : string) (platform : JS.value)
    (key : string)
    (Hloaded : loaded m rid rps eid eps)
    (Hname : binaryName <> "__proto__")
    (Halias : second (Str.split_slash repo) <> Some "__proto__")
    (Hkey : stored_under binaryName repo key = true) :
  let m1 := snd (RegistryManager.addEntry registryPath binaryName repo version platform m) in
  RegistryManager.getEntry registryPath key m1
  = (Ok (new_entry m binaryName repo version platform), m1)
  /\ RegistryManager.hasEntry registryPath key m1 = (Ok true, m1).
Proof.
  exact (lookups_after_add registryPath m rid rps eid eps binaryName repo version platform
           key Hloaded Hname Halias Hkey).
Qed.

Lemma addEntry_then_getEntry_witness :
  let m1 := machine_with_rg in
  RegistryManager.getEntry sample_registryPath "ripgrep" m1
  = (Ok (new_entry machine_loaded "rg" "BurntSushi/ripgrep" "v14.1.1" linux_platform_value),
     m1)
  /\ RegistryManager.hasEntry sample_registryPath "ripgrep" m1 = (Ok true, m1).
Proof.
  apply (addEntry_then_getEntry sample_registryPath machine_loaded 1
           [("version", JS.VStr "1.0"); ("entries", JS.VObj 0 []);
            ("lastUpdated", JS.VStr "7")] 0 []
           "rg" "BurntSushi/ripgrep" "v14.1.1" linux_platform_value "ripgrep").
  - split; reflexivity.
  - discriminate.
  - discriminate.
  - reflexivity.
Defined.

(** X10. After [removeEntry(name)] has removed an entry, whatever became
    of the save, [getEntry(name)] returns [null] and [hasEntry(name)] is
    false, for every name that plain objects do not inherit. *)
Theorem removeEntry_then_getEntry
    (registryPath : string) (m : machine) (name : string) (id : nat)
    (fields : JS.props) (repo : string)
    (Hentry : entry_at m name = Some (JS.VObj id fields))
    (Hrepo : JS.own "repo" fields = Some (JS.VStr repo))
    (Hplain : JS.inherited name = false) :
  let m' := snd (RegistryManager.removeEntry registryPath name m) in
  RegistryManager.getEntry registryPath name m' = (Ok JS.VNull, m')
  /\ RegistryManager.hasEntry registryPath name m' = (Ok false, m').
Proof.
  exact (lookups_after_remove registryPath m name id fields repo Hentry Hrepo Hplain).
Qed.

Lemma removeEntry_then_getEntry_witness :
  let m' := snd (RegistryManager.removeEntry sample_registryPath "rg" machine_with_rg) in
  RegistryManager.getEntry sample_registryPath "rg" m' = (Ok JS.VNull, m')
  /\ RegistryManager.hasEntry sample_registryPath "rg" m' = (Ok false, m').
Proof.
  apply (removeEntry_then_getEntry sample_registryPath machine_with_rg "rg" 3
           [("repo", JS.VStr "BurntSushi/ripgrep"); ("binaryName", JS.VStr "rg");
            ("version", JS.VStr "v14.1.1"); ("installDate", JS.VStr "0");
            ("lastUsed", JS.VStr "1"); ("platform", linux_platform_value)]
           "BurntSushi/ripgrep"); reflexivity.
Defined.

(** ** Documents and values *)

Section Documents.

Lemma json_nested_ind (P : JS.json -> Prop) :
  P JS.JNull -> (forall b, P (JS.JBool b)) -> (forall n, P (JS.JNum n)) ->
  (forall s, P (JS.JStr s)) ->
  (forall fields, Forall (fun kv => P (snd kv)) fields -> P (JS.JObj fields)) ->
  forall j, P j.
Proof.
  intros Hnull Hbool Hnum Hstr Hobj.
  fix IH 1. intros [| b | n | s | fields].
  - exact Hnull.
  - apply Hbool.
  - apply Hnum.
  - apply Hstr.
  - apply Hobj. induction fields as [|[k x] fields IHf]; constructor.
    + apply IH.
    + exact IHf.
Qed.

Lemma stringify_VObj id ps :
  JS.stringify (JS.VObj id ps) = Some (JS.JObj (JS.stringify_props ps)).
Proof.
  cbn [JS.stringify]. do 2 f_equal.
Qed.

(** a document is the document of the value it is parsed into *)
Lemma stringify_revive j : forall n, JS.stringify (fst (JS.revive j n)) = Some j.
Proof.
  induction j as [| b | z | s | fields IH] using json_nested_ind; intros n;
    try reflexivity.
  rewrite revive_JObj.
  destruct (JS.revive_fields fields (S n)) as [ps n'] eqn:E. cbn [fst].
  rewrite stringify_VObj. do 2 f_equal.
  change ps with (fst (ps, n')). rewrite <- E. clear E.
  generalize (S n). induction IH as [|[k x] fields Hx _ IHf]; intros n0;
    [reflexivity|].
  cbn [JS.revive_fields]. cbn [snd] in Hx.
  specialize (Hx n0). destruct (JS.revive x n0) as [v n1] eqn:Ev.
  specialize (IHf n1). destruct (JS.revive_fields fields n1) as [vs n2].
  cbn [fst] in *. cbn [JS.stringify_props]. rewrite Hx, IHf. reflexivity.
Qed.

Lemma member_stringify_props k ps x j :
  JS.own k ps = Some x -> JS.stringify x = Some j ->
  JS.member k (JS.stringify_props ps) = Some j.
Proof.
  induction ps as [|[k' x'] ps IH]; [discriminate|].
  cbn [JS.own JS.stringify_props]. destruct (String.eqb k' k) eqn:E.
  - intros [= ->] Hj. rewrite Hj. cbn [JS.member]. rewrite E. reflexivity.
  - intros Hown Hj. destruct (JS.stringify x'); [cbn [JS.member]; rewrite E|]; auto.
Qed.

Lemma own_revive_member k fields j : forall n,
  JS.member k fields = Some j ->
  exists n', JS.own k (fst (JS.revive_fields fields n)) = Some (fst (JS.revive j n')).
Proof.
  induction fields as [|[k' x] fields IH]; intros n; [discriminate|].
  cbn [JS.member JS.revive_fields].
  destruct (JS.revive x n) as [v n1] eqn:Ev.
  specialize (IH n1). destruct (JS.revive_fields fields n1) as [vs n2].
  cbn [fst JS.own] in *. destruct (String.eqb k' k).
  - intros [= <-]. exists n. rewrite Ev. reflexivity.
  - exact IH.
Qed.

Lemma typeof_string x : JS.typeof x = "string" -> exists s, x = JS.VStr s.
Proof.
  destruct x as [| | | | s | k |]; try discriminate; [eauto|].
  cbn. destruct (String.eqb k "__proto__"); discriminate.
Qed.

Lemma field_string id ps k :
  JS.inherited k = false ->
  String.eqb (JS.typeof (RegistryManager.field (JS.VObj id ps) k)) "string" = true ->
  exists s, JS.own k ps = Some (JS.VStr s).
Proof.
  intros Hk H. apply String.eqb_eq in H. unfold RegistryManager.field in H.
  cbn [JS.get] in H. destruct (JS.own k ps) as [x|].
  - apply typeof_string in H as [s ->]. eauto.
  - rewrite Hk in H. discriminate H.
Qed.

(** a valid registry with an entries object is written as a document
    that is parsed into a valid registry *)
Lemma valid_round_trip id ps eid eps doc n :
  RegistryManager.isValidRegistry (JS.VObj id ps) = true ->
  JS.own "entries" ps = Some (JS.VObj eid eps) ->
  JS.stringify (JS.VObj id ps) = Some doc ->
  RegistryManager.isValidRegistry (fst (JS.revive doc n)) = true.
Proof.
  intros Hv He Hdoc. rewrite stringify_VObj in Hdoc. injection Hdoc as <-.
  unfold RegistryManager.isValidRegistry in Hv.
  apply andb_prop in Hv as [Hv Hlu]. apply andb_prop in Hv as [Hv _].
  apply andb_prop in Hv as [_ Hver].
  destruct (field_string id ps "version" eq_refl Hver) as [v Hversion].
  destruct (field_string id ps "lastUpdated" eq_refl Hlu) as [u Hupdated].
  rewrite revive_JObj.
  destruct (JS.revive_fields (JS.stringify_props ps) (S n)) as [ps' n'] eqn:E.
  assert (Hps' : ps' = fst (JS.revive_fields (JS.stringify_props ps) (S n)))
    by (rewrite E; reflexivity).
  cbn [fst].
  destruct (own_revive_member "version" _ _ (S n)
              (member_stringify_props _ _ _ _ Hversion eq_refl)) as [n1 E1].
  destruct (own_revive_member "lastUpdated" _ _ (S n)
              (member_stringify_props _ _ _ _ Hupdated eq_refl)) as [n2 E2].
  destruct (own_revive_member "entries" _ _ (S n)
              (member_stringify_props _ _ _ _ He (stringify_VObj eid eps)))
    as [n3 E3].
  rewrite <- Hps' in E1, E2, E3. rewrite revive_JObj in E3.
  destruct (JS.revive_fields (JS.stringify_props eps) (S n3)) as [eps' n4].
  cbn [fst JS.revive] in E1, E2, E3.
  unfold RegistryManager.isValidRegistry, RegistryManager.field.
  cbn [JS.get JS.truthy JS.typeof]. rewrite E1, E2, E3. reflexivity.
Qed.

End Documents.

(** ** Persistence round trips (registry.ts) *)

Section RegistryRecovery.

Import RegistryManager.

Variable rp : string.
Hypothesis Hproper : proper_path rp = true.

Lemma readFile_quiet p c mode m :
  faults m = [] -> fs m !! p = Some (File c mode) ->
  Fs.readFile p m
  = (Ok c, log (EvFs (OpReadFile p) true) (with_fs (fs m) (with_faults [] m))).
Proof.
  intros Hq Hp. unfold Fs.readFile.
  rewrite (proj2 (call_quiet _ _ _ m Hq)), Hp. reflexivity.
Qed.

Lemma save_then_load m m1 rid rps eid eps :
  loaded m rid rps eid eps ->
  isValidRegistry (this_registry m) = true ->
  save rp m = (Ok tt, m1) ->
  faults m1 = [] ->
  exists registry m2,
    (clearCache ;; load rp) m1 = (Ok registry, m2)
    /\ JS.stringify registry = JS.stringify (this_registry m1)
    /\ isValidRegistry registry = true
    /\ this_registry m2 = registry
    /\ fs m2 = fs m1.
Proof.
  intros [Hr He] Hv Hsaved Hq.
  destruct (save_contract rp Hproper m rid rps Hr) as (doc & Hdoc & Hpost).
  rewrite Hsaved in Hpost. cbn [fst snd] in Hpost.
  destruct Hpost as (Hreg & ((mode & Hfile) & _) & _).
  unfold bind at 1, clearCache, set_registry.
  set (m0 := with_registry JS.VNull m1).
  unfold load, bind at 1, get_registry. cbn [this_registry m0 with_registry JS.truthy].
  unfold try_catch, bind at 1.
  rewrite (readFile_quiet rp (Text doc) mode m0 Hq Hfile).
  unfold bind at 1, JSON_parse.
  set (m3 := log _ _).
  destruct (JS.revive doc (nextId m3)) as [v n] eqn:Erev.
  assert (Hv' : isValidRegistry v = true).
  { change v with (fst (v, n)). rewrite <- Erev.
    apply (valid_round_trip rid (JS.assign "lastUpdated"
                                   (JS.VStr (toISOString (clock m))) rps) eid eps).
    - apply (valid_stamped rid rps m). rewrite <- Hr. exact Hv.
    - rewrite own_assign_ne by discriminate. exact He.
    - exact Hdoc. }
  unfold bind at 1, set_registry. rewrite Hv'. cbn [negb].
  eexists _, _. split; [reflexivity|]. cbn [this_registry with_registry fs].
  split; [|split; [exact Hv'|split; reflexivity]].
  rewrite Hreg, Hdoc. change v with (fst (v, n)). rewrite <- Erev.
  apply stringify_revive.
Qed.

Lemma wp_save_contract m id ps Q :
  this_registry m = JS.VObj id ps ->
  (forall doc r m1,
      JS.stringify (stamped id ps m) = Some doc ->
      save_post rp m (stamped id ps m) doc r m1 -> Q r m1) ->
  wp (save rp) m Q.
Proof.
  intros Hr HQ. destruct (save_contract rp Hproper m id ps Hr) as (doc & Hdoc & Hpost).
  exact (HQ doc _ _ Hdoc Hpost).
Qed.

Lemma restoreFromBackup_spec m :
  wp (restoreFromBackup rp) m
    (fun r m' =>
       match r with
       | Ok true =>
           isValidRegistry (this_registry m') = true
           /\ exists doc mode,
                JS.stringify (this_registry m') = Some doc
                /\ fs m' !! rp = Some (File (Text doc) mode)
       | Ok false => fs m' !! rp = fs m !! rp
       | Throw _ => False
       | Abort w => w = Killed
       end).
Proof.
  unfold restoreFromBackup. apply wp_try_catch, wp_bind.
  unfold Fs.readFile. apply wp_call.
  - intros m1 c f' _ Hrun Hfs _.
    assert (Hf : fs m1 = fs m).
    { rewrite Hfs. destruct (fs m !! backupPath rp) as [[| |]|]; try discriminate Hrun;
        injection Hrun as _ <-; reflexivity. }
    apply wp_bind, wp_JSON_parse.
    + intros v n. destruct (isValidRegistry v) eqn:V.
      * apply wp_bind, wp_set_registry.
        destruct (valid_is_object _ V) as (id & ps & ->).
        apply wp_bind, wp_save_contract with (id := id) (ps := ps); [reflexivity|].
        intros doc [[]|e|w] m2 Hdoc (Hreg & Hr & _).
        -- apply wp_ret. destruct Hr as [(mode & Hfile) _]. split.
           ++ rewrite Hreg. apply valid_stamped, V.
           ++ exists doc, mode. rewrite Hreg. auto.
        -- apply wp_ret. destruct Hr as [Hsame _]. rewrite Hsame.
           cbn [fs with_registry with_nextId]. rewrite Hf. reflexivity.
        -- tauto.
      * apply wp_ret. cbn [fs with_nextId]. rewrite Hf. reflexivity.
    + intros e. apply wp_ret. rewrite Hf. reflexivity.
  - intros m1 e _ Hfs _. apply wp_ret. rewrite Hfs. reflexivity.
  - intros m1 _ _ _. reflexivity.
Qed.

End RegistryRecovery.

(** X11. What [save] has written, a later [load] reads back: once the
    in-memory copy is dropped with [clearCache] and the file system
    reports no failure, [load] returns a valid registry whose document
    is the one that was saved, without touching the disk. *)
Theorem save_then_load_round_trip
    (registryPath : string) (m m1 : machine) (rid : nat) (rps : JS.props)
    (eid : nat) (eps : JS.props)
    (Hproper : proper_path registryPath = true)
    (Hloaded : loaded m rid rps eid eps)
    (Hvalid : RegistryManager.isValidRegistry (this_registry m) = true)
    (Hsaved : RegistryManager.save registryPath m = (Ok tt, m1))
    (Hquiet : faults m1 = []) :
  exists registry m2,
    (RegistryManager.clearCache ;; RegistryManager.load registryPath) m1
    = (Ok registry, m2)
    /\ JS.stringify registry = JS.stringify (this_registry m1)
    /\ RegistryManager.isValidRegistry registry = true
    /\ this_registry m2 = registry
    /\ fs m2 = fs m1.
Proof.
  exact (save_then_load registryPath Hproper m m1 rid rps eid eps
           Hloaded Hvalid Hsaved Hquiet).
Qed.

Lemma save_then_load_round_trip_witness :
  let m1 := snd (RegistryManager.save sample_registryPath machine_with_rg) in
  exists registry m2,
    (RegistryManager.clearCache ;; RegistryManager.load sample_registryPath) m1
    = (Ok registry, m2)
    /\ JS.stringify registry = JS.stringify (this_registry m1)
    /\ RegistryManager.isValidRegistry registry = true
    /\ this_registry m2 = registry
    /\ fs m2 = fs m1.
Proof.
  eapply (save_then_load_round_trip sample_registryPath machine_with_rg).
  - reflexivity.
  - split; reflexivity.
  - reflexivity.
  - vm_compute. reflexivity.
  - reflexivity.
Defined.

(** X12. [restoreFromBackup] never raises. When it returns [true], the
    registry in memory is valid and [registry.json] holds its document;
    when it returns [false], [registry.json] is as it was. *)
Theorem restoreFromBackup_never_raises
    (registryPath : string) (m : machine)
    (Hproper : proper_path registryPath = true) :
  let run := RegistryManager.restoreFromBackup registryPath m in
  match fst run with
  | Ok true =>
      RegistryManager.isValidRegistry (this_registry (snd run)) = true
      /\ exists doc mode,
           JS.stringify (this_registry (snd run)) = Some doc
           /\ fs (snd run) !! registryPath = Some (File (Text doc) mode)
  | Ok false => fs (snd run) !! registryPath = fs m !! registryPath
  | Throw _ => False
  | Abort w => w = Killed
  end.
Proof. exact (restoreFromBackup_spec registryPath Hproper m). Qed.

Lemma restoreFromBackup_never_raises_witness :
  let run := RegistryManager.restoreFromBackup sample_registryPath machine_with_backup in
  match fst run with
  | Ok true =>
      RegistryManager.isValidRegistry (this_registry (snd run)) = true
      /\ exists doc mode,
           JS.stringify (this_registry (snd run)) = Some doc
           /\ fs (snd run) !! sample_registryPath = Some (File (Text doc) mode)
  | Ok false =>
      fs (snd run) !! sample_registryPath = fs machine_with_backup !! sample_registryPath
  | Throw _ => False
  | Abort w => w = Killed
  end.
Proof.
  apply (restoreFromBackup_never_raises sample_registryPath machine_with_backup).
  reflexivity.
Defined.

(** ** Mutation through an alias (registry.ts) *)

Section LastUsed.

Import RegistryManager.

Variable rp : string.

Lemma replace_VObj id ps' i ps :
  JS.replace id ps' (JS.VObj i ps)
  = if Nat.eqb i id then JS.VObj id ps' else JS.VObj i (JS.replace_props id ps' ps).
Proof.
  cbn [JS.replace]. destruct (Nat.eqb i id); [reflexivity|]. f_equal.
  induction ps as [|[k x] ps IH]; [reflexivity|].
  cbn [JS.replace_props]. rewrite <- IH. reflexivity.
Qed.

Lemma own_replace_props id ps' k ps :
  JS.own k (JS.replace_props id ps' ps) = option_map (JS.replace id ps') (JS.own k ps).
Proof.
  induction ps as [|[k' x] ps IH]; [reflexivity|].
  cbn [JS.replace_props JS.own]. destruct (String.eqb k' k); [reflexivity|exact IH].
Qed.

Lemma updateLastUsed_memory m rid rps eid eps name id fields :
  loaded m rid rps eid eps ->
  JS.own name eps = Some (JS.VObj id fields) ->
  rid <> id -> eid <> id ->
  let fields' := JS.assign "lastUsed" (JS.VStr (toISOString (clock m))) fields in
  exists rps',
    loaded (snd (updateLastUsed rp name m)) rid rps' eid
      (JS.replace_props id fields' eps).
Proof.
  intros Hl Hown Hrid Heid fields'. pose proof Hl as [Hr He].
  unfold updateLastUsed.
  rewrite (bind_Ok _ _ _ _ _ (load_memo rp m (loaded_truthy _ _ _ _ _ Hl))).
  rewrite (bind_Ok _ _ _ _ _ (get_entry_loaded _ _ _ _ _ name Hl)).
  unfold read. rewrite Hown. cbn [JS.truthy].
  unfold bind at 1, now at 1. unfold bind at 1, mutate at 1, bind at 1, set_prop at 1.
  cbn [String.eqb Ascii.eqb Bool.eqb ret]. unfold bind at 1, get_registry at 1.
  cbn [this_registry with_clock]. rewrite Hr. unfold set_registry at 1.
  rewrite replace_VObj. apply Nat.eqb_neq in Hrid. rewrite Hrid.
  fold fields'.
  set (m1 := with_registry _ _).
  assert (Hl1 : loaded m1 rid (JS.replace_props id fields' rps) eid
                  (JS.replace_props id fields' eps)).
  { split; [reflexivity|]. rewrite own_replace_props, He. cbn [option_map].
    rewrite replace_VObj. apply Nat.eqb_neq in Heid. rewrite Heid. reflexivity. }
  apply (save_loaded rp m1 rid _ eid _ Hl1).
Qed.

Lemma updateLastUsed_entries m rid rps eid eps name id fields :
  loaded m rid rps eid eps ->
  JS.own name eps = Some (JS.VObj id fields) ->
  rid <> id -> eid <> id ->
  let fields' := JS.assign "lastUsed" (JS.VStr (toISOString (clock m))) fields in
  let m' := snd (updateLastUsed rp name m) in
  forall k, entry_at m' k = option_map (JS.replace id fields') (entry_at m k).
Proof.
  intros Hl Hown Hrid Heid fields' m' k. subst m'.
  destruct (updateLastUsed_memory m rid rps eid eps name id fields Hl Hown Hrid Heid)
    as [rps' Hl'].
  rewrite (entry_at_loaded _ _ _ _ _ k Hl'), (entry_at_loaded _ _ _ _ _ k Hl).
  apply own_replace_props.
Qed.

Lemma updateLastUsed_absent m rid rps eid eps name :
  loaded m rid rps eid eps ->
  JS.own name eps = None -> JS.inherited name = false ->
  updateLastUsed rp name m = (Ok tt, m).
Proof.
  intros Hl Hown Hinh. unfold updateLastUsed.
  rewrite (bind_Ok _ _ _ _ _ (load_memo rp m (loaded_truthy _ _ _ _ _ Hl))).
  rewrite (bind_Ok _ _ _ _ _ (get_entry_loaded _ _ _ _ _ name Hl)).
  unfold read. rewrite Hown, Hinh. reflexivity.
Qed.

End LastUsed.

(** X13. [updateLastUsed(name)] changes the entry object in place: under
    every key that holds this very object, the alias included, the entry
    read afterwards carries the new [lastUsed]; this holds whatever
    becomes of the save. For a name that is absent, and that plain objects
    do not inherit from [Object.prototype] either, nothing happens and
    nothing is saved. *)
Theorem updateLastUsed_visible_through_alias
    (registryPath : string) (m : machine) (rid : nat) (rps : JS.props) (eid : nat)
    (eps : JS.props) (name : string) (id : nat) (fields : JS.props)
    (Hloaded : loaded m rid rps eid eps)
    (Hentry : JS.own name eps = Some (JS.VObj id fields))
    (Hregistry : rid <> id) (Hentries : eid <> id) :
  let fields' := JS.assign "lastUsed" (JS.VStr (toISOString (clock m))) fields in
  let m' := snd (RegistryManager.updateLastUsed registryPath name m) in
  (forall k, entry_at m' k = option_map (JS.replace id fields') (entry_at m k))
  /\ (forall k old, entry_at m k = Some (JS.VObj id old) ->
                    entry_at m' k = Some (JS.VObj id fields'))
  /\ JS.own "lastUsed" fields' = Some (JS.VStr (toISOString (clock m)))
  /\ forall absent, JS.own absent eps = None -> JS.inherited absent = false ->
       RegistryManager.updateLastUsed registryPath absent m = (Ok tt, m).
Proof.
  intros fields' m'.
  pose proof (updateLastUsed_entries registryPath m rid rps eid eps name id fields
                Hloaded Hentry Hregistry Hentries) as H.
  split; [exact H|]. split; [|split].
  - intros k old Hk. fold fields' m' in H. rewrite (H k), Hk. cbn [option_map].
    rewrite replace_VObj, Nat.eqb_refl. reflexivity.
  - apply own_assign_eq.
  - intros absent Hown Hinh.
    exact (updateLastUsed_absent registryPath m rid rps eid eps absent Hloaded Hown Hinh).
Qed.

Lemma updateLastUsed_visible_through_alias_witness :
  let m' := snd (RegistryManager.updateLastUsed sample_registryPath "rg" machine_with_rg) in
  exists fields',
    entry_at m' "rg" = Some (JS.VObj 3 fields')
    /\ entry_at m' "ripgrep" = Some (JS.VObj 3 fields')
    /\ JS.own "lastUsed" fields' = Some (JS.VStr "3").
Proof.
  destruct (updateLastUsed_visible_through_alias sample_registryPath machine_with_rg 1
              [("version", JS.VStr "1.0");
               ("entries", JS.VObj 0
                  [("rg", new_entry machine_loaded "rg" "BurntSushi/ripgrep" "v14.1.1"
                            linux_platform_value);
                   ("ripgrep", new_entry machine_loaded "rg" "BurntSushi/ripgrep" "v14.1.1"
                                 linux_platform_value)]);
               ("lastUpdated", JS.VStr "2")]
              0
              [("rg", new_entry machine_loaded "rg" "BurntSushi/ripgrep" "v14.1.1"
                        linux_platform_value);
               ("ripgrep", new_entry machine_loaded "rg" "BurntSushi/ripgrep" "v14.1.1"
                             linux_platform_value)]
              "rg" 3 _ ltac:(split; reflexivity) eq_refl ltac:(discriminate)
              ltac:(discriminate)) as (_ & Halias & Hused & _).
  eexists. split; [|split].
  - eapply (Halias "rg"). reflexivity.
  - eapply (Halias "ripgrep"). reflexivity.
  - exact Hused.
Defined.

(** ** Listing and counting (registry.ts) *)

Section Listing.

Import RegistryManager.

Variable rp : string.

Lemma map_set_keys key x map :
  List.map fst (map_set key x map) = value_set_add key (List.map fst map).
Proof.
  induction map as [|[k' x'] map IH]; [reflexivity|].
  cbn [map_set value_set_add List.map fst].
  destruct (JS.strict_eq k' key); [reflexivity|].
  cbn [List.map fst]. rewrite IH. reflexivity.
Qed.

(** the loop of [listEntries] visits the repositories that [getStats]
    collects, and fails where it fails *)
Lemma collect_unique_repos values : forall acc m,
  match map_repo values m with
  | (Ok repos, _) =>
      exists unique,
        collect_unique values acc m = (Ok unique, m)
        /\ List.map fst unique
           = List.fold_left (fun set r => value_set_add r set) repos (List.map fst acc)
  | (Throw e, _) => collect_unique values acc m = (Throw e, m)
  | (Abort w, _) => collect_unique values acc m = (Abort w, m)
  end.
Proof.
  induction values as [|entry values IH]; intros acc m.
  - cbn. eauto.
  - cbn [map_repo collect_unique]. unfold bind at 1 3, lift.
    destruct (JS.get entry "repo") as [e|repo]; cbn [throw ret]; [reflexivity|].
    specialize (IH (map_set repo entry acc) m). unfold bind at 1.
    destruct (map_repo values m) as [[repos|e|w] m1]; [|exact IH|exact IH].
    destruct IH as (unique & Hc & Hk). cbn [ret]. exists unique. split; [exact Hc|].
    rewrite Hk, map_set_keys. reflexivity.
Qed.

Lemma map_repo_pure values : forall m, snd (map_repo values m) = m.
Proof.
  induction values as [|entry values IH]; intros m; [reflexivity|].
  cbn [map_repo]. unfold bind at 1, lift.
  destruct (JS.get entry "repo") as [e|repo]; cbn [throw ret]; [reflexivity|].
  unfold bind. specialize (IH m).
  destruct (map_repo values m) as [[repos|e|w] m1]; exact IH.
Qed.

Lemma entry_values_Ok m values m1 :
  entry_values m = (Ok values, m1) ->
  m1 = m /\ exists id ps, this_registry m = JS.VObj id ps.
Proof.
  unfold entry_values, Object_values, Object_entries, bind, get_registry, lift.
  intros H.
  destruct (this_registry m) as [| | | | | |id ps]; cbn in H; try discriminate H.
  split; [|eauto].
  destruct (JS.own "entries" ps) as [[| | | | | |]|]; cbn in H;
    first [discriminate H | injection H as _ <-; reflexivity].
Qed.

Lemma listEntries_getStats m l m' :
  listEntries rp m = (Ok l, m') ->
  exists lastUpdated, getStats rp m = (Ok (length l, lastUpdated), m').
Proof.
  unfold listEntries, getStats, bind at 1.
  intros H. unfold bind at 1.
  destruct (load rp m) as [[registry|e|w] m1]; try discriminate H.
  unfold bind at 1 in H. unfold bind at 1.
  destruct (entry_values m1) as [[values|e|w] m2] eqn:Ev; try discriminate H.
  destruct (entry_values_Ok _ _ _ Ev) as (-> & id & ps & Hreg).
  unfold bind at 1 in H. unfold bind at 1.
  pose proof (collect_unique_repos values [] m1) as Hc.
  pose proof (map_repo_pure values m1) as Hp.
  destruct (map_repo values m1) as [[repos|e|w] m3]; cbn [snd] in Hp; subst m3.
  - destruct Hc as (unique & Hc & Hk). cbn [List.map] in Hk.
    rewrite Hc in H. cbn [ret] in H.
    injection H as <- <-.
    unfold bind at 1, get_registry at 1. rewrite Hreg.
    unfold bind, lift. cbn [JS.get].
    destruct (JS.own "lastUpdated" ps) as [x|]; cbn [ret];
      eexists; do 2 f_equal; f_equal;
      rewrite <- Hk, !List.length_map; reflexivity.
  - rewrite Hc in H. discriminate H.
  - rewrite Hc in H. discriminate H.
Qed.

End Listing.

(** X14. The number [getStats] reports as [totalEntries] is the length
    of the list [listEntries] returns: wherever [listEntries] returns,
    [getStats] returns too, with this number, and ends in the same
    state. *)
Theorem getStats_counts_listEntries
    (registryPath : string) (m m' : machine) (entries : list JS.value)
    (Hlisted : RegistryManager.listEntries registryPath m = (Ok entries, m')) :
  exists lastUpdated,
    RegistryManager.getStats registryPath m = (Ok (length entries, lastUpdated), m').
Proof. exact (listEntries_getStats registryPath m entries m' Hlisted). Qed.

Lemma getStats_counts_listEntries_witness :
  exists lastUpdated,
    RegistryManager.getStats sample_registryPath machine_with_rg
    = (Ok (1%nat, lastUpdated), machine_with_rg).
Proof.
  apply (getStats_counts_listEntries sample_registryPath machine_with_rg machine_with_rg
           [new_entry machine_loaded "rg" "BurntSushi/ripgrep" "v14.1.1"
              linux_platform_value]).
  vm_compute. reflexivity.
Defined.

(** ** Repair (registry.ts) *)

Section Enumeration.











End Enumeration.

Section Repair.

Import RegistryManager.

Variable rp : string.










End Repair.



(** ** A complete cache slot is found (cache.ts) *)

Section CacheHit.

Variable cacheDir : string.

Lemma access_quiet p m :
  faults m = [] -> is_Some (fs m !! p) ->
  Fs.access p m
  = (Ok tt, log (EvFs (OpAccess p) true) (with_fs (fs m) (with_faults [] m))).
Proof.
  intros Hq [n Hp]. unfold Fs.access.
  rewrite (proj2 (call_quiet _ _ _ m Hq)), Hp. reflexivity.
Qed.

Lemma json_field_revive doc k s n :
  JS.json_field doc k = Some (JS.JStr s) ->
  JS.truthy (fst (JS.revive doc n)) = true
  /\ JS.get (fst (JS.revive doc n)) k = inr (JS.VStr s).
Proof.
  destruct doc as [| | | |fields]; try discriminate. cbn [JS.json_field]. intros Hm.
  rewrite revive_JObj.
  destruct (own_revive_member k fields _ (S n) Hm) as [n' Hown].
  destruct (JS.revive_fields fields (S n)) as [ps n1]. cbn [fst] in *.
  split; [reflexivity|]. cbn [JS.get]. rewrite Hown. reflexivity.
Qed.

Lemma isCached_complete repo version platform cachePath doc mode binaryPath m :
  faults m = [] ->
  CachePure.getCachePath cacheDir repo version platform = Some cachePath ->
  fs m !! Path.join [cachePath; "metadata.json"] = Some (File (Text doc) mode) ->
  JS.json_field doc "binaryPath" = Some (JS.JStr binaryPath) ->
  is_Some (fs m !! binaryPath) ->
  exists m', CacheManager.isCached cacheDir repo version platform m = (Ok true, m')
             /\ fs m' = fs m /\ faults m' = [].
Proof.
  intros Hq Hpath Hmeta Hfield Hbin.
  unfold CacheManager.isCached, CacheManager.cachePathOf. rewrite Hpath.
  unfold bind at 1. cbn [ret]. unfold try_catch, bind at 1.
  rewrite (access_quiet _ m Hq) by (rewrite Hmeta; eauto).
  set (m1 := log _ _).
  unfold bind at 1, CacheManager.getMetadata, CacheManager.cachePathOf. rewrite Hpath.
  unfold bind at 1. cbn [ret]. unfold try_catch, bind at 1.
  rewrite (readFile_quiet _ (Text doc) mode m1) by (reflexivity || exact Hmeta).
  set (m2 := log _ _). unfold JSON_parse.
  destruct (json_field_revive doc "binaryPath" binaryPath (nextId m2) Hfield)
    as [Htruthy Hget].
  destruct (JS.revive doc (nextId m2)) as [v n]. cbn [fst] in Htruthy, Hget.
  rewrite Htruthy. unfold bind at 1, lift. rewrite Hget. cbn [ret].
  unfold bind at 1, CacheManager.access_value.
  rewrite (access_quiet binaryPath) by (reflexivity || exact Hbin).
  eexists. split; [reflexivity|]. split; reflexivity.
Qed.

End CacheHit.

(** X16. Where the file system reports no failure, [isCached] finds
    every complete slot: if [metadata.json] of the slot holds a document
    whose [binaryPath] is a string that names an existing file, [isCached]
    returns [true], and leaves the disk as it was. *)
Theorem isCached_complete_slot
    (cacheDir repo version : string) (platform : Platform) (cachePath : string)
    (doc : JS.json) (mode : Z) (binaryPath : string) (m : machine)
    (Hquiet : faults m = [])
    (Hpath : CachePure.getCachePath cacheDir repo version platform = Some cachePath)
    (Hmetadata : fs m !! Path.join [cachePath; "metadata.json"]
                 = Some (File (Text doc) mode))
    (Hfield : JS.json_field doc "binaryPath" = Some (JS.JStr binaryPath))
    (Hbinary : is_Some (fs m !! binaryPath)) :
  exists m', CacheManager.isCached cacheDir repo version platform m = (Ok true, m')
             /\ fs m' = fs m /\ faults m' = [].
Proof.
  exact (isCached_complete cacheDir repo version platform cachePath doc mode binaryPath m
           Hquiet Hpath Hmetadata Hfield Hbinary).
Qed.

Lemma isCached_complete_slot_witness :
  exists m', CacheManager.isCached "/c" "o/rg" "v1" linux_x86_64 slot_complete = (Ok true, m')
             /\ fs m' = fs slot_complete /\ faults m' = [].
Proof.
  apply (isCached_complete_slot "/c" "o/rg" "v1" linux_x86_64 "/c/o/rg/v1/linux-x86_64"
           slot_metadata 420 "/c/o/rg/v1/linux-x86_64/rg" slot_complete);
    try reflexivity.
  exists (File (Opaque "ELF") 493). reflexivity.
Defined.

(** ** Caching a binary makes it cached (cache.ts) *)

Section CacheRoundTrip.

Variable cacheDir : string.
Variable win32 : bool.

Lemma last_component_join dir x :
  valid_segment x = true ->
  exists dirs, Str.split_slash (Path.join [dir; x]) = dirs ++ [x].
Proof.
  intros Hx.
  rewrite (join_shape dir [x]) by (discriminate || (cbn; rewrite Hx; reflexivity)).
  rewrite root_stem_split, List.app_assoc;
    [eauto|discriminate|repeat constructor].
  apply valid_segment_inv in Hx. tauto.
Qed.

Lemma join_last_neq dir dir' x y :
  valid_segment x = true -> valid_segment y = true -> x <> y ->
  Path.join [dir; x] <> Path.join [dir'; y].
Proof.
  intros Hx Hy Hne E.
  destruct (last_component_join dir x Hx) as [l Hl].
  destruct (last_component_join dir' y Hy) as [l' Hl'].
  rewrite E, Hl' in Hl. apply List.app_inj_tail in Hl as [_ Hl]. congruence.
Qed.

(** what the two file-system calls of [updateLatestSymlink] leave alone *)
Let elsewhere (latest : string) (m m' : machine) : Prop :=
  forall q, q <> latest -> fs m' !! q = fs m !! q.

Lemma elsewhere_refl latest m : elsewhere latest m m.
Proof. intros q _. reflexivity. Qed.

Lemma elsewhere_trans latest m1 m2 m3 :
  elsewhere latest m1 m2 -> elsewhere latest m2 m3 -> elsewhere latest m1 m3.
Proof. intros H12 H23 q Hq. rewrite (H23 q Hq). exact (H12 q Hq). Qed.

Lemma keeps_unlink_elsewhere latest : keeps (elsewhere latest) (Fs.unlink latest).
Proof.
  apply keeps_call.
  - intros m fl ok q _. reflexivity.
  - intros m fl a f' H q Hq. cbn [fs log with_fs].
    destruct (fs m !! latest) as [[| |]|]; try discriminate H;
      injection H as _ <-; apply lookup_delete_ne; congruence.
  - intros m fl q _. reflexivity.
Qed.

Lemma keeps_symlink_elsewhere target latest :
  keeps (elsewhere latest) (Fs.symlink target latest).
Proof.
  apply keeps_call.
  - intros m fl ok q _. reflexivity.
  - intros m fl a f' H q Hq. cbn [fs log with_fs].
    destruct (fs m !! latest); try discriminate H.
    injection H as _ <-. apply lookup_insert_ne. congruence.
  - intros m fl q _. reflexivity.
Qed.

Lemma updateLatestSymlink_elsewhere repo version platform owner repoName rest :
  Str.split_slash repo = owner :: repoName :: rest ->
  keeps (elsewhere (Path.join [Path.join [cacheDir; owner; repoName]; "latest"]))
    (CacheManager.updateLatestSymlink cacheDir repo version platform).
Proof.
  intros Hs. unfold CacheManager.updateLatestSymlink. rewrite Hs.
  set (latest := Path.join [Path.join [cacheDir; owner; repoName]; "latest"]).
  apply (keeps_bind _ (elsewhere_trans latest)).
  - apply (keeps_try_catch _ (elsewhere_trans latest));
      [apply keeps_unlink_elsewhere|].
    intros _. apply keeps_ret, elsewhere_refl.
  - intros _. apply (keeps_try_catch _ (elsewhere_trans latest));
      [apply keeps_symlink_elsewhere|].
    intros _. apply keeps_ret, elsewhere_refl.
Qed.

(** the slot that [cacheBinary] leaves when it returns *)
Let complete (cachePath path : string) (m : machine) : Prop :=
  is_Some (fs m !! path)
  /\ exists doc mode,
       fs m !! Path.join [cachePath; "metadata.json"] = Some (File (Text doc) mode)
       /\ JS.json_field doc "binaryPath" = Some (JS.JStr path).

Lemma wp_keeps {A} R (c : M A) m (Q : outcome A -> machine -> Prop) :
  keeps R c -> (forall r m1, R m m1 -> Q r m1) -> wp c m Q.
Proof. intros Hk HQ. apply HQ, Hk. Qed.

Lemma cacheBinary_spec repo version platform binaryPath filename checksum
    cachePath owner repoName rest m :
  CachePure.getCachePath cacheDir repo version platform = Some cachePath ->
  Str.split_slash repo = owner :: repoName :: rest ->
  valid_segment (repoName +:+ (if win32 then ".exe" else "")) = true ->
  repoName +:+ (if win32 then ".exe" else "") <> "latest" ->
  wp (CacheManager.cacheBinary cacheDir win32 repo version platform binaryPath
        filename checksum) m
    (fun r m1 =>
       match r with
       | Ok path =>
           path = Path.join [cachePath; repoName +:+ (if win32 then ".exe" else "")]
           /\ complete cachePath path m1
       | _ => True
       end).
Proof.
  intros Hpath Hs Hvalid Hlatest.
  set (ext := if win32 then ".exe" else "") in *.
  set (path := Path.join [cachePath; repoName +:+ ext]).
  set (meta := Path.join [cachePath; "metadata.json"]).
  set (latest := Path.join [Path.join [cacheDir; owner; repoName]; "latest"]).
  assert (Hl1 : path <> latest)
    by (apply join_last_neq; [exact Hvalid|reflexivity|exact Hlatest]).
  assert (Hl2 : meta <> latest)
    by (apply join_last_neq; [reflexivity|reflexivity|discriminate]).
  unfold CacheManager.cacheBinary, CacheManager.cachePathOf. rewrite Hpath.
  apply wp_bind, wp_ret. apply wp_bind. unfold Fs.mkdir_p. apply wp_call; [|auto|auto].
  intros m1 _ _ _ _ _ _. unfold second. rewrite Hs. cbn [List.nth_error].
  rewrite guessBinaryName_repoName. fold ext. fold path.
  apply wp_bind. unfold Fs.copyFile. apply wp_call; [|auto|auto].
  intros m2 [] f2 _ Hrun2 Hfs2 _.
  assert (Hb2 : is_Some (fs m2 !! path)).
  { rewrite Hfs2. destruct (fs m1 !! binaryPath) as [[c mode| |]|]; try discriminate Hrun2.
    injection Hrun2 as <-. rewrite lookup_insert_eq. eauto. }
  clear Hrun2 Hfs2.
  apply wp_bind.
  assert (Hperm : wp (if negb win32
                      then let* mode := Fs.stat_mode path in
                           Fs.chmod path (Z.lor mode 493)
                      else ret tt) m2
                    (fun r m3 => match r with
                                 | Ok _ => is_Some (fs m3 !! path)
                                 | _ => True
                                 end)).
  { destruct win32; cbn [negb]; [apply wp_ret; exact Hb2|].
    apply wp_bind. unfold Fs.stat_mode. apply wp_call; [|auto|auto].
    intros m3 mode f3 _ Hrun3 Hfs3 _.
    assert (Hf3 : f3 = fs m2).
    { destruct (fs m2 !! path) as [[| |]|]; try discriminate Hrun3;
        injection Hrun3 as _ <-; reflexivity. }
    assert (Hb3 : is_Some (fs m3 !! path)) by (rewrite Hfs3, Hf3; exact Hb2).
    unfold Fs.chmod. apply wp_call; [|auto|auto].
    intros m4 [] f4 _ Hrun4 Hfs4 _. rewrite Hfs4.
    destruct (fs m3 !! path) as [[c md| |]|] eqn:E; try discriminate Hrun4;
      injection Hrun4 as <-; rewrite ?lookup_insert_eq, ?E; eauto. }
  eapply wp_mono; [exact Hperm|]. clear Hperm.
  intros [[]|e|w] m3 Hb3; try exact I.
  apply wp_bind, wp_now. apply wp_bind, wp_fresh. apply wp_bind, wp_fresh.
  apply wp_bind. unfold CacheManager.saveMetadata. fold meta.
  apply wp_bind. unfold JSON_stringify. rewrite stringify_VObj.
  match goal with |- context [JS.stringify_props ?p] => set (props := p) end.
  apply wp_ret. unfold Fs.writeFile. apply wp_call; [|auto|auto].
  intros m4 [] f4 _ Hrun4 Hfs4 _.
  cbn [fs with_clock with_nextId] in Hrun4, Hfs4.
  assert (Hc4 : complete cachePath path m4).
  { unfold complete. fold meta. rewrite Hfs4.
    assert (Hf4 : exists mode,
               f4 = <[meta := File (Text (JS.JObj (JS.stringify_props props))) mode]>
                      (fs m3)).
    { destruct (fs m3 !! meta) as [[c md| |]|]; try discriminate Hrun4;
        injection Hrun4 as <-; eauto. }
    destruct Hf4 as [mode ->]. split.
    - destruct (decide (path = meta)) as [->|Hne].
      + rewrite lookup_insert_eq. eauto.
      + rewrite lookup_insert_ne by congruence. exact Hb3.
    - eexists _, mode. rewrite lookup_insert_eq. split; [reflexivity|].
      reflexivity. }
  clear Hrun4 Hfs4.
  apply wp_bind.
  apply (wp_keeps _ _ _ _ (updateLatestSymlink_elsewhere repo version platform
                            owner repoName rest Hs)).
  fold latest. intros [[]|e|w] m5 Hel; try exact I.
  apply wp_ret. split; [reflexivity|].
  destruct Hc4 as [Hb (doc & mode & Hm & Hf)]. unfold complete. fold meta.
  rewrite (Hel path Hl1), (Hel meta Hl2). eauto.
Qed.

Lemma cacheBinary_then_cached repo version platform binaryPath filename checksum
    cachePath owner repoName rest m path m1 :
  CachePure.getCachePath cacheDir repo version platform = Some cachePath ->
  Str.split_slash repo = owner :: repoName :: rest ->
  valid_segment (repoName +:+ (if win32 then ".exe" else "")) = true ->
  repoName +:+ (if win32 then ".exe" else "") <> "latest" ->
  CacheManager.cacheBinary cacheDir win32 repo version platform binaryPath
    filename checksum m = (Ok path, m1) ->
  faults m1 = [] ->
  exists m2, CacheManager.isCached cacheDir repo version platform m1 = (Ok true, m2)
             /\ fs m2 = fs m1.
Proof.
  intros Hpath Hs Hvalid Hlatest Hrun Hq.
  pose proof (cacheBinary_spec repo version platform binaryPath filename checksum
                cachePath owner repoName rest m Hpath Hs Hvalid Hlatest) as H.
  unfold wp in H. rewrite Hrun in H. cbn [fst snd] in H.
  destruct H as (_ & Hb & doc & mode & Hm & Hf).
  destruct (isCached_complete cacheDir repo version platform cachePath doc mode path m1
              Hq Hpath Hm Hf Hb) as (m2 & Hc & Hfs & _).
  eauto.
Qed.

End CacheRoundTrip.

(** X17. A binary that [cacheBinary] has cached is cached: for a
    repository whose short name is a proper file name other than
    [latest], once [cacheBinary] has returned and while the file system
    reports no failure, [isCached] on the same repository, version and
    platform returns [true]. *)
Theorem cacheBinary_then_isCached
    (cacheDir : string) (win32 : bool) (repo version : string) (platform : Platform)
    (binaryPath filename : string) (checksum : option string)
    (cachePath owner repoName : string) (rest : list string)
    (m : machine) (path : string) (m1 : machine)
    (Hpath : CachePure.getCachePath cacheDir repo version platform = Some cachePath)
    (Hrepo : Str.split_slash repo = owner :: repoName :: rest)
    (Hname : valid_segment (repoName +:+ (if win32 then ".exe" else "")) = true)
    (Hlatest : repoName +:+ (if win32 then ".exe" else "") <> "latest")
    (Hcached : CacheManager.cacheBinary cacheDir win32 repo version platform binaryPath
                 filename checksum m = (Ok path, m1))
    (Hquiet : faults m1 = []) :
  exists m2, CacheManager.isCached cacheDir repo version platform m1 = (Ok true, m2)
             /\ fs m2 = fs m1.
Proof.
  exact (cacheBinary_then_cached cacheDir win32 repo version platform binaryPath filename
           checksum cachePath owner repoName rest m path m1
           Hpath Hrepo Hname Hlatest Hcached Hquiet).
Qed.

Lemma cacheBinary_then_isCached_witness :
  let m1 := snd (CacheManager.cacheBinary "/c" false "o/rg" "v1" linux_x86_64
                   "/tmp/gpx-0/extracted/rg" "rg-v1-linux-x86_64.tar.gz" None
                   machine_with_download) in
  exists m2, CacheManager.isCached "/c" "o/rg" "v1" linux_x86_64 m1 = (Ok true, m2)
             /\ fs m2 = fs m1.
Proof.
  apply (cacheBinary_then_isCached "/c" false "o/rg" "v1" linux_x86_64
           "/tmp/gpx-0/extracted/rg" "rg-v1-linux-x86_64.tar.gz" None
           "/c/o/rg/v1/linux-x86_64" "o" "rg" [] machine_with_download
           "/c/o/rg/v1/linux-x86_64/rg").
  - reflexivity.
  - reflexivity.
  - reflexivity.
  - discriminate.
  - vm_compute. reflexivity.
  - reflexivity.
Defined.

(** ** Looking a cached binary up (cache.ts) *)

Section CachedBinary.

Variable cacheDir : string.

Lemma getMetadata_outcome repo version platform cachePath m :
  CachePure.getCachePath cacheDir repo version platform = Some cachePath ->
  forall e, fst (CacheManager.getMetadata cacheDir repo version platform m) <> Throw e.
Proof.
  intros Hpath e. unfold CacheManager.getMetadata, CacheManager.cachePathOf.
  rewrite Hpath. unfold bind at 1. cbn [ret]. apply try_catch_swallows.
Qed.

Lemma getCachedBinary_outcome repo version platform cachePath m :
  CachePure.getCachePath cacheDir repo version platform = Some cachePath ->
  let run := CacheManager.getCachedBinary cacheDir repo version platform m in
  (forall e, fst run <> Throw e)
  /\ forall v, fst run = Ok v ->
       v = JS.VNull \/ exists p, v = JS.VStr p /\ is_Some (fs m !! p).
Proof.
  intros Hpath run. subst run.
  destruct (CacheManager.getCachedBinary cacheDir repo version platform m)
    as [r m'] eqn:R. cbn [fst].
  unfold CacheManager.getCachedBinary, bind at 1 in R.
  pose proof (getMetadata_outcome repo version platform cachePath m Hpath) as Hm.
  pose proof (read_only_getMetadata cacheDir repo version platform m) as Hro.
  destruct (CacheManager.getMetadata cacheDir repo version platform m)
    as [[metadata|e|w] m1]; cbn [fst snd] in *.
  - destruct (JS.truthy metadata); cbn [negb] in R.
    + unfold try_catch in R.
      destruct ((let* binaryPath := lift (JS.get metadata "binaryPath") in
                 CacheManager.access_value binaryPath;;
                 CacheManager.updateLastUsed cacheDir repo version platform;;
                 ret binaryPath) m1) as [[x|e|w] m2] eqn:E.
      * injection R as <- _. split; [discriminate|]. intros v [= <-].
        apply bind_Ok_inv in E as (bp & m3 & Hget & E).
        apply bind_Ok_inv in E as ([] & m4 & Hacc & E).
        apply bind_Ok_inv in E as ([] & m5 & _ & E).
        unfold ret in E. injection E as <- _.
        assert (m3 = m1) as ->.
        { unfold lift in Hget. destruct (JS.get metadata "binaryPath");
            [discriminate Hget|injection Hget as _ <-; reflexivity]. }
        destruct bp as [| | | | p | |]; try discriminate Hacc.
        right. exists p. split; [reflexivity|]. rewrite <- Hro.
        exact (access_Ok_inv _ _ _ _ Hacc).
      * unfold ret in R. injection R as <- _. split; [discriminate|].
        intros v [= <-]. left. reflexivity.
      * injection R as <- _. split; discriminate.
    + unfold ret in R. injection R as <- _. split; [discriminate|].
      intros v [= <-]. left. reflexivity.
  - exfalso. exact (Hm e eq_refl).
  - injection R as <- _. split; discriminate.
Qed.

End CachedBinary.

(** X18. For a repository string with an owner and a name,
    [getCachedBinary] never raises, whatever is on disk and whatever the
    file system does: it returns [null] or a path, and a path it returns
    names something that exists. *)
Theorem getCachedBinary_never_raises
    (cacheDir repo version : string) (platform : Platform) (cachePath : string)
    (m : machine)
    (Hpath : CachePure.getCachePath cacheDir repo version platform = Some cachePath) :
  let run := CacheManager.getCachedBinary cacheDir repo version platform m in
  (forall e, fst run <> Throw e)
  /\ forall v, fst run = Ok v ->
       v = JS.VNull \/ exists p, v = JS.VStr p /\ is_Some (fs m !! p).
Proof. exact (getCachedBinary_outcome cacheDir repo version platform cachePath m Hpath). Qed.

Lemma getCachedBinary_never_raises_witness :
  let run := CacheManager.getCachedBinary "/c" "o/rg" "v1" linux_x86_64 slot_without_binary in
  (forall e, fst run <> Throw e)
  /\ forall v, fst run = Ok v ->
       v = JS.VNull \/ exists p, v = JS.VStr p /\ is_Some (fs slot_without_binary !! p).
Proof.
  apply (getCachedBinary_never_raises "/c" "o/rg" "v1" linux_x86_64
           "/c/o/rg/v1/linux-x86_64" slot_without_binary).
  reflexivity.
Defined.

(** ** Counting the uses of a cached binary (cache.ts) *)

Section UsageCount.

Variable cacheDir : string.

Lemma getMetadata_quiet repo version platform cachePath doc mode m :
  faults m = [] ->
  CachePure.getCachePath cacheDir repo version platform = Some cachePath ->
  fs m !! Path.join [cachePath; "metadata.json"] = Some (File (Text doc) mode) ->
  exists m',
    CacheManager.getMetadata cacheDir repo version platform m
    = (Ok (fst (JS.revive doc (nextId m))), m')
    /\ fs m' = fs m /\ faults m' = [].
Proof.
  intros Hq Hpath Hmeta.
  unfold CacheManager.getMetadata, CacheManager.cachePathOf. rewrite Hpath.
  unfold bind at 1. cbn [ret]. unfold try_catch, bind at 1.
  rewrite (readFile_quiet _ (Text doc) mode m Hq Hmeta).
  unfold JSON_parse. cbn [nextId log with_fs with_faults].
  destruct (JS.revive doc (nextId m)) as [v n]. cbn [fst].
  eexists. split; [reflexivity|]. split; reflexivity.
Qed.

Lemma writeFile_quiet p c m :
  faults m = [] ->
  (fs m !! p = None \/ exists c0 mode, fs m !! p = Some (File c0 mode)) ->
  exists mode,
    Fs.writeFile p c m
    = (Ok tt, log (EvFs (OpWriteFile p) true)
                (with_fs (<[p := File c mode]> (fs m)) (with_faults [] m))).
Proof.
  intros Hq Hp. unfold Fs.writeFile. rewrite (proj2 (call_quiet _ _ _ m Hq)).
  destruct Hp as [->|(c0 & mode & ->)]; eexists; reflexivity.
Qed.

Lemma own_revive_num doc k n i :
  JS.json_field doc k = Some (JS.JNum n) ->
  exists id ps, fst (JS.revive doc i) = JS.VObj id ps /\ JS.own k ps = Some (JS.VNum n).
Proof.
  destruct doc as [| | | |fields]; try discriminate. cbn [JS.json_field]. intros Hm.
  rewrite revive_JObj.
  destruct (own_revive_member k fields _ (S i) Hm) as [n' Hown].
  destruct (JS.revive_fields fields (S i)) as [ps n1]. cbn [fst] in *. eauto.
Qed.

(** the record that [updateLastUsed] writes when the file system lets it *)
Lemma updateLastUsed_quiet repo version platform cachePath doc mode prior m :
  faults m = [] ->
  CachePure.getCachePath cacheDir repo version platform = Some cachePath ->
  fs m !! Path.join [cachePath; "metadata.json"] = Some (File (Text doc) mode) ->
  JS.truthy (fst (JS.revive doc (nextId m))) = true ->
  match prior with
  | Some n =>
      exists edoc emode,
        fs m !! Path.join [cachePath; "cache-entry.json"] = Some (File (Text edoc) emode)
        /\ JS.json_field edoc "usageCount" = Some (JS.JNum n)
        /\ Z.abs n < 9007199254740992
  | None => fs m !! Path.join [cachePath; "cache-entry.json"] = None
  end ->
  exists m' edoc' emode',
    CacheManager.updateLastUsed cacheDir repo version platform m = (Ok tt, m')
    /\ fs m' = <[Path.join [cachePath; "cache-entry.json"] := File (Text edoc') emode']>
                 (fs m)
    /\ JS.json_field edoc' "usageCount"
       = Some (JS.JNum (match prior with Some n => n + 1 | None => 1 end)).
Proof.
  intros Hq Hpath Hmeta Htruthy Hprior.
  set (entryPath := Path.join [cachePath; "cache-entry.json"]) in *.
  unfold CacheManager.updateLastUsed, CacheManager.cachePathOf. rewrite Hpath.
  unfold bind at 1. cbn [ret]. fold entryPath. unfold bind at 1, try_catch, bind at 1.
  destruct prior as [n|].
  - destruct Hprior as (edoc & emode & Hentry & Hcount & Hsafe).
    apply Z.ltb_lt in Hsafe.
    rewrite (readFile_quiet _ (Text edoc) emode m Hq Hentry).
    unfold bind at 1, JSON_parse. cbn [nextId log with_fs with_faults].
    destruct (own_revive_num edoc "usageCount" n (nextId m) Hcount)
      as (id & ps & Hrev & Hown).
    destruct (JS.revive edoc (nextId m)) as [v i]. cbn [fst] in Hrev. subst v.
    unfold bind at 1, CacheManager.increment_usageCount, bind at 1, lift.
    cbn [JS.get]. rewrite Hown. cbn [ret]. rewrite Hsafe.
    cbn [ret set_prop String.eqb Ascii.eqb Bool.eqb].
    unfold bind at 1, now at 1. unfold bind at 1, set_prop.
    cbn [ret String.eqb Ascii.eqb Bool.eqb].
    unfold bind at 1, JSON_stringify. rewrite stringify_VObj. cbn [ret].
    match goal with |- context [Fs.writeFile _ ?c ?m0] =>
      destruct (writeFile_quiet entryPath c m0 eq_refl) as [mode' ->];
        [right; cbn [fs]; eauto|]
    end.
    eexists _, _, mode'. split; [reflexivity|]. split; [reflexivity|].
    cbn [JS.json_field].
    apply (member_stringify_props "usageCount" _ (JS.VNum (n + 1))); [|reflexivity].
    rewrite own_assign_ne by discriminate. apply own_assign_eq.
  - unfold Fs.readFile. rewrite (proj2 (call_quiet _ _ _ m Hq)), Hprior.
    set (m1 := log _ _).
    destruct (getMetadata_quiet repo version platform cachePath doc mode m1
                eq_refl Hpath Hmeta) as (m2 & Hget & Hfs2 & Hq2).
    unfold bind at 1. rewrite Hget.
    change (nextId m1) with (nextId m). rewrite Htruthy. cbn [negb].
    unfold bind at 1, now at 1. unfold bind at 1, fresh at 1. cbn [ret].
    unfold bind at 1, now at 1. unfold bind at 1, set_prop.
    cbn [ret String.eqb Ascii.eqb Bool.eqb].
    unfold bind at 1, JSON_stringify. rewrite stringify_VObj. cbn [ret].
    match goal with |- context [Fs.writeFile _ ?c ?m0] =>
      destruct (writeFile_quiet entryPath c m0) as [mode' ->];
        [exact Hq2|left; cbn [fs with_clock with_nextId]; rewrite Hfs2; exact Hprior|]
    end.
    eexists _, _, mode'. split; [reflexivity|]. cbn [fs with_clock with_nextId].
    rewrite Hfs2. split; [reflexivity|].
    cbn [JS.json_field].
    apply (member_stringify_props "usageCount" _ (JS.VNum 1)); reflexivity.
Qed.

Lemma getCachedBinary_quiet repo version platform cachePath doc mode binaryPath
    prior m :
  faults m = [] ->
  CachePure.getCachePath cacheDir repo version platform = Some cachePath ->
  fs m !! Path.join [cachePath; "metadata.json"] = Some (File (Text doc) mode) ->
  JS.json_field doc "binaryPath" = Some (JS.JStr binaryPath) ->
  is_Some (fs m !! binaryPath) ->
  match prior with
  | Some n =>
      exists edoc emode,
        fs m !! Path.join [cachePath; "cache-entry.json"] = Some (File (Text edoc) emode)
        /\ JS.json_field edoc "usageCount" = Some (JS.JNum n)
        /\ Z.abs n < 9007199254740992
  | None => fs m !! Path.join [cachePath; "cache-entry.json"] = None
  end ->
  exists m' edoc' emode',
    CacheManager.getCachedBinary cacheDir repo version platform m
    = (Ok (JS.VStr binaryPath), m')
    /\ fs m' = <[Path.join [cachePath; "cache-entry.json"] := File (Text edoc') emode']>
                 (fs m)
    /\ JS.json_field edoc' "usageCount"
       = Some (JS.JNum (match prior with Some n => n + 1 | None => 1 end)).
Proof.
  intros Hq Hpath Hmeta Hfield Hbin Hprior.
  destruct (getMetadata_quiet repo version platform cachePath doc mode m Hq Hpath Hmeta)
    as (m1 & Hget & Hfs1 & Hq1).
  unfold CacheManager.getCachedBinary, bind at 1. rewrite Hget.
  destruct (json_field_revive doc "binaryPath" binaryPath (nextId m) Hfield)
    as [Htruthy Hbp].
  rewrite Htruthy. cbn [negb]. unfold try_catch, bind at 1, lift. rewrite Hbp.
  cbn [ret]. unfold bind at 1, CacheManager.access_value.
  rewrite (access_quiet binaryPath m1 Hq1) by (rewrite Hfs1; exact Hbin).
  set (m2 := log _ _).
  assert (Hn : nextId m2 = nextId m1) by reflexivity.
  destruct (json_field_revive doc "binaryPath" binaryPath (nextId m2) Hfield)
    as [Htruthy2 _].
  destruct (updateLastUsed_quiet repo version platform cachePath doc mode prior m2)
    as (m3 & edoc' & emode' & Hupd & Hfs3 & Hcount);
    [reflexivity|exact Hpath|cbn [fs m2 log with_fs]; rewrite Hfs1; exact Hmeta
    |exact Htruthy2| |].
  { cbn [fs m2 log with_fs]. rewrite Hfs1. exact Hprior. }
  unfold bind at 1. rewrite Hupd. cbn [ret].
  exists m3, edoc', emode'. split; [reflexivity|]. split; [|exact Hcount].
  rewrite Hfs3. cbn [fs m2 log with_fs]. rewrite Hfs1. reflexivity.
Qed.

End UsageCount.

(** X19. Every hit counts once. On a complete cache slot, while the
    file system reports no failure, [getCachedBinary] returns the path of
    the binary and rewrites [cache-entry.json] and nothing else: a record
    that counted [n] uses, [n] an integer that a double holds exactly,
    now counts [n + 1], and where there was no record the new one counts
    one use. *)
Theorem getCachedBinary_counts_usage
    (cacheDir repo version : string) (platform : Platform) (cachePath : string)
    (doc : JS.json) (mode : Z) (binaryPath : string) (prior : option Z) (m : machine)
    (Hquiet : faults m = [])
    (Hpath : CachePure.getCachePath cacheDir repo version platform = Some cachePath)
    (Hmetadata : fs m !! Path.join [cachePath; "metadata.json"]
                 = Some (File (Text doc) mode))
    (Hfield : JS.json_field doc "binaryPath" = Some (JS.JStr binaryPath))
    (Hbinary : is_Some (fs m !! binaryPath))
    (Hprior : match prior with
              | Some n =>
                  exists edoc emode,
                    fs m !! Path.join [cachePath; "cache-entry.json"]
                    = Some (File (Text edoc) emode)
                    /\ JS.json_field edoc "usageCount" = Some (JS.JNum n)
                    /\ Z.abs n < 9007199254740992
              | None => fs m !! Path.join [cachePath; "cache-entry.json"] = None
              end) :
  exists m' edoc' emode',
    CacheManager.getCachedBinary cacheDir repo version platform m
    = (Ok (JS.VStr binaryPath), m')
    /\ fs m' = <[Path.join [cachePath; "cache-entry.json"] := File (Text edoc') emode']>
                 (fs m)
    /\ JS.json_field edoc' "usageCount"
       = Some (JS.JNum (match prior with Some n => n + 1 | None => 1 end)).
Proof.
  exact (getCachedBinary_quiet cacheDir repo version platform cachePath doc mode
           binaryPath prior m Hquiet Hpath Hmetadata Hfield Hbinary Hprior).
Qed.

Lemma getCachedBinary_counts_usage_witness :
  exists m' edoc' emode',
    CacheManager.getCachedBinary "/c" "o/rg" "v1" linux_x86_64 slot_used
    = (Ok (JS.VStr "/c/o/rg/v1/linux-x86_64/rg"), m')
    /\ fs m' = <[Path.join ["/c/o/rg/v1/linux-x86_64"; "cache-entry.json"]
                 := File (Text edoc') emode']> (fs slot_used)
    /\ JS.json_field edoc' "usageCount" = Some (JS.JNum 4).
Proof.
  apply (getCachedBinary_counts_usage "/c" "o/rg" "v1" linux_x86_64
           "/c/o/rg/v1/linux-x86_64" slot_metadata 420 "/c/o/rg/v1/linux-x86_64/rg"
           (Some 3) slot_used); try reflexivity.
  - exists (File (Opaque "ELF") 493). reflexivity.
  - eexists _, _. repeat split; reflexivity.
Defined.
